(** * Excels-Columns-Merger: the matching engine of [excel_merger/matching.py]

    A shallow embedding of [normalize_text], [combine_columns],
    [build_token_index], [build_exact_index], [_similarity_ratio] and
    [run_matching], and the properties of the engine proved over it.
    Beside the engine: [filter_results_by_status] of [excel_merger/ui.py]
    and the counts that [_render_results] of [excel_merger/app_page.py]
    shows, over the frame of a run; and the preset file of
    [excel_merger/presets.py].

    Modelling conventions.
    - A Python [str] is a [string] whose characters are code points below
      256; [str.isspace], [str.lower], [str.strip], [str.split] and the
      regular expression [\s+] are written out for that range.  The
      normalization is also given over all code points (module
      [Unicode]), with [str.lower] as a parameter; over the code points
      below 256 the two agree.
    - A Python [float] is a rational [Q]: comparisons are exact, and the
      two float operations the engine performs (a division and [round])
      are taken from the runtime as parameters.
    - A pandas scalar is either a missing value ([pd.isna] holds) or a
      value known through its [str()] rendering.
    - A [DataFrame] is columnar: a row count and named columns.
    - Raised exceptions ([KeyError], [IndexError], [ZeroDivisionError],
      [AttributeError]) are results of an error monad. *)

From Stdlib Require Import ZArith QArith Ascii String List Sorted.
From stdpp Require Import gmap strings list fin_maps.

Close Scope Q_scope.
Open Scope string_scope.
Open Scope nat_scope.

(** ** Python strings *)

Module PyStr.

(** [str.isspace] on one code point below 256: the characters for
    which CPython's [Py_UNICODE_ISSPACE] holds. *)
Definition is_space (c : ascii) : bool :=
  let n := N_of_ascii c in
  ((9 <=? n) && (n <=? 13) || (28 <=? n) && (n <=? 32)
   || (n =? 133) || (n =? 160))%N.

(** [str.lower] on one code point below 256: [A-Z] and the Latin-1
    capitals (all of [0xC0..0xDE] but the multiplication sign). *)
Definition lower_char (c : ascii) : ascii :=
  let n := N_of_ascii c in
  if ((65 <=? n) && (n <=? 90)
      || (192 <=? n) && (n <=? 222) && negb (n =? 215))%N
  then ascii_of_N (n + 32) else c.

Definition lower (s : list ascii) : list ascii := map lower_char s.

Fixpoint lstrip (s : list ascii) : list ascii :=
  match s with
  | c :: r => if is_space c then lstrip r else s
  | [] => []
  end.

Definition rstrip (s : list ascii) : list ascii := rev (lstrip (rev s)).

Definition strip (s : list ascii) : list ascii := rstrip (lstrip s).

(** [re.sub(r"\s+", " ", s)]: every maximal run of whitespace becomes
    one space.  [in_run] tells that the previous character was
    whitespace, so the run's space has been written already. *)
Fixpoint sub_spaces (in_run : bool) (s : list ascii) : list ascii :=
  match s with
  | [] => []
  | c :: r =>
      if is_space c
      then (if in_run then sub_spaces true r else " "%char :: sub_spaces true r)
      else c :: sub_spaces false r
  end.

(** [str.split()] without arguments: the maximal runs of characters
    that are not whitespace.  [cur] is the current run, reversed. *)
Fixpoint split_from (cur : list ascii) (s : list ascii) : list (list ascii) :=
  match s with
  | [] => match cur with [] => [] | _ => [rev cur] end
  | c :: r =>
      if is_space c
      then match cur with
           | [] => split_from [] r
           | _ => rev cur :: split_from [] r
           end
      else split_from (c :: cur) r
  end.

Definition split (s : string) : list string :=
  map string_of_list_ascii (split_from [] (list_ascii_of_string s)).

(** [sep.join(parts)] *)
Fixpoint join (sep : string) (parts : list string) : string :=
  match parts with
  | [] => ""
  | [p] => p
  | p :: rest => p +:+ sep +:+ join sep rest
  end.

End PyStr.

(** ** Python strings over all code points

    A [str] as the list of its code points.  Whitespace is what
    CPython's [Py_UNICODE_ISSPACE] holds for, which [str.strip],
    [str.split] and the regular expression [\s] all go by.  [str.lower]
    is a parameter. *)

Module Unicode.

(** [Py_UNICODE_ISSPACE]: U+0009..000D, U+001C..0020, U+0085, U+00A0,
    U+1680, U+2000..200A, U+2028, U+2029, U+202F, U+205F and U+3000. *)
Definition is_space (c : N) : bool :=
  ((9 <=? c) && (c <=? 13) || (28 <=? c) && (c <=? 32)
   || (c =? 133) || (c =? 160) || (c =? 5760)
   || (8192 <=? c) && (c <=? 8202)
   || (c =? 8232) || (c =? 8233) || (c =? 8239) || (c =? 8287)
   || (c =? 12288))%N.

Fixpoint lstrip (s : list N) : list N :=
  match s with
  | c :: r => if is_space c then lstrip r else s
  | [] => []
  end.

Definition rstrip (s : list N) : list N := rev (lstrip (rev s)).

Definition strip (s : list N) : list N := rstrip (lstrip s).

(** [re.sub(r"\s+", " ", s)] *)
Fixpoint sub_spaces (in_run : bool) (s : list N) : list N :=
  match s with
  | [] => []
  | c :: r =>
      if is_space c
      then (if in_run then sub_spaces true r else 32%N :: sub_spaces true r)
      else c :: sub_spaces false r
  end.

(** [str.split()] without arguments *)
Fixpoint split_from (cur : list N) (s : list N) : list (list N) :=
  match s with
  | [] => match cur with [] => [] | _ => [rev cur] end
  | c :: r =>
      if is_space c
      then match cur with
           | [] => split_from [] r
           | _ => rev cur :: split_from [] r
           end
      else split_from (c :: cur) r
  end.

Definition split (s : list N) : list (list N) := split_from [] s.

(** A value: missing, or a value known through its [str()] text. *)
Inductive scalar : Type :=
| NA
| Val (text : list N).

Definition normalize_text (lower : list N → list N) (value : scalar) : list N :=
  match value with
  | NA => []
  | Val s => sub_spaces false (lower (strip s))
  end.

(** A text without whitespace. *)
Definition solid (w : list N) : Prop := Forall (λ c, is_space c = false) w.

(** What is known of [str.lower]: it leaves whitespace where it is and
    lower-cases the text on either side of it by itself; a text without
    whitespace stays one, and stays non-empty; and a lower-cased text
    is left alone. *)
Record str_lower_ok (lower : list N → list N) : Prop := {
  lower_nil : lower [] = [];
  lower_space : ∀ a c b, is_space c = true →
                         lower (a ++ c :: b)%list = (lower a ++ c :: lower b)%list;
  lower_word : ∀ w, solid w → w ≠ [] → solid (lower w) ∧ lower w ≠ [];
  lower_lower : ∀ s, lower (lower s) = lower s
}.

(** A text that does not begin, or end, with whitespace. *)
Definition starts_clean (s : list N) : Prop :=
  match s with c :: _ => is_space c = false | [] => True end.
Definition ends_clean (s : list N) : Prop := starts_clean (rev s).

End Unicode.

(** ** Scalars and normalization *)

(** A cell value: missing ([None], [NaN], [pd.NA]: everything
    [pd.isna] accepts) or a value, known through its [str()] rendering. *)
Inductive scalar : Type :=
| NA
| Val (text : string).

#[global] Instance scalar_eq_dec : EqDecision scalar.
Proof. solve_decision. Defined.

Definition normalize_text (value : scalar) : string :=
  match value with
  | NA => ""
  | Val s =>
      let text := PyStr.lower (PyStr.strip (list_ascii_of_string s)) in
      string_of_list_ascii (PyStr.sub_spaces false text)
  end.

(** ** Exceptions *)

Inductive exn : Type :=
| KeyError (key : string)
| IndexError
| ZeroDivisionError
| AttributeError.

Inductive result (A : Type) : Type :=
| Ok (a : A)
| Raise (e : exn).
Arguments Ok {A} a.
Arguments Raise {A} e.

#[global] Instance result_ret : MRet result := λ A a, Ok a.
#[global] Instance result_bind : MBind result :=
  λ A B f m, match m with Ok a => f a | Raise e => Raise e end.

(** A loop whose body may raise: the first exception ends it. *)
Fixpoint foldM {A B : Type} (f : A → B → result A) (l : list B) (a : A) : result A :=
  match l with
  | [] => Ok a
  | b :: r => a' ← f a b; foldM f r a'
  end.

Fixpoint mapM_result {A B : Type} (f : A → result B) (l : list A) : result (list B) :=
  match l with
  | [] => Ok []
  | a :: r => b ← f a; bs ← mapM_result f r; Ok (b :: bs)
  end.

(** [l[i]] for a position [i] that is not negative. *)
Definition index {A : Type} (l : list A) (i : nat) : result A :=
  match l !! i with
  | Some a => Ok a
  | None => Raise IndexError
  end.

(** [enumerate(l)] *)
Definition enumerate {A : Type} (l : list A) : list (nat * A) := imap pair l.

(** ** Dictionaries in insertion order *)

Abbreviation dict V := (list (string * V)).

Fixpoint dict_get {V : Type} (k : string) (d : dict V) : option V :=
  match d with
  | [] => None
  | (k', v) :: r => if decide (k' = k) then Some v else dict_get k r
  end.

(** [d[k] = v]: an existing key keeps its place, a new one goes last. *)
Fixpoint dict_set {V : Type} (k : string) (v : V) (d : dict V) : dict V :=
  match d with
  | [] => [(k, v)]
  | (k', v') :: r =>
      if decide (k' = k) then (k, v) :: r else (k', v') :: dict_set k v r
  end.

(** ** Data frames *)

(** A frame: the number of its rows and its columns by label.  The
    labels of a frame are distinct. *)
Record DataFrame : Type := {
  df_len : nat;
  df_columns : gmap string (nat → scalar)
}.

(** [df[cols]]: the named columns, in the order asked for. *)
Definition df_column (df : DataFrame) (col : string) : result (nat → scalar) :=
  match df_columns df !! col with
  | Some f => Ok f
  | None => Raise (KeyError col)
  end.

Definition df_select (df : DataFrame) (cols : list string)
  : result (list (string * (nat → scalar))) :=
  mapM_result (λ col, f ← df_column df col; Ok (col, f)) cols.

(** [.to_dict("records")] *)
Definition to_records (n : nat) (cols : list (string * (nat → scalar)))
  : list (dict scalar) :=
  map (λ i, fold_left (λ d cf, dict_set cf.1 (cf.2 i) d) cols []) (seq 0 n).

(** [.fillna("").astype(str)] on one cell *)
Definition fillna_str (v : scalar) : string :=
  match v with NA => "" | Val s => s end.

(** What [combine_columns] hands back: a series of texts, one per row,
    or, for a selection of columns of a frame without rows, a frame,
    which is what [agg(" ".join, axis=1)] gives there. *)
Inductive combined : Type :=
| Series (texts : list string)
| EmptyFrame.

#[global] Instance combined_eq_dec : EqDecision combined.
Proof. solve_decision. Defined.

Definition combine_columns (df : DataFrame) (selected_cols : list string)
  : result combined :=
  match selected_cols with
  | [] => Ok (Series (replicate (df_len df) ""))
  | _ =>
      cols ← df_select df selected_cols;
      if decide (df_len df = 0) then Ok EmptyFrame
      else
        Ok (Series
              (map (λ i, normalize_text
                           (Val (PyStr.join " "
                                   (map (λ cf, fillna_str (cf.2 i)) cols))))
                 (seq 0 (df_len df))))
  end.

(** [.tolist()]: a series has it, a frame has not. *)
Definition tolist (c : combined) : result (list string) :=
  match c with
  | Series texts => Ok texts
  | EmptyFrame => Raise AttributeError
  end.

(** The texts of a series. *)
Definition series_texts (c : combined) : list string :=
  match c with
  | Series texts => texts
  | EmptyFrame => []
  end.

(** ** The blocking indexes *)

Definition build_token_index (text_values : list string) : gmap string (gset nat) :=
  fold_left
    (λ (token_index : gmap string (gset nat)) (pt : nat * string),
       fold_left
         (λ (ti : gmap string (gset nat)) (token : string), <[token := default ∅ (ti !! token) ∪ {[pt.1]}]> ti)
         (PyStr.split pt.2) token_index)
    (enumerate text_values) ∅.

Definition build_exact_index (text_values : list string) : gmap string (list nat) :=
  fold_left
    (λ (exact_index : gmap string (list nat)) (pt : nat * string),
       if decide (pt.2 = "") then exact_index
       else <[pt.2 := (default [] (exact_index !! pt.2) ++ [pt.1])%list]> exact_index)
    (enumerate text_values) ∅.

(** ** The runtime the engine runs on *)

Record Runtime : Type := {
  (** [rapidfuzz_fuzz is not None] *)
  rapidfuzz_available : bool;
  (** [rapidfuzz_fuzz.ratio] *)
  rapidfuzz_ratio : string → string → Q;
  (** [SequenceMatcher(None, a, b).ratio()] *)
  difflib_ratio : string → string → Q;
  (** float division *)
  float_div : Q → Q → Q;
  (** the builtin [round(x, ndigits)] *)
  round : Q → Z → Q;
  (** the order in which a [set] of positions is iterated *)
  set_iter : gset nat → list nat
}.

(** What is known of [set_iter]: each member once, in some order. *)
Definition set_iter_ok (rt : Runtime) : Prop :=
  ∀ s : gset nat, set_iter rt s ≡ₚ elements s.

Definition _similarity_ratio (rt : Runtime) (left_text right_text : string)
    (use_rapidfuzz : bool) : Q :=
  if use_rapidfuzz && rapidfuzz_available rt
  then float_div rt (rapidfuzz_ratio rt left_text right_text) 100%Q
  else difflib_ratio rt left_text right_text.

(** ** The result *)

(** A field of an output row. *)
Inductive obj : Type :=
| Cell (v : scalar)
| Float (q : Q)
| Text (s : string).

Record MatchResult : Type := {
  result_df : list (dict obj);
  best_scores : list Q;
  best_positions : list (option nat);
  left_text : list string;
  right_text : list string;
  similarity_enabled : bool;
  similarity_engine : string;
  exact_match_count : nat;
  candidate_comparisons : nat;
  left_match_columns_used : list string;
  right_match_columns_used : list string
}.

(** ** Progress reporting *)

(** [max(total_rows // 200, 1)] *)
Definition default_update_every (total_rows : nat) : Z :=
  Z.max (Z.of_nat total_rows / 200) 1.

(** The end of a loop body: the callback, when there is one, is called
    with the rows done so far.  The calls made are kept as a trace. *)
Definition progress_tick (progress_callback : bool) (progress_update_every : Z)
    (total_rows left_pos : nat) (calls : list (nat * nat))
  : result (list (nat * nat)) :=
  if progress_callback then
    let done_rows := S left_pos in
    if decide (progress_update_every = 0%Z) then Raise ZeroDivisionError
    else if bool_decide (Z.modulo (Z.of_nat done_rows) progress_update_every = 0%Z)
            || bool_decide (done_rows = total_rows)
         then Ok (calls ++ [(done_rows, total_rows)])%list
         else Ok calls
  else Ok calls.

(** ** Output rows *)

(** [for col, value in record.items(): row[f"{prefix}{col}"] = value] *)
Definition set_prefixed (prefix : string) (record : dict scalar) (row : dict obj)
  : dict obj :=
  fold_left (λ (row : dict obj) (cv : string * scalar),
               dict_set (prefix +:+ cv.1) (Cell cv.2) row) record row.

(** [for col in cols: row[f"{prefix}{col}"] = pd.NA] *)
Definition set_missing (prefix : string) (cols : list string) (row : dict obj)
  : dict obj :=
  fold_left (λ (row : dict obj) (col : string),
               dict_set (prefix +:+ col) (Cell NA) row) cols row.

(** The truth value of a list. *)
Definition truthy {A : Type} (l : list A) : bool :=
  match l with [] => false | _ => true end.

(** ** The loop without similarity *)

Section PositionalLoop.
Variables left_output_records right_output_records : list (dict scalar).
Variable right_output_cols : list string.
Variables include_unmatched progress_callback : bool.
Variable progress_update_every : Z.
Variable total_rows : nat.

(** One turn of [for left_pos in range(total_rows)]; the state is
    [rows] and the calls made to the callback. *)
Definition positional_step (st : list (dict obj) * list (nat * nat))
    (left_pos : nat) : result (list (dict obj) * list (nat * nat)) :=
  lrec ← index left_output_records left_pos;
  let row := set_prefixed "Left_" lrec [] in
  let has_right_row := bool_decide (left_pos < length right_output_records) in
  row ← (if has_right_row
         then rrec ← index right_output_records left_pos;
              Ok (set_prefixed "Right_" rrec row)
         else Ok (set_missing "Right_" right_output_cols row));
  let rows := if has_right_row || include_unmatched
              then (st.1 ++ [row])%list else st.1 in
  calls ← progress_tick progress_callback progress_update_every
            total_rows left_pos st.2;
  Ok (rows, calls).

Definition positional_loop (positions : list nat)
    (st : list (dict obj) * list (nat * nat)) :=
  foldM positional_step positions st.
End PositionalLoop.

(** ** The loop with similarity *)

Record loop_state : Type := {
  st_rows : list (dict obj);
  st_best_scores : list Q;
  st_best_positions : list (option nat);
  st_exact_match_count : nat;
  st_candidate_comparisons : nat;
  st_calls : list (nat * nat)
}.

(** What the body of the loop decides for one left row: [best_score]
    and [best_right_pos] as the loop leaves them, whether the row added
    one to [exact_match_count], and how many times it added one to
    [candidate_comparisons]. *)
Record decision : Type := {
  best_score : Q;
  best_right_pos : option nat;
  exact_hit : bool;
  comparisons : nat
}.

Section SimilarityLoop.
Variable rt : Runtime.
Variable token_index : gmap string (gset nat).
Variable exact_index : gmap string (list nat).
Variable right_text_values : list string.
Variable use_rapidfuzz : bool.
Variables left_output_records right_output_records : list (dict scalar).
Variable right_output_cols : list string.
Variable threshold : Q.
Variables include_unmatched progress_callback : bool.
Variable progress_update_every : Z.
Variable total_rows : nat.

(** [candidate_positions], from [ltokens]. *)
Definition candidate_positions (ltokens : gset string) : gset nat :=
  set_fold (λ (token : string) (acc : gset nat),
              acc ∪ default ∅ (token_index !! token)) ∅ ltokens.

(** The loop over the candidates; the accumulator holds the number of
    comparisons made, [best_score] and [best_right_pos]. *)
Definition score_step (ltext : string) (acc : nat * Q * option nat)
    (right_pos : nat) : result (nat * Q * option nat) :=
  let '(n, best, pos) := acc in
  rtext ← index right_text_values right_pos;
  let score := _similarity_ratio rt ltext rtext use_rapidfuzz in
  if Qlt_le_dec best score
  then Ok (S n, score, Some right_pos)
  else Ok (S n, best, pos).

(** The first part of the loop body, up to the two [append]s: the exact
    path when [ltext] is a key of the exact index, the scoring of the
    candidates otherwise. *)
Definition match_row (ltext : string) : result decision :=
  match exact_index !! ltext with
  | Some positions =>
      first ← index positions 0;
      Ok {| best_score := 1%Q; best_right_pos := Some first;
            exact_hit := true; comparisons := 0 |}
  | None =>
      let ltokens : gset string := list_to_set (PyStr.split ltext) in
      if decide (ltokens = ∅)
      then Ok {| best_score := 0%Q; best_right_pos := None;
                 exact_hit := false; comparisons := 0 |}
      else
        acc ← foldM (score_step ltext)
                (set_iter rt (candidate_positions ltokens)) (0, 0%Q, None);
        Ok {| best_score := acc.1.2; best_right_pos := acc.2;
              exact_hit := false; comparisons := acc.1.1 |}
  end.

(** [matched = best_right_pos is not None and best_score >= threshold] *)
Definition is_matched (d : decision) : bool :=
  bool_decide (is_Some (best_right_pos d)) && Qle_bool threshold (best_score d).

(** The output row of a left row that is kept. *)
Definition output_row (left_pos : nat) (d : decision) : result (dict obj) :=
  let matched := is_matched d in
  lrec ← index left_output_records left_pos;
  let row := set_prefixed "Left_" lrec [] in
  row ← match (if matched then best_right_pos d else None) with
        | Some p =>
            rrec ← index right_output_records p;
            Ok (set_prefixed "Right_" rrec row)
        | None => Ok (set_missing "Right_" right_output_cols row)
        end;
  let row := dict_set "Similarity_Score" (Float (round rt (best_score d) 4)) row in
  Ok (dict_set "Match_Status"
        (Text (if matched then "Matched" else "No match")) row).

(** One turn of [for left_pos, ltext in enumerate(left_text_values)]. *)
Definition similarity_step (st : loop_state) (item : nat * string)
  : result loop_state :=
  let '(left_pos, ltext) := item in
  d ← match_row ltext;
  rows ← (if is_matched d || include_unmatched
          then row ← output_row left_pos d; Ok (st_rows st ++ [row])%list
          else Ok (st_rows st));
  calls ← progress_tick progress_callback progress_update_every
            total_rows left_pos (st_calls st);
  Ok {| st_rows := rows;
        st_best_scores := (st_best_scores st ++ [best_score d])%list;
        st_best_positions := (st_best_positions st ++ [best_right_pos d])%list;
        st_exact_match_count :=
          st_exact_match_count st + (if exact_hit d then 1 else 0);
        st_candidate_comparisons := st_candidate_comparisons st + comparisons d;
        st_calls := calls |}.

Definition similarity_loop (items : list (nat * string)) (st : loop_state) :=
  foldM similarity_step items st.
End SimilarityLoop.

(** ** The engine *)

Definition initial_calls (progress_callback : bool) (total_rows : nat)
  : list (nat * nat) :=
  if progress_callback then [(0, total_rows)] else [].

Definition resolve_update_every (progress_update_every : option Z)
    (total_rows : nat) : Z :=
  match progress_update_every with
  | None => default_update_every total_rows
  | Some n => n
  end.

(** The state of the similarity loop of a run after its first [k] rows. *)
Definition similarity_prefix (rt : Runtime)
    (left_text_values right_text_values : list string)
    (left_output_records right_output_records : list (dict scalar))
    (right_output_cols : list string) (threshold : Q)
    (include_unmatched prefer_rapidfuzz progress_callback : bool)
    (progress_update_every : option Z) (k : nat) : result loop_state :=
  let token_index := build_token_index right_text_values in
  let exact_index := build_exact_index right_text_values in
  let use_rapidfuzz := prefer_rapidfuzz && rapidfuzz_available rt in
  let total_rows := length left_text_values in
  similarity_loop rt token_index exact_index right_text_values use_rapidfuzz
    left_output_records right_output_records right_output_cols threshold
    include_unmatched progress_callback
    (resolve_update_every progress_update_every total_rows) total_rows
    (take k (enumerate left_text_values))
    {| st_rows := []; st_best_scores := []; st_best_positions := [];
       st_exact_match_count := 0; st_candidate_comparisons := 0;
       st_calls := initial_calls progress_callback total_rows |}.

(** [progress_callback] tells whether a callback is given ([None]
    otherwise); the calls it receives are returned beside the result, in
    order. *)
Definition run_matching (rt : Runtime) (left_df right_df : DataFrame)
    (left_output_cols right_output_cols : list string)
    (left_match_cols right_match_cols : list string)
    (threshold : Q) (include_unmatched prefer_rapidfuzz progress_callback : bool)
    (progress_update_every : option Z)
  : result (MatchResult * list (nat * nat)) :=
  let similarity_enabled := truthy left_match_cols && truthy right_match_cols in
  let effective_left_match_cols := if similarity_enabled then left_match_cols else [] in
  let effective_right_match_cols := if similarity_enabled then right_match_cols else [] in
  left_text ← combine_columns left_df effective_left_match_cols;
  right_text ← combine_columns right_df effective_right_match_cols;
  left_cols ← df_select left_df left_output_cols;
  let left_output_records := to_records (df_len left_df) left_cols in
  right_cols ← df_select right_df right_output_cols;
  let right_output_records := to_records (df_len right_df) right_cols in
  if negb similarity_enabled then
    let total_rows := length left_output_records in
    st ← positional_loop left_output_records right_output_records
           right_output_cols include_unmatched progress_callback
           (resolve_update_every progress_update_every total_rows) total_rows
           (seq 0 total_rows) ([], initial_calls progress_callback total_rows);
    Ok ({| result_df := st.1;
           best_scores := [];
           best_positions := [];
           left_text := series_texts left_text;
           right_text := series_texts right_text;
           similarity_enabled := false;
           similarity_engine := "disabled";
           exact_match_count := 0;
           candidate_comparisons := 0;
           left_match_columns_used := [];
           right_match_columns_used := [] |}, st.2)
  else
    left_text_values ← tolist left_text;
    right_text_values ← tolist right_text;
    let use_rapidfuzz := prefer_rapidfuzz && rapidfuzz_available rt in
    st ← similarity_prefix rt left_text_values right_text_values
           left_output_records right_output_records right_output_cols
           threshold include_unmatched prefer_rapidfuzz progress_callback
           progress_update_every (length left_text_values);
    Ok ({| result_df := st_rows st;
           best_scores := st_best_scores st;
           best_positions := st_best_positions st;
           left_text := left_text_values;
           right_text := right_text_values;
           similarity_enabled := true;
           similarity_engine := if use_rapidfuzz then "rapidfuzz" else "difflib";
           exact_match_count := st_exact_match_count st;
           candidate_comparisons := st_candidate_comparisons st;
           left_match_columns_used := effective_left_match_cols;
           right_match_columns_used := effective_right_match_cols |}, st_calls st).

(** ** The result as a frame and its filter ([excel_merger/ui.py]) *)

(** A frame of output rows: its columns and its rows. *)
Record Frame : Type := {
  fr_columns : list string;
  fr_rows : list (dict obj)
}.

(** [pd.DataFrame(rows)]: the columns are the keys of the rows, in the
    order in which they first appear. *)
Definition DataFrame_of_rows (rows : list (dict obj)) : Frame :=
  {| fr_columns :=
       fold_left
         (λ (cols : list string) (key : string),
            if decide (key ∈ cols) then cols else (cols ++ [key])%list)
         (concat (map (map fst) rows)) [];
     fr_rows := rows |}.

(** [result_df["Match_Status"] == status] on one row.  A row without
    the field holds a missing value there, which equals no string; a
    cell read from a sheet equals the string when it renders as it. *)
Definition status_is (status : string) (row : dict obj) : bool :=
  match dict_get "Match_Status" row with
  | Some (Text s) => bool_decide (s = status)
  | Some (Cell (Val s)) => bool_decide (s = status)
  | _ => false
  end.

Definition filter_results_by_status (result_df : Frame) (filter_mode : string)
  : Frame :=
  if decide ("Match_Status" ∈ fr_columns result_df) then
    if decide (filter_mode = "Matched only") then
      {| fr_columns := fr_columns result_df;
         fr_rows := filter (λ row, status_is "Matched" row = true)
                      (fr_rows result_df) |}
    else if decide (filter_mode = "No match only") then
      {| fr_columns := fr_columns result_df;
         fr_rows := filter (λ row, status_is "No match" row = true)
                      (fr_rows result_df) |}
    else result_df
  else result_df.

(** ** The counts shown for a run with similarity
    ([_render_results] of [excel_merger/app_page.py]) *)

(** [sum(score >= threshold for score in best_scores)] *)
Definition matched_count (best_scores : list Q) (threshold : Q) : nat :=
  sum_list (map (λ score, if Qle_bool threshold score then 1 else 0) best_scores).

(** [int((result_df["Match_Status"] == "No match").sum())] when the
    frame has the column, 0 otherwise. *)
Definition no_match_count (result_df : Frame) : nat :=
  if decide ("Match_Status" ∈ fr_columns result_df)
  then length (filter (λ row, status_is "No match" row = true) (fr_rows result_df))
  else 0.

(** [min(a, b)] on floats: [a], unless [b] is smaller. *)
Definition py_min (a b : Q) : Q := if Qle_bool a b then a else b.

(** [sum(threshold <= score < min(threshold + 0.05, 1.0) for score in
    best_scores)]; the addition of floats is a parameter. *)
Definition low_confidence (float_add : Q → Q → Q) (best_scores : list Q)
    (threshold : Q) : nat :=
  sum_list
    (map (λ score,
            if Qle_bool threshold score
               && negb (Qle_bool (py_min (float_add threshold (1 # 20)%Q) 1%Q) score)
            then 1 else 0)
       best_scores).

(** ** The count shown for a run without similarity *)

(** [notna] on one field. *)
Definition notna (value : obj) : bool :=
  match value with
  | Cell NA => false
  | _ => true
  end.

(** The field of a row of a frame under a column: a row without the key
    holds a missing value there. *)
Definition frame_field (row : dict obj) (col : string) : obj :=
  default (Cell NA) (dict_get col row).

(** [int(result_df.filter(regex=r"^Right_").notna().any(axis=1).sum())] *)
Definition right_rows_filled (result_df : Frame) : nat :=
  let right_cols :=
    filter (λ col, String.prefix "Right_" col = true) (fr_columns result_df) in
  length (filter (λ row, existsb (λ col, notna (frame_field row col)) right_cols
                         = true)
            (fr_rows result_df)).

(** * Presets: [excel_merger/presets.py] *)

(** ** JSON values *)

(** A float of Python as JSON carries it: a rational, an infinity or
    NaN. *)
Inductive pyfloat : Type :=
| Finite (q : Q)
| Infinity (negative : bool)
| NaN.

#[local] Set Warnings "-register-all".

(** The values [json.loads] builds and [json.dumps] writes: [None],
    [bool], [int], [float], [str], [list], and [dict] with string
    keys. *)
Inductive json : Type :=
| JNull
| JBool (b : bool)
| JInt (n : Z)
| JFloat (x : pyfloat)
| JString (s : string)
| JArray (items : list json)
| JObject (fields : gmap string json).

(** ** Exceptions *)

(** The exceptions the preset functions meet.  [ValueError] stands for
    a [ValueError] that is neither of its subclasses [JSONDecodeError]
    and [UnicodeDecodeError]. *)
Inductive io_exn : Type :=
| OSError
| JSONDecodeError
| UnicodeDecodeError
| RecursionError
| ValueError.

#[global] Instance io_exn_eq_dec : EqDecision io_exn.
Proof. solve_decision. Defined.

Inductive io_result (A : Type) : Type :=
| Returns (a : A)
| Fails (e : io_exn).
Arguments Returns {A} a.
Arguments Fails {A} e.

#[global] Instance io_result_ret : MRet io_result := λ A a, Returns a.
#[global] Instance io_result_bind : MBind io_result :=
  λ A B f m, match m with Returns a => f a | Fails e => Fails e end.

(** ** The [json] module *)

(** The text [dumps] returns and [loads] reads is kept abstract.
    [dumps value] is [json.dumps(value, indent=2, sort_keys=True)] and
    [loads text] is [json.loads(text)]: each returns, or raises an
    exception ([JSONDecodeError] for a text that is no JSON,
    [RecursionError] for a nesting that is too deep, [ValueError] for an
    integer of too many digits). *)
Record JsonLib : Type := {
  json_text : Type;
  dumps : json → io_result json_text;
  loads : json_text → io_result json
}.

(** What is assumed of the module where a statement says so: a value
    that is written is read back. *)
Definition round_trip (lib : JsonLib) : Prop :=
  ∀ (value : json) (text : json_text lib),
    dumps lib value = Returns text → loads lib text = Returns value.

(** ** The preset file *)

(** What is at the path of the preset file: nothing; something that
    [stat] is refused on; bytes that are not UTF-8; or a text. *)
Inductive stored (lib : JsonLib) : Type :=
| NoFile
| NoAccess
| NotUtf8
| Utf8 (t : json_text lib).
Arguments NoFile {lib}.
Arguments NoAccess {lib}.
Arguments NotUtf8 {lib}.
Arguments Utf8 {lib} t.

(** The disk as the four functions meet it.  [readable]: [read_text]
    gets the bytes of what is at the path rather than raising [OSError];
    [parent_ok]: [mkdir] of the parent succeeds rather than raising
    [OSError]; [writable]: [write_text] succeeds rather than raising
    [OSError]. *)
Record disk (lib : JsonLib) : Type := {
  at_path : stored lib;
  readable : bool;
  parent_ok : bool;
  writable : bool
}.
Arguments at_path {lib} d.
Arguments readable {lib} d.
Arguments parent_ok {lib} d.
Arguments writable {lib} d.

(** [path.exists()] *)
Definition path_exists {lib : JsonLib} (d : disk lib) : io_result bool :=
  match at_path d with
  | NoFile => Returns false
  | NoAccess => Fails OSError
  | NotUtf8 | Utf8 _ => Returns true
  end.

(** [path.read_text(encoding="utf-8")] *)
Definition read_text {lib : JsonLib} (d : disk lib) : io_result (json_text lib) :=
  match at_path d with
  | Utf8 t => if readable d then Returns t else Fails OSError
  | NotUtf8 => if readable d then Fails UnicodeDecodeError else Fails OSError
  | NoFile | NoAccess => Fails OSError
  end.

(** [value] when [isinstance(value, dict)] *)
Definition as_dict (value : json) : option (gmap string json) :=
  match value with
  | JObject fields => Some fields
  | _ => None
  end.

(** [path.exists()] is called outside the [try]; [read_text] and
    [json.loads] inside it, where [OSError] and [JSONDecodeError] are
    caught and every other exception goes on. *)
Definition load_presets {lib : JsonLib} (d : disk lib)
  : io_result (gmap string (gmap string json)) :=
  found ← path_exists d;
  if negb found then Returns ∅
  else
    match (text ← read_text d; loads lib text) with
    | Fails OSError | Fails JSONDecodeError => Returns ∅
    | Fails e => Fails e
    | Returns (JObject data) => Returns (omap as_dict data)
    | Returns _ => Returns ∅
    end.

(** [mkdir], then [json.dumps], then [write_text]. *)
Definition save_presets {lib : JsonLib}
    (presets : gmap string (gmap string json)) (d : disk lib)
  : io_result (disk lib) :=
  if negb (parent_ok d) then Fails OSError
  else
    text ← dumps lib (JObject (JObject <$> presets));
    if writable d
    then Returns {| at_path := Utf8 text;
                    readable := readable d;
                    parent_ok := parent_ok d;
                    writable := writable d |}
    else Fails OSError.

Definition upsert_preset {lib : JsonLib} (name : string)
    (payload : gmap string json) (d : disk lib) : io_result (disk lib) :=
  presets ← load_presets d;
  save_presets (<[name := payload]> presets) d.

Definition delete_preset {lib : JsonLib} (name : string) (d : disk lib)
  : io_result (bool * disk lib) :=
  presets ← load_presets d;
  match presets !! name with
  | None => Returns (false, d)
  | Some _ =>
      d' ← save_presets (delete name presets) d;
      Returns (true, d')
  end.

(** ** Vocabulary of the statements *)

(** A string that does not begin with whitespace. *)
Definition starts_clean (s : list ascii) : Prop :=
  match s with
  | c :: _ => PyStr.is_space c = false
  | [] => True
  end.

Definition ends_clean (s : list ascii) : Prop := starts_clean (rev s).

(** The positions of [text_values] that hold the text [t], ascending. *)
Definition positions_of (t : string) (text_values : list string) : list nat :=
  filter (λ i, text_values !! i = Some t) (seq 0 (length text_values)).

(** The candidate set of a text: the union, over the tokens of the
    text, of the posting sets of the token index. *)
Definition token_candidates (token_index : gmap string (gset nat))
    (text : string) : gset nat :=
  ⋃ (map (λ token, default ∅ (token_index !! token)) (PyStr.split text)).

(** The row made from a left record and, when there is one, a right
    record: the fields both loops write before anything else. *)
Definition merged_row (lrec : dict scalar) (rrec : option (dict scalar))
    (right_output_cols : list string) : dict obj :=
  let row := set_prefixed "Left_" lrec [] in
  match rrec with
  | Some r => set_prefixed "Right_" r row
  | None => set_missing "Right_" right_output_cols row
  end.

(** The record of row [i] of selected columns. *)
Definition record_at (cols : list (string * (nat → scalar))) (i : nat)
  : dict scalar :=
  fold_left (λ d cf, dict_set cf.1 (cf.2 i) d) cols [].

(** The calls a loop makes to the callback while it handles the rows
    from [first] on, [count] of them. *)
Definition ticks (progress_callback : bool) (progress_update_every : Z)
    (total_rows first count : nat) : list (nat * nat) :=
  if progress_callback
  then map (λ done_rows, (done_rows, total_rows))
         (filter (λ done_rows,
                    Z.modulo (Z.of_nat done_rows) progress_update_every = 0%Z
                    ∨ done_rows = total_rows)
            (seq (S first) count))
  else [].

(** The output row of a left row that is kept, from what was decided
    for it. *)
Definition scored_row (rt : Runtime)
    (left_output_records right_output_records : list (dict scalar))
    (right_output_cols : list string) (threshold : Q)
    (left_pos : nat) (d : decision) : dict obj :=
  let matched := is_matched threshold d in
  let rrec := if matched
              then best_right_pos d ≫= λ p, right_output_records !! p
              else None in
  dict_set "Match_Status" (Text (if matched then "Matched" else "No match"))
    (dict_set "Similarity_Score" (Float (round rt (best_score d) 4))
       (merged_row (default [] (left_output_records !! left_pos)) rrec
          right_output_cols)).

(** The state of the similarity loop of a run of [run_matching] after
    its first [k] left rows. *)
Definition matching_prefix (rt : Runtime) (left_df right_df : DataFrame)
    (left_output_cols right_output_cols : list string)
    (left_match_cols right_match_cols : list string)
    (threshold : Q) (include_unmatched prefer_rapidfuzz progress_callback : bool)
    (progress_update_every : option Z) (k : nat) : result loop_state :=
  left_text ← combine_columns left_df left_match_cols;
  right_text ← combine_columns right_df right_match_cols;
  left_cols ← df_select left_df left_output_cols;
  right_cols ← df_select right_df right_output_cols;
  left_text_values ← tolist left_text;
  right_text_values ← tolist right_text;
  similarity_prefix rt left_text_values right_text_values
    (to_records (df_len left_df) left_cols)
    (to_records (df_len right_df) right_cols) right_output_cols
    threshold include_unmatched prefer_rapidfuzz progress_callback
    progress_update_every k.

(** The match status of left row [i], read from a result: Matched when
    a best position exists and the best score reaches the threshold. *)
Definition row_matched (res : MatchResult) (threshold : Q) (i : nat) : bool :=
  match best_positions res !! i, best_scores res !! i with
  | Some (Some _), Some s => Qle_bool threshold s
  | _, _ => false
  end.

(** The row of the positional merge for left row [i]. *)
Definition positional_row (lsel rsel : list (string * (nat → scalar)))
    (right_len : nat) (right_output_cols : list string) (i : nat) : dict obj :=
  merged_row (record_at lsel i)
    (if decide (i < right_len) then Some (record_at rsel i) else None)
    right_output_cols.

(** Some column of [cols] holds a value in row [i] of the frame. *)
Definition holds_value (df : DataFrame) (cols : list string) (i : nat) : bool :=
  existsb (λ c, match df_column df c with
                | Ok f => match f i with NA => false | Val _ => true end
                | Raise _ => false
                end)
    cols.

(** ** Sample inputs *)

(** A runtime without rapidfuzz: equal texts score 1, others 1/2; sets
    are iterated in the order of [elements]. *)
Definition sample_runtime : Runtime :=
  {| rapidfuzz_available := false;
     rapidfuzz_ratio := λ _ _, 0%Q;
     difflib_ratio := λ a b, if decide (a = b) then 1%Q else (1 # 2)%Q;
     float_div := Qdiv;
     round := λ q _, q;
     set_iter := elements |}.

Definition sample_left : DataFrame :=
  {| df_len := 3;
     df_columns :=
       {[ "name" := λ i, match i with
                         | 0 => Val "ABC "
                         | 1 => NA
                         | _ => Val "abc x"
                         end;
          "id" := λ i, Val (match i with 0 => "1" | 1 => "2" | _ => "3" end) ]} |}.

Definition sample_right : DataFrame :=
  {| df_len := 2;
     df_columns :=
       {[ "name" := λ i, match i with 0 => Val "abc" | _ => NA end;
          "city" := λ i, match i with 0 => Val "Lyon" | _ => Val "Oslo" end ]} |}.

(** The right sample without its rows. *)
Definition sample_no_rows : DataFrame :=
  {| df_len := 0; df_columns := df_columns sample_right |}.

(** A run with similarity and a run without, over the samples. *)
Definition sample_similarity_run : result (MatchResult * list (nat * nat)) :=
  run_matching sample_runtime sample_left sample_right ["id"] ["city"]
    ["name"] ["name"] (1 # 2)%Q true true true None.

Definition sample_positional_run : result (MatchResult * list (nat * nat)) :=
  run_matching sample_runtime sample_left sample_right ["id"] ["city"]
    [] ["name"] (1 # 2)%Q true true true None.

(** What the two runs return. *)
Definition sample_similarity_result : MatchResult :=
  {| result_df :=
       [[("Left_id", Cell (Val "1")); ("Right_city", Cell (Val "Lyon"));
         ("Similarity_Score", Float 1%Q); ("Match_Status", Text "Matched")];
        [("Left_id", Cell (Val "2")); ("Right_city", Cell NA);
         ("Similarity_Score", Float 0%Q); ("Match_Status", Text "No match")];
        [("Left_id", Cell (Val "3")); ("Right_city", Cell (Val "Lyon"));
         ("Similarity_Score", Float (1 # 2)%Q); ("Match_Status", Text "Matched")]];
     best_scores := [1%Q; 0%Q; (1 # 2)%Q];
     best_positions := [Some 0; None; Some 0];
     left_text := ["abc"; ""; "abc x"];
     right_text := ["abc"; ""];
     similarity_enabled := true;
     similarity_engine := "difflib";
     exact_match_count := 1;
     candidate_comparisons := 1;
     left_match_columns_used := ["name"];
     right_match_columns_used := ["name"] |}.

Definition sample_positional_result : MatchResult :=
  {| result_df :=
       [[("Left_id", Cell (Val "1")); ("Right_city", Cell (Val "Lyon"))];
        [("Left_id", Cell (Val "2")); ("Right_city", Cell (Val "Oslo"))];
        [("Left_id", Cell (Val "3")); ("Right_city", Cell NA)]];
     best_scores := [];
     best_positions := [];
     left_text := [""; ""; ""];
     right_text := [""; ""];
     similarity_enabled := false;
     similarity_engine := "disabled";
     exact_match_count := 0;
     candidate_comparisons := 0;
     left_match_columns_used := [];
     right_match_columns_used := [] |}.

Definition sample_calls : list (nat * nat) := [(0, 3); (1, 3); (2, 3); (3, 3)].

(** A float addition for the samples. *)
Definition sample_float_add : Q → Q → Q := Qplus.

(** A [json] module whose text is the value itself, and a disk with a
    preset file that holds one preset and one entry that is none. *)
Definition sample_lib : JsonLib :=
  {| json_text := json; dumps := Returns; loads := Returns |}.

Definition sample_payload : gmap string json :=
  {[ "threshold" := JFloat (Finite (3 # 4)%Q) ]}.

Definition sample_disk : disk sample_lib :=
  {| at_path := Utf8 (JObject {[ "fast" := JObject sample_payload;
                                 "note" := JString "x" ]} : json_text sample_lib);
     readable := true;
     parent_ok := true;
     writable := true |}.

(** The code points of a text of code points below 256. *)
Definition codepoints (s : string) : list N :=
  map N_of_ascii (list_ascii_of_string s).

Definition unicode_scalar (x : scalar) : Unicode.scalar :=
  match x with
  | NA => Unicode.NA
  | Val s => Unicode.Val (codepoints s)
  end.

(** [str.lower] on texts of code points below 256, by the table of
    [PyStr.lower_char]; a code point from 256 on is left alone. *)
Definition latin1_lower_char (c : N) : N :=
  if (c <? 256)%N then N_of_ascii (PyStr.lower_char (ascii_of_N c)) else c.

Definition latin1_lower (s : list N) : list N := map latin1_lower_char s.

(** A value over all code points: an em space, "A", a space, a tab,
    "É" and a no-break space. *)
Definition sample_scalar : Unicode.scalar :=
  Unicode.Val [8195; 65; 32; 9; 201; 160]%N.

(** * Properties *)

(** ** Normalization *)

Section Normalization.
Import PyStr.

Lemma is_space_lower_char c : is_space (lower_char c) = is_space c.
Proof. destruct c as [[] [] [] [] [] [] [] []]; reflexivity. Qed.

Lemma lower_char_idem c : lower_char (lower_char c) = lower_char c.
Proof. destruct c as [[] [] [] [] [] [] [] []]; reflexivity. Qed.

Lemma lstrip_starts_clean s : starts_clean (lstrip s).
Proof.
  induction s as [|c r IH]; simpl; [exact I|].
  destruct (is_space c) eqn:E; [exact IH | exact E].
Qed.

Lemma lstrip_clean s : starts_clean s → lstrip s = s.
Proof. destruct s as [|c r]; simpl; [reflexivity|]. intros ->. reflexivity. Qed.

Lemma lstrip_snoc s c :
  is_space c = false → lstrip (s ++ [c]) = (lstrip s ++ [c])%list.
Proof.
  intros Hc. induction s as [|d r IH]; simpl.
  - rewrite Hc. reflexivity.
  - destruct (is_space d); [exact IH | reflexivity].
Qed.

Lemma rstrip_ends_clean s : ends_clean (rstrip s).
Proof.
  unfold ends_clean, rstrip. rewrite rev_involutive. apply lstrip_starts_clean.
Qed.

Lemma rstrip_clean s : ends_clean s → rstrip s = s.
Proof.
  unfold ends_clean, rstrip. intros H.
  rewrite (lstrip_clean _ H). apply rev_involutive.
Qed.

Lemma rstrip_starts_clean s : starts_clean s → starts_clean (rstrip s).
Proof.
  destruct s as [|c r]; [intros _; exact I|]. simpl. intros Hc.
  unfold rstrip. simpl. rewrite (lstrip_snoc _ _ Hc), rev_app_distr.
  simpl. exact Hc.
Qed.

Lemma strip_starts_clean s : starts_clean (strip s).
Proof. apply rstrip_starts_clean, lstrip_starts_clean. Qed.

Lemma strip_ends_clean s : ends_clean (strip s).
Proof. apply rstrip_ends_clean. Qed.

Lemma strip_clean s : starts_clean s → ends_clean s → strip s = s.
Proof.
  intros H1 H2. unfold strip. rewrite (lstrip_clean _ H1).
  apply rstrip_clean, H2.
Qed.

Lemma lower_starts_clean s : starts_clean s → starts_clean (lower s).
Proof.
  destruct s as [|c r]; simpl; [tauto|]. now rewrite is_space_lower_char.
Qed.

Lemma lower_ends_clean s : ends_clean s → ends_clean (lower s).
Proof.
  unfold ends_clean, lower. rewrite <- map_rev. apply lower_starts_clean.
Qed.

Lemma sub_spaces_starts_clean s :
  starts_clean s → starts_clean (sub_spaces false s).
Proof. destruct s as [|c r]; simpl; [tauto|]. intros Hc. now rewrite Hc. Qed.

Lemma sub_spaces_snoc b s c :
  is_space c = false → sub_spaces b (s ++ [c]) = (sub_spaces b s ++ [c])%list.
Proof.
  intros Hc. revert b. induction s as [|d r IH]; intros b; simpl.
  - now rewrite Hc.
  - destruct (is_space d); [destruct b|]; now rewrite IH.
Qed.

Lemma sub_spaces_ends_clean b s : ends_clean s → ends_clean (sub_spaces b s).
Proof.
  unfold ends_clean. destruct s as [|c r _] using rev_ind; [destruct b; tauto|].
  rewrite rev_app_distr. simpl. intros Hc.
  rewrite (sub_spaces_snoc _ _ _ Hc), rev_app_distr. simpl. exact Hc.
Qed.

Lemma sub_spaces_idem b s : sub_spaces b (sub_spaces b s) = sub_spaces b s.
Proof.
  revert b. induction s as [|c r IH]; intros b; simpl; [reflexivity|].
  destruct (is_space c) eqn:E.
  - destruct b; [apply IH|]. simpl. now rewrite IH.
  - simpl. now rewrite E, IH.
Qed.

Lemma lower_sub_spaces b s :
  lower (sub_spaces b (lower s)) = sub_spaces b (lower s).
Proof.
  revert b. induction s as [|c r IH]; intros b; simpl; [reflexivity|].
  rewrite is_space_lower_char. destruct (is_space c).
  - destruct b; [apply IH|]. simpl. f_equal. apply IH.
  - simpl. rewrite lower_char_idem. f_equal. apply IH.
Qed.

(** The text of a normalized value is left alone by every stage of
    the normalization. *)
Lemma normal_form_fixed s :
  let r := sub_spaces false (lower (strip s)) in
  sub_spaces false (lower (strip r)) = r.
Proof.
  intros r.
  assert (Hs : starts_clean r).
  { apply sub_spaces_starts_clean, lower_starts_clean, strip_starts_clean. }
  assert (He : ends_clean r).
  { apply sub_spaces_ends_clean, lower_ends_clean, strip_ends_clean. }
  rewrite (strip_clean _ Hs He). unfold r.
  rewrite lower_sub_spaces. apply sub_spaces_idem.
Qed.

End Normalization.

(** ** Normalization over all code points *)

Section UnicodeNormalization.
Import Unicode.

Lemma space_ind (P : list N → Prop) :
  (∀ w, solid w → P w) →
  (∀ w c r, solid w → is_space c = true → P r → P (w ++ c :: r)%list) →
  ∀ s, P s.
Proof.
  intros Hw Hs s. change s with ([] ++ s)%list.
  assert (H : solid []) by constructor. revert H. generalize (@nil N) as w.
  induction s as [|c r IH]; intros w Hsolid.
  - rewrite app_nil_r. now apply Hw.
  - destruct (is_space c) eqn:E.
    + apply Hs; [exact Hsolid | exact E|]. apply (IH []). constructor.
    + replace (w ++ c :: r)%list with ((w ++ [c]) ++ r)%list
        by now rewrite <- app_assoc.
      apply IH. apply Forall_app. split; [exact Hsolid|]. now constructor.
Qed.

Lemma solid_rev w : solid w → solid (rev w).
Proof. unfold solid. intros H. now apply Forall_rev. Qed.

Lemma space_rind (P : list N → Prop) :
  (∀ w, solid w → P w) →
  (∀ r c w, solid w → is_space c = true → P r → P (r ++ c :: w)%list) →
  ∀ s, P s.
Proof.
  intros Hw Hs s. rewrite <- (rev_involutive s).
  induction (rev s) as [w H|w c r H Hc IH] using space_ind.
  - apply Hw. now apply solid_rev.
  - rewrite rev_app_distr. simpl. rewrite <- app_assoc. simpl.
    apply Hs; [now apply solid_rev | exact Hc | exact IH].
Qed.

Lemma app_space_inj (a a' : list N) (c c' : N) (r r' : list N) :
  solid a → solid a' → is_space c = true → is_space c' = true →
  (a ++ c :: r)%list = (a' ++ c' :: r')%list → a = a' ∧ c = c' ∧ r = r'.
Proof.
  intros Ha. revert a'. induction Ha as [|x y Hx _ IH]; intros a' Ha' Hc Hc' E.
  - destruct Ha' as [|x' y' Hx' _]; simpl in E.
    + now injection E as -> ->.
    + injection E as -> _. congruence.
  - destruct Ha' as [|x' y' Hx' Hy']; simpl in E.
    + injection E as -> _. congruence.
    + injection E as -> E. destruct (IH _ Hy' Hc Hc' E) as (-> & -> & ->).
      now repeat split.
Qed.

Lemma ends_clean_app_solid (x w : list N) :
  solid w → w ≠ [] → ends_clean (x ++ w).
Proof.
  intros Hw Hne. unfold ends_clean. rewrite rev_app_distr.
  pose proof (solid_rev _ Hw) as H.
  destruct (rev w) as [|c r] eqn:E.
  - apply (f_equal (@length N)) in E. rewrite length_rev in E.
    destruct w; [contradiction | discriminate E].
  - simpl. now inversion H.
Qed.

Lemma u_starts_clean_head s c : starts_clean s → head s = Some c → is_space c = false.
Proof. destruct s; simpl; [discriminate|]. now intros H [= <-]. Qed.

Lemma u_ends_clean_last s c : ends_clean s → last s = Some c → is_space c = false.
Proof.
  unfold ends_clean. destruct s as [|d r _] using rev_ind; [discriminate|].
  rewrite rev_app_distr, last_snoc. simpl. intros H [= <-]. exact H.
Qed.

(** *** Stripping *)

Lemma u_lstrip_starts_clean s : starts_clean (lstrip s).
Proof.
  induction s as [|c r IH]; simpl; [exact I|].
  destruct (is_space c) eqn:E; [exact IH | exact E].
Qed.

Lemma u_lstrip_clean s : starts_clean s → lstrip s = s.
Proof. destruct s as [|c r]; simpl; [reflexivity|]. intros ->. reflexivity. Qed.

Lemma u_lstrip_snoc s c :
  is_space c = false → lstrip (s ++ [c]) = (lstrip s ++ [c])%list.
Proof.
  intros Hc. induction s as [|d r IH]; simpl.
  - rewrite Hc. reflexivity.
  - destruct (is_space d); [exact IH | reflexivity].
Qed.

Lemma u_rstrip_ends_clean s : ends_clean (rstrip s).
Proof.
  unfold ends_clean, rstrip. rewrite rev_involutive. apply u_lstrip_starts_clean.
Qed.

Lemma u_rstrip_clean s : ends_clean s → rstrip s = s.
Proof.
  unfold ends_clean, rstrip. intros H.
  rewrite (u_lstrip_clean _ H). apply rev_involutive.
Qed.

Lemma u_rstrip_starts_clean s : starts_clean s → starts_clean (rstrip s).
Proof.
  destruct s as [|c r]; [intros _; exact I|]. simpl. intros Hc.
  unfold rstrip. simpl. rewrite (u_lstrip_snoc _ _ Hc), rev_app_distr.
  simpl. exact Hc.
Qed.

Lemma u_strip_starts_clean s : starts_clean (strip s).
Proof. apply u_rstrip_starts_clean, u_lstrip_starts_clean. Qed.

Lemma u_strip_ends_clean s : ends_clean (strip s).
Proof. apply u_rstrip_ends_clean. Qed.

Lemma u_strip_clean s : starts_clean s → ends_clean s → strip s = s.
Proof.
  intros H1 H2. unfold strip. rewrite (u_lstrip_clean _ H1).
  apply u_rstrip_clean, H2.
Qed.

Lemma u_rstrip_snoc_space s c : is_space c = true → rstrip (s ++ [c]) = rstrip s.
Proof.
  intros Hc. unfold rstrip. rewrite rev_app_distr. simpl. now rewrite Hc.
Qed.

Lemma u_rstrip_snoc_solid s c :
  is_space c = false → rstrip (s ++ [c]) = (s ++ [c])%list.
Proof.
  intros Hc. apply u_rstrip_clean. unfold ends_clean.
  rewrite rev_app_distr. exact Hc.
Qed.

(** *** The substitution *)

Lemma u_sub_spaces_starts_clean s :
  starts_clean s → starts_clean (sub_spaces false s).
Proof. destruct s as [|c r]; simpl; [tauto|]. intros Hc. now rewrite Hc. Qed.

Lemma u_sub_spaces_snoc b s c :
  is_space c = false → sub_spaces b (s ++ [c]) = (sub_spaces b s ++ [c])%list.
Proof.
  intros Hc. revert b. induction s as [|d r IH]; intros b; simpl.
  - now rewrite Hc.
  - destruct (is_space d); [destruct b|]; now rewrite IH.
Qed.

Lemma u_sub_spaces_ends_clean b s : ends_clean s → ends_clean (sub_spaces b s).
Proof.
  unfold ends_clean. destruct s as [|c r _] using rev_ind; [destruct b; tauto|].
  rewrite rev_app_distr. simpl. intros Hc.
  rewrite (u_sub_spaces_snoc _ _ _ Hc), rev_app_distr. simpl. exact Hc.
Qed.

Lemma u_sub_spaces_idem b s : sub_spaces b (sub_spaces b s) = sub_spaces b s.
Proof.
  revert b. induction s as [|c r IH]; intros b; simpl; [reflexivity|].
  destruct (is_space c) eqn:E.
  - destruct b; [apply IH|]. simpl. now rewrite IH.
  - simpl. now rewrite E, IH.
Qed.

Lemma u_sub_spaces_solid b w : solid w → sub_spaces b w = w.
Proof.
  intros H. revert b. induction H as [|c r Hc _ IH]; intros b; simpl;
    [reflexivity|]. now rewrite Hc, IH.
Qed.

Lemma u_sub_spaces_app b w x :
  solid w →
  sub_spaces b (w ++ x) = (w ++ sub_spaces (match w with [] => b | _ => false end) x)%list.
Proof.
  intros H. revert b. induction H as [|c r Hc _ IH]; intros b; simpl;
    [reflexivity|]. rewrite Hc, IH. destruct r; reflexivity.
Qed.

Lemma u_sub_spaces_true_clean s : starts_clean (sub_spaces true s).
Proof.
  induction s as [|c r IH]; simpl; [exact I|].
  destruct (is_space c) eqn:E; [exact IH | exact E].
Qed.

Lemma u_sub_spaces_only_space b s c :
  c ∈ sub_spaces b s → is_space c = true → c = 32%N.
Proof.
  revert b. induction s as [|d r IH]; intros b; simpl.
  - intros H. now apply elem_of_nil in H.
  - destruct (is_space d) eqn:E.
    + destruct b; [apply IH|]. intros H Hc.
      apply elem_of_cons in H as [->|H]; [reflexivity | exact (IH _ H Hc)].
    + intros H Hc. apply elem_of_cons in H as [->|H]; [congruence|].
      exact (IH _ H Hc).
Qed.

Lemma u_sub_spaces_no_adjacent b s i c d :
  sub_spaces b s !! i = Some c → sub_spaces b s !! S i = Some d →
  is_space c = true → is_space d = false.
Proof.
  revert b i. induction s as [|e r IH]; intros b i; simpl; [discriminate|].
  destruct (is_space e) eqn:E.
  - destruct b; [apply IH|]. destruct i as [|i]; simpl.
    + intros _ Hd _. pose proof (u_sub_spaces_true_clean r) as Hcl.
      destruct (sub_spaces true r) as [|x y]; [discriminate|].
      injection Hd as <-. exact Hcl.
    + apply IH.
  - destruct i as [|i]; simpl.
    + intros [= <-] _ Hc. congruence.
    + apply IH.
Qed.

(** *** Splitting *)

Lemma u_split_from_app cur w x :
  solid w → split_from cur (w ++ x) = split_from (rev w ++ cur) x.
Proof.
  intros H. revert cur. induction H as [|c r Hc _ IH]; intros cur; simpl;
    [reflexivity|]. rewrite Hc, IH. now rewrite <- app_assoc.
Qed.

Lemma u_split_solid w : solid w → split w = match w with [] => [] | _ => [w] end.
Proof.
  intros H. unfold split. rewrite <- (app_nil_r w) at 1.
  rewrite (u_split_from_app _ _ _ H), app_nil_r. simpl.
  destruct w as [|c r]; [reflexivity|].
  destruct (rev (c :: r)) as [|x y] eqn:E.
  - apply (f_equal (@length N)) in E. rewrite length_rev in E. discriminate E.
  - rewrite <- E, rev_involutive. reflexivity.
Qed.

Lemma u_split_space w c r :
  solid w → is_space c = true →
  split (w ++ c :: r) = (match w with [] => [] | _ => [w] end ++ split r)%list.
Proof.
  intros H Hc. unfold split. rewrite (u_split_from_app _ _ _ H), app_nil_r.
  simpl. rewrite Hc. destruct w as [|d y]; [reflexivity|].
  destruct (rev (d :: y)) as [|x z] eqn:E.
  - apply (f_equal (@length N)) in E. rewrite length_rev in E. discriminate E.
  - rewrite <- E, rev_involutive. reflexivity.
Qed.

Lemma u_split_sub_spaces b cur s :
  (b = true → cur = []) →
  split_from cur (sub_spaces b s) = split_from cur s.
Proof.
  revert b cur. induction s as [|c r IH]; intros b cur Hb; simpl; [reflexivity|].
  destruct (is_space c) eqn:E.
  - destruct b.
    + rewrite (Hb eq_refl). now apply IH.
    + simpl. rewrite (IH true []) by reflexivity. reflexivity.
  - simpl. rewrite E. apply IH. discriminate.
Qed.

Lemma u_split_lstrip s : split (lstrip s) = split s.
Proof.
  unfold split. induction s as [|c r IH]; simpl; [reflexivity|].
  destruct (is_space c) eqn:E; [exact IH|]. simpl. now rewrite E.
Qed.

Lemma u_split_from_snoc_space cur s c :
  is_space c = true → split_from cur (s ++ [c]) = split_from cur s.
Proof.
  intros Hc. revert cur. induction s as [|d r IH]; intros cur; simpl.
  - rewrite Hc. destruct cur; reflexivity.
  - destruct (is_space d); [destruct cur|]; now rewrite IH.
Qed.

Lemma u_split_rstrip s : split (rstrip s) = split s.
Proof.
  induction s as [|c r IH] using rev_ind; [reflexivity|].
  destruct (is_space c) eqn:E.
  - rewrite (u_rstrip_snoc_space _ _ E), IH. unfold split.
    now rewrite (u_split_from_snoc_space _ _ _ E).
  - now rewrite (u_rstrip_snoc_solid _ _ E).
Qed.

Lemma u_split_strip s : split (strip s) = split s.
Proof. unfold strip. now rewrite u_split_rstrip, u_split_lstrip. Qed.

(** *** Lower-casing *)

Section Lower.
Variable lower : list N → list N.
Hypothesis Hlower : str_lower_ok lower.

Lemma lower_solid w : solid w → solid (lower w).
Proof using Hlower.
  intros H. destruct w as [|c r].
  - rewrite (lower_nil _ Hlower). constructor.
  - now apply (lower_word _ Hlower).
Qed.

Lemma lower_solid_nil w : solid w → lower w = [] ↔ w = [].
Proof using Hlower.
  intros H. split.
  - intros E. destruct w as [|c r]; [reflexivity|].
    destruct (lower_word _ Hlower (c :: r) H) as [_ Hne]; [discriminate|].
    contradiction.
  - intros ->. apply (lower_nil _ Hlower).
Qed.

Lemma lower_wrap w :
  solid w →
  match lower w with [] => [] | _ => [lower w] end
  = map lower (match w with [] => [] | _ => [w] end).
Proof using Hlower.
  intros Hw. destruct w as [|d y].
  - rewrite (lower_nil _ Hlower). reflexivity.
  - destruct (lower_word _ Hlower (d :: y) Hw) as [_ Hne]; [discriminate|].
    simpl. destruct (lower (d :: y)); [contradiction | reflexivity].
Qed.

Lemma u_split_lower s : split (lower s) = map lower (split s).
Proof using Hlower.
  induction s as [w Hw|w c r Hw Hc IH] using space_ind.
  - rewrite (u_split_solid _ (lower_solid _ Hw)), (u_split_solid _ Hw).
    now apply lower_wrap.
  - rewrite (lower_space _ Hlower _ _ _ Hc).
    rewrite (u_split_space _ _ _ (lower_solid _ Hw) Hc), (u_split_space _ _ _ Hw Hc).
    rewrite map_app, IH. f_equal. now apply lower_wrap.
Qed.

Lemma lower_starts_clean_u s : starts_clean s → starts_clean (lower s).
Proof using Hlower.
  induction s as [w Hw|w c r Hw Hc IH] using space_ind.
  - intros _. pose proof (lower_solid _ Hw) as H.
    destruct (lower w) as [|x z]; [exact I|]. now inversion H.
  - intros Hs. rewrite (lower_space _ Hlower _ _ _ Hc).
    destruct w as [|d y]; [simpl in Hs; congruence|].
    destruct (lower_word _ Hlower (d :: y) Hw) as [H Hne]; [discriminate|].
    destruct (lower (d :: y)) as [|x z]; [contradiction|]. now inversion H.
Qed.

Lemma lower_ends_clean_u s : ends_clean s → ends_clean (lower s).
Proof using Hlower.
  induction s as [w Hw|r c w Hw Hc IH] using space_rind.
  - intros _. unfold ends_clean.
    pose proof (solid_rev _ (lower_solid _ Hw)) as H.
    destruct (rev (lower w)) as [|x z]; [exact I|]. now inversion H.
  - intros Hs. rewrite (lower_space _ Hlower _ _ _ Hc).
    destruct w as [|d y].
    + unfold ends_clean in Hs. rewrite rev_app_distr in Hs. simpl in Hs.
      congruence.
    + destruct (lower_word _ Hlower (d :: y) Hw) as [H Hne]; [discriminate|].
      replace (lower r ++ c :: lower (d :: y))%list
        with ((lower r ++ [c]) ++ lower (d :: y))%list
        by now rewrite <- app_assoc.
      now apply ends_clean_app_solid.
Qed.

(** A text that lower-casing leaves alone is left alone after the
    substitution too. *)
Lemma lower_sub_spaces_fixed s :
  ∀ b, lower s = s → lower (sub_spaces b s) = sub_spaces b s.
Proof using Hlower.
  induction s as [w Hw|w c r Hw Hc IH] using space_ind; intros b Hfix.
  - now rewrite (u_sub_spaces_solid _ _ Hw).
  - rewrite (lower_space _ Hlower _ _ _ Hc) in Hfix.
    apply (app_space_inj _ _ _ _ _ _ (lower_solid _ Hw) Hw Hc Hc) in Hfix
      as (Hwfix & _ & Hrfix).
    rewrite (u_sub_spaces_app _ _ _ Hw). simpl. rewrite Hc.
    destruct w as [|d y].
    + simpl. destruct b; [now apply IH|].
      change (32%N :: sub_spaces true r) with ([] ++ 32%N :: sub_spaces true r)%list.
      rewrite (lower_space _ Hlower [] 32%N _ eq_refl), (lower_nil _ Hlower).
      simpl. f_equal. now apply IH.
    + rewrite (lower_space _ Hlower (d :: y) 32%N _ eq_refl), Hwfix.
      f_equal. f_equal. now apply IH.
Qed.

End Lower.

(** C8: normalization is idempotent, for every value and whatever
    [str.lower] does within what is known of it: normalizing the text
    that [normalize_text] returned gives that text again.  A missing
    value is mapped to the empty text.  For any other value the text
    returned has the words of the lower-cased [str()] text, in order,
    which are the lower-cased words of that text; it neither begins nor
    ends with whitespace, is left alone by [str.lower], holds no
    whitespace but the space, and no space right after a space. *)
Theorem normalize_text_idempotent (lower : list N → list N)
    (x : Unicode.scalar) :
  str_lower_ok lower →
  let text := Unicode.normalize_text lower x in
  Unicode.normalize_text lower (Unicode.Val text) = text
  ∧ (x = Unicode.NA → text = [])
  ∧ (∀ s, x = Unicode.Val s →
          split text = split (lower s)
          ∧ split text = map lower (split s))
  ∧ (∀ c, head text = Some c → is_space c = false)
  ∧ (∀ c, last text = Some c → is_space c = false)
  ∧ lower text = text
  ∧ (∀ c, c ∈ text → is_space c = true → c = 32%N)
  ∧ (∀ i c d, text !! i = Some c → text !! S i = Some d →
              is_space c = true → is_space d = false).
Proof.
  intros Hlower text. destruct x as [|s]; unfold text; simpl.
  - change (strip []) with (@nil N). rewrite (lower_nil _ Hlower). simpl.
    split; [reflexivity|]. split; [reflexivity|]. split; [discriminate|].
    split; [discriminate|]. split; [discriminate|].
    split; [reflexivity|]. split; [|discriminate].
    intros c H. now apply elem_of_nil in H.
  - set (t := strip s).
    assert (Hs : starts_clean (sub_spaces false (lower t))).
    { apply u_sub_spaces_starts_clean, (lower_starts_clean_u _ Hlower),
        u_strip_starts_clean. }
    assert (He : ends_clean (sub_spaces false (lower t))).
    { apply u_sub_spaces_ends_clean, (lower_ends_clean_u _ Hlower),
        u_strip_ends_clean. }
    assert (Hfix : lower (sub_spaces false (lower t)) = sub_spaces false (lower t)).
    { apply (lower_sub_spaces_fixed _ Hlower), (lower_lower _ Hlower). }
    assert (Hwords : split (sub_spaces false (lower t)) = map lower (split s)).
    { unfold split at 1. rewrite u_split_sub_spaces by discriminate.
      fold (split (lower t)). rewrite (u_split_lower _ Hlower). unfold t.
      now rewrite u_split_strip. }
    split; [|split; [|split; [|split; [|split; [|split; [|split]]]]]].
    + rewrite (u_strip_clean _ Hs He), Hfix. apply u_sub_spaces_idem.
    + discriminate.
    + intros s' [= <-]. split; [|exact Hwords].
      now rewrite (u_split_lower _ Hlower).
    + intros c. now apply u_starts_clean_head.
    + intros c. now apply u_ends_clean_last.
    + exact Hfix.
    + apply u_sub_spaces_only_space.
    + apply u_sub_spaces_no_adjacent.
Qed.

End UnicodeNormalization.

(** ** The texts of code points below 256 *)

Section Latin1.

Lemma is_space_N_of_ascii (a : ascii) :
  Unicode.is_space (N_of_ascii a) = PyStr.is_space a.
Proof. destruct a as [[] [] [] [] [] [] [] []]; reflexivity. Qed.

Lemma lower_char_space (a : ascii) :
  PyStr.is_space a = true → PyStr.lower_char a = a.
Proof. destruct a as [[] [] [] [] [] [] [] []]; (reflexivity || discriminate). Qed.

Lemma latin1_lower_char_ascii (a : ascii) :
  latin1_lower_char (N_of_ascii a) = N_of_ascii (PyStr.lower_char a).
Proof.
  unfold latin1_lower_char.
  rewrite (proj2 (N.ltb_lt _ _) (N_ascii_bounded a)), ascii_N_embedding.
  reflexivity.
Qed.

Lemma latin1_lower_char_cases (c : N) :
  (∃ a, c = N_of_ascii a) ∨ ((256 <= c)%N ∧ latin1_lower_char c = c).
Proof.
  destruct (N.ltb_spec c 256) as [Hlt|Hge].
  - left. exists (ascii_of_N c). now rewrite N_ascii_embedding.
  - right. split; [exact Hge|]. unfold latin1_lower_char.
    now rewrite (proj2 (N.ltb_ge _ _) Hge).
Qed.

Lemma is_space_latin1_lower_char (c : N) :
  Unicode.is_space (latin1_lower_char c) = Unicode.is_space c.
Proof.
  destruct (latin1_lower_char_cases c) as [[a ->]|[_ ->]]; [|reflexivity].
  now rewrite latin1_lower_char_ascii, !is_space_N_of_ascii,
    is_space_lower_char.
Qed.

Lemma latin1_lower_char_space (c : N) :
  Unicode.is_space c = true → latin1_lower_char c = c.
Proof.
  destruct (latin1_lower_char_cases c) as [[a ->]|[_ H]]; [|now intros _].
  rewrite is_space_N_of_ascii, latin1_lower_char_ascii. intros H.
  now rewrite (lower_char_space _ H).
Qed.

Lemma latin1_lower_char_idem (c : N) :
  latin1_lower_char (latin1_lower_char c) = latin1_lower_char c.
Proof.
  destruct (latin1_lower_char_cases c) as [[a ->]|[_ H]]; [|now rewrite !H].
  now rewrite !latin1_lower_char_ascii, lower_char_idem.
Qed.

Lemma latin1_lower_ok : Unicode.str_lower_ok latin1_lower.
Proof.
  split.
  - reflexivity.
  - intros a c b Hc. unfold latin1_lower. rewrite map_app. simpl.
    now rewrite (latin1_lower_char_space _ Hc).
  - intros w Hw Hne. split.
    + unfold Unicode.solid, latin1_lower. apply Forall_map.
      eapply Forall_impl; [exact Hw|]. intros c Hc. simpl.
      now rewrite is_space_latin1_lower_char.
    + destruct w; [contradiction | discriminate].
  - intros s. unfold latin1_lower. rewrite map_map. apply map_ext.
    apply latin1_lower_char_idem.
Qed.

Lemma codepoints_lstrip (l : list ascii) :
  map N_of_ascii (PyStr.lstrip l) = Unicode.lstrip (map N_of_ascii l).
Proof.
  induction l as [|a r IH]; simpl; [reflexivity|].
  rewrite is_space_N_of_ascii. destruct (PyStr.is_space a); [exact IH|reflexivity].
Qed.

Lemma codepoints_strip (l : list ascii) :
  map N_of_ascii (PyStr.strip l) = Unicode.strip (map N_of_ascii l).
Proof.
  unfold PyStr.strip, PyStr.rstrip, Unicode.strip, Unicode.rstrip.
  now rewrite map_rev, codepoints_lstrip, map_rev, codepoints_lstrip.
Qed.

Lemma codepoints_lower (l : list ascii) :
  map N_of_ascii (PyStr.lower l) = latin1_lower (map N_of_ascii l).
Proof.
  unfold PyStr.lower, latin1_lower. rewrite !map_map. apply map_ext.
  intros a. now rewrite latin1_lower_char_ascii.
Qed.

Lemma codepoints_sub_spaces (b : bool) (l : list ascii) :
  map N_of_ascii (PyStr.sub_spaces b l) = Unicode.sub_spaces b (map N_of_ascii l).
Proof.
  revert b. induction l as [|a r IH]; intros b; simpl; [reflexivity|].
  rewrite is_space_N_of_ascii. destruct (PyStr.is_space a).
  - destruct b; simpl; now rewrite IH.
  - simpl. now rewrite IH.
Qed.

(** On a text of code points below 256, [normalize_text] is the
    normalization over all code points. *)
Lemma normalize_text_latin1 (x : scalar) :
  codepoints (normalize_text x)
  = Unicode.normalize_text latin1_lower (unicode_scalar x).
Proof.
  destruct x as [|s]; [reflexivity|]. unfold normalize_text, codepoints. simpl.
  rewrite list_ascii_of_string_of_list_ascii.
  now rewrite codepoints_sub_spaces, codepoints_lower, codepoints_strip.
Qed.

End Latin1.

Lemma normalize_text_idempotent_witness :
  Unicode.str_lower_ok latin1_lower
  ∧ Unicode.normalize_text latin1_lower sample_scalar = [97; 32; 233]%N
  ∧ Unicode.normalize_text latin1_lower (Unicode.Val [97; 32; 233]%N)
    = [97; 32; 233]%N.
Proof.
  split; [exact latin1_lower_ok|]. split; [vm_compute; reflexivity|].
  exact (proj1 (normalize_text_idempotent latin1_lower sample_scalar
                  latin1_lower_ok)).
Defined.


(** ** Generic facts: loops, positions, dictionaries *)

Section Generic.

Lemma bind_Ok {A B : Type} (m : result A) (f : A → result B) (b : B) :
  m ≫= f = Ok b → ∃ a, m = Ok a ∧ f a = Ok b.
Proof. destruct m as [a|e]; simpl; [eauto | discriminate]. Qed.

Lemma foldM_app {A B : Type} (f : A → B → result A) (l1 l2 : list B) (a : A) :
  foldM f (l1 ++ l2) a = foldM f l1 a ≫= foldM f l2.
Proof.
  revert a. induction l1 as [|b r IH]; intros a; simpl; [reflexivity|].
  destruct (f a b) as [a'|e]; simpl; [apply IH | reflexivity].
Qed.

Lemma foldM_snoc {A B : Type} (f : A → B → result A) (l : list B) (b : B) (a : A) :
  foldM f (l ++ [b]) a = foldM f l a ≫= λ a', f a' b.
Proof.
  rewrite foldM_app. destruct (foldM f l a) as [a'|e]; simpl; [|reflexivity].
  destruct (f a' b); reflexivity.
Qed.

Lemma enumerate_snoc {A : Type} (l : list A) (x : A) :
  enumerate (l ++ [x]) = (enumerate l ++ [(length l, x)])%list.
Proof.
  unfold enumerate. rewrite imap_app. simpl. now rewrite Nat.add_0_r.
Qed.

Lemma enumerate_lookup {A : Type} (l : list A) (i : nat) (x : A) :
  l !! i = Some x → enumerate l !! i = Some (i, x).
Proof. intros H. unfold enumerate. now rewrite list_lookup_imap, H. Qed.

Lemma length_enumerate {A : Type} (l : list A) : length (enumerate l) = length l.
Proof. apply length_imap. Qed.

Lemma index_Ok {A : Type} (l : list A) (i : nat) (a : A) :
  index l i = Ok a ↔ l !! i = Some a.
Proof.
  unfold index. destruct (l !! i); split; intros H; congruence.
Qed.

Lemma index_lt {A : Type} (l : list A) (i : nat) :
  i < length l → ∃ a, index l i = Ok a ∧ l !! i = Some a.
Proof.
  intros H. destruct (lookup_lt_is_Some_2 l i H) as [a Ha].
  exists a. split; [now apply index_Ok | exact Ha].
Qed.

Lemma filter_ext_in {A : Type} (P Q : A → Prop)
    `{∀ x, Decision (P x)} `{∀ x, Decision (Q x)} (l : list A) :
  (∀ x, x ∈ l → P x ↔ Q x) → filter P l = filter Q l.
Proof.
  induction l as [|a r IH]; intros Hext; [reflexivity|].
  rewrite !filter_cons.
  assert (Ha : P a ↔ Q a) by (apply Hext; left).
  rewrite IH by (intros x Hx; apply Hext; now right).
  destruct (decide (P a)), (decide (Q a)); tauto.
Qed.

(** The first position of a range that passes a filter is the least
    member of the range that satisfies the predicate. *)
Lemma filter_seq_head (P : nat → Prop) `{∀ x, Decision (P x)} (a n p : nat) :
  head (filter P (seq a n)) = Some p →
  P p ∧ a ≤ p < a + n ∧ ∀ j, a ≤ j < p → ¬ P j.
Proof.
  revert a. induction n as [|n IH]; intros a; simpl; [discriminate|].
  rewrite filter_cons. destruct (decide (P a)) as [Ha|Ha]; simpl.
  - intros [= <-]. repeat split; [exact Ha | lia | lia | intros j Hj; lia].
  - intros Hp. destruct (IH _ Hp) as (HP & Hr & Hmin).
    repeat split; [exact HP | lia | lia |].
    intros j Hj. destruct (decide (j = a)) as [->|Hne]; [exact Ha|].
    apply Hmin. lia.
Qed.

End Generic.

(** ** The exact index *)

Section ExactIndex.

Lemma build_exact_index_snoc (l : list string) (x : string) :
  build_exact_index (l ++ [x]) =
  if decide (x = "") then build_exact_index l
  else <[x := (default [] (build_exact_index l !! x) ++ [length l])%list]>
         (build_exact_index l).
Proof.
  unfold build_exact_index. rewrite enumerate_snoc, fold_left_app. reflexivity.
Qed.

Lemma positions_of_snoc (t : string) (l : list string) (x : string) :
  positions_of t (l ++ [x]) =
  (positions_of t l ++ if decide (x = t) then [length l] else [])%list.
Proof.
  unfold positions_of. rewrite length_app. simpl.
  rewrite seq_app, filter_app. simpl. f_equal.
  - apply filter_ext_in. intros i Hi. apply elem_of_seq in Hi.
    rewrite lookup_app_l by lia. reflexivity.
  - rewrite filter_cons, filter_nil.
    rewrite list_lookup_middle by reflexivity.
    destruct (decide (Some x = Some t)) as [E|E], (decide (x = t)) as [E'|E'];
      congruence.
Qed.

Lemma exact_index_lookup (l : list string) (t : string) :
  build_exact_index l !! t =
  if decide (t = "") then None
  else match positions_of t l with [] => None | ps => Some ps end.
Proof.
  induction l as [|x l IH] using rev_ind.
  - unfold build_exact_index, positions_of. simpl. rewrite lookup_empty.
    destruct (decide (t = "")); reflexivity.
  - rewrite build_exact_index_snoc, positions_of_snoc.
    destruct (decide (x = "")) as [Hx|Hx].
    + rewrite IH. destruct (decide (t = "")) as [Ht|Ht]; [reflexivity|].
      destruct (decide (x = t)); [congruence|]. now rewrite app_nil_r.
    + destruct (decide (x = t)) as [->|Hne].
      * rewrite lookup_insert_eq, IH.
        destruct (decide (t = "")); [contradiction|].
        destruct (positions_of t l); reflexivity.
      * rewrite lookup_insert_ne by exact Hne. rewrite IH, app_nil_r.
        reflexivity.
Qed.

Lemma positions_of_elem (t : string) (l : list string) (p : nat) :
  p ∈ positions_of t l ↔ l !! p = Some t.
Proof.
  unfold positions_of. rewrite list_elem_of_filter, elem_of_seq.
  split; [tauto|]. intros H. split; [exact H|].
  apply lookup_lt_Some in H. lia.
Qed.

Lemma positions_of_head (t : string) (l : list string) (p : nat) :
  head (positions_of t l) = Some p →
  l !! p = Some t ∧ ∀ j, j < p → l !! j ≠ Some t.
Proof.
  intros H. apply filter_seq_head in H as (HP & _ & Hmin).
  split; [exact HP|]. intros j Hj. apply Hmin. lia.
Qed.

Lemma positions_of_nonempty (t : string) (l : list string) :
  t ∈ l → positions_of t l ≠ [].
Proof.
  intros Hin. apply list_elem_of_lookup in Hin as [i Hi].
  apply positions_of_elem in Hi. intros E. rewrite E in Hi.
  now apply elem_of_nil in Hi.
Qed.

End ExactIndex.

(** ** The token index *)

Section TokenIndex.

Lemma build_token_index_snoc (l : list string) (x : string) :
  build_token_index (l ++ [x]) =
  fold_left
    (λ (ti : gmap string (gset nat)) (token : string),
       <[token := default ∅ (ti !! token) ∪ {[length l]}]> ti)
    (PyStr.split x) (build_token_index l).
Proof.
  unfold build_token_index. rewrite enumerate_snoc, fold_left_app. reflexivity.
Qed.

(** Posting the tokens of one row. *)
Lemma add_tokens_lookup (pos : nat) (tokens : list string)
    (ti : gmap string (gset nat)) (tok : string) :
  default ∅
    (fold_left
       (λ (ti : gmap string (gset nat)) (token : string),
          <[token := default ∅ (ti !! token) ∪ {[pos]}]> ti)
       tokens ti !! tok)
  = default ∅ (ti !! tok) ∪ (if decide (tok ∈ tokens) then {[pos]} else ∅).
Proof.
  revert ti. induction tokens as [|a r IH]; intros ti; simpl.
  - destruct (decide (tok ∈ [])) as [H|_]; [now apply elem_of_nil in H|].
    set_solver.
  - rewrite IH. destruct (decide (a = tok)) as [->|Hne].
    + rewrite lookup_insert_eq. simpl.
      destruct (decide (tok ∈ tok :: r)) as [_|H]; [|exfalso; apply H; left].
      destruct (decide (tok ∈ r)); set_solver.
    + rewrite lookup_insert_ne by exact Hne.
      destruct (decide (tok ∈ r)) as [H|H], (decide (tok ∈ a :: r)) as [H'|H'];
        try reflexivity.
      * exfalso. apply H'. now right.
      * apply elem_of_cons in H' as [->|H']; contradiction.
Qed.

(** The posting set of a token holds the positions of the rows whose
    text has that token. *)
Lemma token_index_elem (l : list string) (tok : string) (p : nat) :
  p ∈ default ∅ (build_token_index l !! tok) ↔
  ∃ text, l !! p = Some text ∧ tok ∈ PyStr.split text.
Proof.
  induction l as [|x l IH] using rev_ind.
  - unfold build_token_index. simpl. rewrite lookup_empty. simpl.
    split; [intros H; now apply not_elem_of_empty in H|].
    intros (text & H & _). discriminate.
  - rewrite build_token_index_snoc, add_tokens_lookup, elem_of_union, IH.
    split.
    + intros [(text & Hp & Ht)|Hp].
      * exists text. split; [|exact Ht]. apply lookup_snoc_Some. left.
        split; [now apply lookup_lt_Some in Hp | exact Hp].
      * destruct (decide (tok ∈ PyStr.split x)) as [Ht|_];
          [|now apply not_elem_of_empty in Hp].
        apply elem_of_singleton in Hp as ->. exists x.
        split; [|exact Ht]. apply lookup_snoc_Some. now right.
    + intros (text & Hp & Ht). apply lookup_snoc_Some in Hp as [[_ Hp]|[-> ->]].
      * left. eauto.
      * right. destruct (decide (tok ∈ PyStr.split text)); [|contradiction].
        now apply elem_of_singleton.
Qed.

Lemma token_index_bound (l : list string) (tok : string) (p : nat) :
  p ∈ default ∅ (build_token_index l !! tok) → p < length l.
Proof.
  intros H. apply token_index_elem in H as (text & H & _).
  now apply lookup_lt_Some in H.
Qed.

Lemma candidate_positions_elem (ti : gmap string (gset nat))
    (ltokens : gset string) (p : nat) :
  p ∈ candidate_positions ti ltokens ↔
  ∃ tok, tok ∈ ltokens ∧ p ∈ default ∅ (ti !! tok).
Proof.
  unfold candidate_positions. revert p.
  apply (set_fold_ind_L
           (λ (r : gset nat) (X : gset string),
              ∀ p, p ∈ r ↔ ∃ tok, tok ∈ X ∧ p ∈ default ∅ (ti !! tok))).
  - intros p. split; [intros H; now apply not_elem_of_empty in H|].
    intros (tok & H & _). now apply not_elem_of_empty in H.
  - intros x X r Hx IH p. rewrite elem_of_union, IH. split.
    + intros [(tok & Ht & Hp)|Hp].
      * exists tok. split; [set_solver | exact Hp].
      * exists x. split; [set_solver | exact Hp].
    + intros (tok & Ht & Hp). apply elem_of_union in Ht as [Ht|Ht].
      * apply elem_of_singleton in Ht as ->. now right.
      * left. eauto.
Qed.

(** The set the engine builds is the candidate set of the text. *)
Lemma candidate_positions_spec (ti : gmap string (gset nat)) (text : string) :
  candidate_positions ti (list_to_set (PyStr.split text))
  = token_candidates ti text.
Proof.
  apply set_eq. intros p. unfold token_candidates.
  rewrite candidate_positions_elem, elem_of_union_list. split.
  - intros (tok & Ht & Hp). apply elem_of_list_to_set in Ht.
    exists (default ∅ (ti !! tok)). split; [|exact Hp].
    apply list_elem_of_In, in_map_iff. exists tok.
    split; [reflexivity | now apply list_elem_of_In].
  - intros (X & HX & Hp). apply list_elem_of_In, in_map_iff in HX
      as (tok & <- & Ht).
    exists tok. split; [|exact Hp].
    apply elem_of_list_to_set. now apply list_elem_of_In.
Qed.

Lemma token_candidates_no_tokens (ti : gmap string (gset nat)) (text : string) :
  PyStr.split text = [] → token_candidates ti text = ∅.
Proof. unfold token_candidates. now intros ->. Qed.

Lemma token_candidates_bound (l : list string) (text : string) (p : nat) :
  p ∈ token_candidates (build_token_index l) text → p < length l.
Proof.
  rewrite <- candidate_positions_spec, candidate_positions_elem.
  intros (tok & _ & Hp). now apply token_index_bound in Hp.
Qed.

End TokenIndex.

(** ** Dictionaries *)

Section Dictionaries.
Context {V : Type}.

Lemma dict_get_set_eq (k : string) (v : V) (d : dict V) :
  dict_get k (dict_set k v d) = Some v.
Proof.
  induction d as [|[k' v'] r IH]; simpl.
  - now destruct (decide (k = k)).
  - destruct (decide (k' = k)) as [E|E]; simpl.
    + now destruct (decide (k = k)).
    + now destruct (decide (k' = k)).
Qed.

Lemma dict_get_set_ne (k k' : string) (v : V) (d : dict V) :
  k' ≠ k → dict_get k (dict_set k' v d) = dict_get k d.
Proof.
  intros Hne. induction d as [|[k0 v0] r IH]; simpl.
  - now destruct (decide (k' = k)).
  - destruct (decide (k0 = k')) as [->|E]; simpl.
    + now destruct (decide (k' = k)).
    + destruct (decide (k0 = k)); [reflexivity | exact IH].
Qed.

Lemma dict_set_elem (k k' : string) (v v' : V) (d : dict V) :
  (k, v) ∈ dict_set k' v' d → (k, v) = (k', v') ∨ (k, v) ∈ d.
Proof.
  induction d as [|[k0 v0] r IH]; simpl.
  - intros H. apply list_elem_of_singleton in H. now left.
  - destruct (decide (k0 = k')) as [->|E]; intros H;
      apply elem_of_cons in H as [H|H].
    + now left.
    + right. now right.
    + right. rewrite H. left.
    + destruct (IH H) as [?|?]; [now left | right; now right].
Qed.

Lemma dict_get_elem (k : string) (v : V) (d : dict V) :
  dict_get k d = Some v → (k, v) ∈ d.
Proof.
  induction d as [|[k0 v0] r IH]; simpl; [discriminate|].
  destruct (decide (k0 = k)) as [->|E].
  - intros [= ->]. left.
  - intros H. right. now apply IH.
Qed.

Context {A : Type} (key : A → string) (val : A → V).

(** A loop of assignments [d[key a] = val a]. *)
Lemma fold_set_other (l : list A) (d : dict V) (k : string) :
  (∀ a, a ∈ l → key a ≠ k) →
  dict_get k (fold_left (λ d a, dict_set (key a) (val a) d) l d) = dict_get k d.
Proof.
  revert d. induction l as [|a r IH]; intros d Hk; simpl; [reflexivity|].
  rewrite IH by (intros b Hb; apply Hk; now right).
  apply dict_get_set_ne, Hk. left.
Qed.

Lemma fold_set_in (l : list A) (d : dict V) (a : A) :
  a ∈ l →
  (∀ b, b ∈ l → key b = key a → val b = val a) →
  dict_get (key a) (fold_left (λ d a, dict_set (key a) (val a) d) l d)
  = Some (val a).
Proof.
  revert d a. induction l as [|b r IH]; intros d a Ha Hfun; simpl.
  - now apply elem_of_nil in Ha.
  - destruct (decide (Exists (λ c, key c = key a) r)) as [Hex|Hex].
    + apply Exists_exists in Hex as (c & Hc & Hkey).
      assert (Hval : val c = val a) by (apply Hfun; [now right | exact Hkey]).
      rewrite <- Hkey, <- Hval. apply IH; [exact Hc|].
      intros e He Hke. rewrite Hval. apply Hfun; [now right | congruence].
    + rewrite fold_set_other.
      * apply elem_of_cons in Ha as [<-|Ha]; [apply dict_get_set_eq|].
        exfalso. apply Hex, Exists_exists. eauto.
      * intros c Hc Hkey. apply Hex, Exists_exists. eauto.
Qed.

Lemma fold_set_elem (l : list A) (d : dict V) (k : string) (v : V) :
  (k, v) ∈ fold_left (λ d a, dict_set (key a) (val a) d) l d →
  (k, v) ∈ d ∨ ∃ a, a ∈ l ∧ key a = k ∧ val a = v.
Proof.
  revert d. induction l as [|a r IH]; intros d; simpl; [now left|].
  intros H. destruct (IH _ H) as [H'|(b & Hb & Hk & Hv)].
  - apply dict_set_elem in H' as [[= -> ->]|H']; [|now left].
    right. exists a. split; [left | split; reflexivity].
  - right. exists b. split; [now right | split; assumption].
Qed.

End Dictionaries.

(** ** Records and rows *)

Section Rows.

Lemma append_inj (p a b : string) : p +:+ a = p +:+ b → a = b.
Proof. induction p as [|c p IH]; simpl; [tauto|]. intros [= H]. now apply IH. Qed.

Lemma df_select_Ok (df : DataFrame) (cols : list string)
    (sel : list (string * (nat → scalar))) :
  df_select df cols = Ok sel →
  map fst sel = cols ∧ ∀ c f, (c, f) ∈ sel → df_column df c = Ok f.
Proof.
  unfold df_select. revert sel.
  induction cols as [|c r IH]; intros sel; simpl.
  - intros [= <-]. split; [reflexivity|]. intros c f H.
    now apply elem_of_nil in H.
  - intros H. apply bind_Ok in H as (cf & Hcf & H).
    apply bind_Ok in Hcf as (f & Hf & [= <-]).
    apply bind_Ok in H as (bs & Hbs & [= <-]).
    destruct (IH _ Hbs) as [Hm Hall]. split; [simpl; now rewrite Hm|].
    intros c' f' Hin. apply elem_of_cons in Hin as [[= -> ->]|Hin];
      [exact Hf | now apply Hall].
Qed.

Lemma to_records_lookup (n : nat) (cols : list (string * (nat → scalar)))
    (i : nat) :
  i < n → to_records n cols !! i = Some (record_at cols i).
Proof.
  intros Hi. unfold to_records. rewrite list_lookup_fmap.
  now rewrite (lookup_seq_lt 0 n i Hi).
Qed.

Lemma length_to_records (n : nat) (cols : list (string * (nat → scalar))) :
  length (to_records n cols) = n.
Proof. unfold to_records. now rewrite length_map, length_seq. Qed.

Section Selected.
Variables (df : DataFrame) (cols : list string).
Variable sel : list (string * (nat → scalar)).
Hypothesis Hsel : df_select df cols = Ok sel.

Lemma selected_column (c : string) :
  c ∈ cols → ∃ f, df_column df c = Ok f ∧ (c, f) ∈ sel.
Proof using Hsel.
  destruct (df_select_Ok _ _ _ Hsel) as [Hm Hall]. intros Hc.
  rewrite <- Hm in Hc. apply list_elem_of_fmap in Hc as ([c' f] & -> & Hin).
  exists f. split; [now apply Hall | exact Hin].
Qed.

Lemma record_at_elem (i : nat) (c : string) (v : scalar) :
  (c, v) ∈ record_at sel i →
  c ∈ cols ∧ ∃ f, df_column df c = Ok f ∧ v = f i.
Proof using Hsel.
  destruct (df_select_Ok _ _ _ Hsel) as [Hm Hall]. intros H.
  apply (fold_set_elem fst (λ cf, cf.2 i)) in H
    as [H|([c' f] & Hin & Hk & Hv)]; [now apply elem_of_nil in H|].
  simpl in Hk, Hv. subst c' v. split.
  - rewrite <- Hm. apply list_elem_of_fmap. exists (c, f). now split.
  - exists f. split; [now apply Hall | reflexivity].
Qed.

Lemma record_at_get (i : nat) (c : string) (f : nat → scalar) :
  c ∈ cols → df_column df c = Ok f →
  dict_get c (record_at sel i) = Some (f i).
Proof using Hsel.
  destruct (df_select_Ok _ _ _ Hsel) as [Hm Hall]. intros Hc Hf.
  destruct (selected_column c Hc) as (f' & Hf' & Hin).
  assert (f' = f) by congruence. subst f'.
  apply (fold_set_in fst (λ cf, cf.2 i) sel [] (c, f) Hin).
  intros [c' f'] Hin' Hk. simpl in Hk. subst c'. simpl.
  apply Hall in Hin'. congruence.
Qed.

(** Copying the record of row [i] into an output row under a prefix. *)
Lemma set_prefixed_get (prefix : string) (row : dict obj) (i : nat)
    (c : string) (f : nat → scalar) :
  c ∈ cols → df_column df c = Ok f →
  dict_get (prefix +:+ c) (set_prefixed prefix (record_at sel i) row)
  = Some (Cell (f i)).
Proof using Hsel.
  intros Hc Hf. pose proof (record_at_get i c f Hc Hf) as Hget.
  apply dict_get_elem in Hget.
  apply (fold_set_in (λ cv : string * scalar, prefix +:+ cv.1)
           (λ cv, Cell cv.2) _ row (c, f i) Hget).
  intros [c' v'] Hin Hk. simpl in Hk. apply append_inj in Hk. subst c'.
  simpl. apply record_at_elem in Hin as (_ & f' & Hf' & ->). congruence.
Qed.
End Selected.

Lemma set_prefixed_other (prefix : string) (rec : dict scalar)
    (row : dict obj) (k : string) :
  (∀ c, k ≠ prefix +:+ c) →
  dict_get k (set_prefixed prefix rec row) = dict_get k row.
Proof.
  intros Hk. apply (fold_set_other (λ cv : string * scalar, prefix +:+ cv.1)
                      (λ cv, Cell cv.2)).
  intros a _ E. now apply (Hk a.1).
Qed.

Lemma set_missing_other (prefix : string) (cols : list string)
    (row : dict obj) (k : string) :
  (∀ c, k ≠ prefix +:+ c) →
  dict_get k (set_missing prefix cols row) = dict_get k row.
Proof.
  intros Hk. apply (fold_set_other (λ c : string, prefix +:+ c) (λ _, Cell NA)).
  intros a _ E. now apply (Hk a).
Qed.

Lemma set_missing_get (prefix : string) (cols : list string)
    (row : dict obj) (c : string) :
  c ∈ cols → dict_get (prefix +:+ c) (set_missing prefix cols row) = Some (Cell NA).
Proof.
  intros Hc.
  apply (fold_set_in (λ c : string, prefix +:+ c) (λ _, Cell NA) cols row c Hc).
  reflexivity.
Qed.

Lemma merged_row_other (lrec : dict scalar) (rrec : option (dict scalar))
    (roc : list string) (k : string) :
  (∀ c, k ≠ "Left_" +:+ c) → (∀ c, k ≠ "Right_" +:+ c) →
  dict_get k (merged_row lrec rrec roc) = None.
Proof.
  intros HL HR. unfold merged_row. destruct rrec as [r|].
  - rewrite set_prefixed_other by exact HR. now rewrite set_prefixed_other.
  - rewrite set_missing_other by exact HR. now rewrite set_prefixed_other.
Qed.

End Rows.

Section MergedRows.
Variables (left_df right_df : DataFrame).
Variables (left_output_cols right_output_cols : list string).
Variables (lsel rsel : list (string * (nat → scalar))).
Hypothesis Hlsel : df_select left_df left_output_cols = Ok lsel.
Hypothesis Hrsel : df_select right_df right_output_cols = Ok rsel.

Lemma left_right_keys (a b : string) : "Left_" +:+ a ≠ "Right_" +:+ b.
Proof. simpl. discriminate. Qed.

Lemma merged_row_left (i : nat) (rrec : option (dict scalar)) (c : string)
    (f : nat → scalar) :
  c ∈ left_output_cols → df_column left_df c = Ok f →
  dict_get ("Left_" +:+ c) (merged_row (record_at lsel i) rrec right_output_cols)
  = Some (Cell (f i)).
Proof using Hlsel.
  intros Hc Hf. unfold merged_row. destruct rrec as [r|].
  - rewrite set_prefixed_other by (intros b; apply left_right_keys).
    exact (set_prefixed_get _ _ _ Hlsel _ _ _ _ _ Hc Hf).
  - rewrite set_missing_other by (intros b; apply left_right_keys).
    exact (set_prefixed_get _ _ _ Hlsel _ _ _ _ _ Hc Hf).
Qed.

Lemma merged_row_right (lrec : dict scalar) (i : nat) (c : string)
    (f : nat → scalar) :
  c ∈ right_output_cols → df_column right_df c = Ok f →
  dict_get ("Right_" +:+ c)
    (merged_row lrec (Some (record_at rsel i)) right_output_cols)
  = Some (Cell (f i)).
Proof using Hrsel.
  intros Hc Hf. unfold merged_row.
  exact (set_prefixed_get _ _ _ Hrsel _ _ _ _ _ Hc Hf).
Qed.

Lemma merged_row_right_missing (lrec : dict scalar) (c : string) :
  c ∈ right_output_cols →
  dict_get ("Right_" +:+ c) (merged_row lrec None right_output_cols)
  = Some (Cell NA).
Proof. intros Hc. unfold merged_row. now apply set_missing_get. Qed.

End MergedRows.

(** ** Progress ticks *)

Section Progress.
Variable progress_callback : bool.
Variable progress_update_every : Z.
Variable total_rows : nat.

Lemma ticks_one (left_pos : nat) :
  ticks progress_callback progress_update_every total_rows left_pos 1 =
  if progress_callback
     && (bool_decide (Z.modulo (Z.of_nat (S left_pos)) progress_update_every = 0%Z)
         || bool_decide (S left_pos = total_rows))
  then [(S left_pos, total_rows)] else [].
Proof.
  unfold ticks. destruct progress_callback; simpl; [|reflexivity].
  rewrite filter_cons, filter_nil.
  destruct (decide (_ ∨ _)) as [[H|H]|H].
  - rewrite (bool_decide_eq_true_2 _ H). reflexivity.
  - rewrite (bool_decide_eq_true_2 _ H), orb_true_r. reflexivity.
  - rewrite !bool_decide_eq_false_2 by tauto. reflexivity.
Qed.

Lemma ticks_S (count : nat) :
  ticks progress_callback progress_update_every total_rows 0 (S count) =
  (ticks progress_callback progress_update_every total_rows 0 count
   ++ ticks progress_callback progress_update_every total_rows count 1)%list.
Proof.
  unfold ticks. destruct progress_callback; [|reflexivity].
  rewrite seq_S, filter_app, map_app. reflexivity.
Qed.

Lemma progress_tick_Ok (left_pos : nat) (calls calls' : list (nat * nat)) :
  progress_tick progress_callback progress_update_every total_rows left_pos calls
  = Ok calls' →
  calls' = (calls ++ ticks progress_callback progress_update_every
                       total_rows left_pos 1)%list.
Proof.
  rewrite ticks_one. unfold progress_tick.
  destruct progress_callback; simpl; [|intros [= <-]; now rewrite app_nil_r].
  destruct (decide (progress_update_every = 0%Z)); [discriminate|].
  destruct (_ || _); intros [= <-]; [reflexivity | now rewrite app_nil_r].
Qed.

(** A tick raises nothing but a division by zero, and that only with
    a callback and an interval of zero. *)
Lemma progress_tick_total (left_pos : nat) (calls : list (nat * nat)) :
  (∃ calls', progress_tick progress_callback progress_update_every
               total_rows left_pos calls = Ok calls')
  ∨ (progress_tick progress_callback progress_update_every
       total_rows left_pos calls = Raise ZeroDivisionError
     ∧ progress_callback = true ∧ progress_update_every = 0%Z).
Proof.
  unfold progress_tick. destruct progress_callback; [|left; eauto].
  destruct (decide (progress_update_every = 0%Z)); [right; auto|].
  destruct (_ || _); left; eauto.
Qed.

End Progress.

(** ** The loop without similarity *)

Section PositionalFacts.
Variables left_output_records right_output_records : list (dict scalar).
Variable right_output_cols : list string.
Variables include_unmatched progress_callback : bool.
Variable progress_update_every : Z.
Variable total_rows : nat.

Local Abbreviation step :=
  (positional_step left_output_records right_output_records right_output_cols
     include_unmatched progress_callback progress_update_every total_rows).
Local Abbreviation loop :=
  (positional_loop left_output_records right_output_records right_output_cols
     include_unmatched progress_callback progress_update_every total_rows).
Local Abbreviation row_at :=
  (λ i, merged_row (default [] (left_output_records !! i))
          (right_output_records !! i) right_output_cols).
Local Abbreviation kept :=
  (λ i, i < length right_output_records ∨ include_unmatched = true).

Lemma positional_step_Ok (st st' : list (dict obj) * list (nat * nat)) (i : nat) :
  step st i = Ok st' →
  st'.1 = (st.1 ++ map row_at (filter kept [i]))%list
  ∧ st'.2 = (st.2 ++ ticks progress_callback progress_update_every
                      total_rows i 1)%list.
Proof.
  unfold positional_step. intros H.
  apply bind_Ok in H as (lrec & Hl & H). apply index_Ok in Hl.
  apply bind_Ok in H as (row & Hrow & H).
  apply bind_Ok in H as (calls & Hcalls & [= <-]). simpl.
  apply progress_tick_Ok in Hcalls. split; [|exact Hcalls].
  rewrite filter_cons, filter_nil.
  destruct (decide (i < length right_output_records)) as [Hlt|Hge].
  - rewrite (bool_decide_eq_true_2 _ Hlt) in Hrow |- *. simpl.
    apply bind_Ok in Hrow as (rrec & Hr & [= <-]). apply index_Ok in Hr.
    destruct (decide (_ ∨ _)) as [_|Hn]; [|tauto]. simpl.
    unfold merged_row. now rewrite Hl, Hr.
  - rewrite (bool_decide_eq_false_2 _ Hge) in Hrow |- *. simpl.
    injection Hrow as <-.
    assert (Hr : right_output_records !! i = None)
      by (apply lookup_ge_None; lia).
    destruct include_unmatched; destruct (decide (_ ∨ _)) as [Hk|Hk];
      simpl; try tauto.
    + unfold merged_row. now rewrite Hl, Hr.
    + destruct Hk; [contradiction | discriminate].
    + now rewrite app_nil_r.
Qed.

Lemma positional_loop_Ok (n : nat) (st0 st : list (dict obj) * list (nat * nat)) :
  loop (seq 0 n) st0 = Ok st →
  st.1 = (st0.1 ++ map row_at (filter kept (seq 0 n)))%list
  ∧ st.2 = (st0.2 ++ ticks progress_callback progress_update_every
                       total_rows 0 n)%list.
Proof.
  unfold positional_loop. revert st. induction n as [|n IH]; intros st.
  - simpl. intros [= <-]. unfold ticks. simpl.
    destruct progress_callback; now rewrite !app_nil_r.
  - rewrite seq_S, foldM_snoc. simpl. intros H.
    apply bind_Ok in H as (st1 & H1 & H2).
    destruct (IH _ H1) as [Hr Hc].
    apply positional_step_Ok in H2 as [Hr' Hc'].
    rewrite Hr', Hr, Hc', Hc, ticks_S, filter_app, map_app, !app_assoc.
    split; reflexivity.
Qed.

(** The loop indexes inside its lists: only a tick can raise. *)
Lemma positional_loop_total (n : nat) (st0 : list (dict obj) * list (nat * nat)) :
  (n ≤ length left_output_records)%nat →
  (∃ st, loop (seq 0 n) st0 = Ok st)
  ∨ loop (seq 0 n) st0 = Raise ZeroDivisionError.
Proof.
  unfold positional_loop. induction n as [|n IH]; intros Hn.
  - left. simpl. eauto.
  - rewrite seq_S, foldM_snoc. simpl.
    destruct IH as [[st1 ->]| ->]; [lia | | now right]. simpl.
    unfold positional_step.
    destruct (index_lt left_output_records n) as (lrec & -> & _); [lia|]. simpl.
    destruct (decide (n < length right_output_records)) as [Hlt|Hge].
    + rewrite (bool_decide_eq_true_2 _ Hlt). simpl.
      destruct (index_lt right_output_records n Hlt) as (rrec & -> & _). simpl.
      destruct (progress_tick_total progress_callback progress_update_every
                  total_rows n st1.2) as [[c ->]|[-> _]]; simpl; eauto.
    + rewrite (bool_decide_eq_false_2 _ Hge). simpl.
      destruct (progress_tick_total progress_callback progress_update_every
                  total_rows n st1.2) as [[c ->]|[-> _]]; simpl; eauto.
Qed.

End PositionalFacts.

(** ** The loop with similarity *)

Section SimilarityFacts.
Variable rt : Runtime.
Variable token_index : gmap string (gset nat).
Variable exact_index : gmap string (list nat).
Variable right_text_values : list string.
Variable use_rapidfuzz : bool.
Variables left_output_records right_output_records : list (dict scalar).
Variable right_output_cols : list string.
Variable threshold : Q.
Variables include_unmatched progress_callback : bool.
Variable progress_update_every : Z.
Variable total_rows : nat.

Local Abbreviation score :=
  (score_step rt right_text_values use_rapidfuzz).
Local Abbreviation decide_row :=
  (match_row rt token_index exact_index right_text_values use_rapidfuzz).
Local Abbreviation row_of :=
  (output_row rt left_output_records right_output_records right_output_cols
     threshold).
Local Abbreviation step :=
  (similarity_step rt token_index exact_index right_text_values use_rapidfuzz
     left_output_records right_output_records right_output_cols threshold
     include_unmatched progress_callback progress_update_every total_rows).
Local Abbreviation loop :=
  (similarity_loop rt token_index exact_index right_text_values use_rapidfuzz
     left_output_records right_output_records right_output_cols threshold
     include_unmatched progress_callback progress_update_every total_rows).
Local Abbreviation pure_row :=
  (scored_row rt left_output_records right_output_records right_output_cols
     threshold).
Local Abbreviation kept :=
  (λ id : nat * decision, is_matched threshold id.2 || include_unmatched = true).
Local Abbreviation decided :=
  (λ (t : string) (d : decision),
     decide_row t = Ok d
     ∧ (is_matched threshold d = true →
        ∃ p, best_right_pos d = Some p ∧ p < length right_output_records)).

Lemma score_loop_Ok (ltext : string) (cands : list nat)
    (acc acc' : nat * Q * option nat) :
  foldM (score ltext) cands acc = Ok acc' →
  acc'.1.1 = acc.1.1 + length cands
  ∧ (acc'.2 = acc.2 ∨ ∃ p, p ∈ cands ∧ acc'.2 = Some p).
Proof.
  revert acc. induction cands as [|c r IH]; intros acc; simpl.
  - intros [= <-]. split; [lia | now left].
  - intros H. apply bind_Ok in H as (acc1 & H1 & H2).
    destruct (IH _ H2) as [Hn Hp]. destruct acc as [[n b] pos].
    unfold score_step in H1. apply bind_Ok in H1 as (rtext & _ & H1).
    destruct (Qlt_le_dec _ _); injection H1 as <-; simpl in *.
    + split; [lia|]. right. destruct Hp as [->|(p & Hin & ->)].
      * exists c. split; [left | reflexivity].
      * exists p. split; [now right | reflexivity].
    + split; [lia|]. destruct Hp as [->|(p & Hin & ->)]; [now left|].
      right. exists p. split; [now right | reflexivity].
Qed.

Lemma score_loop_total (ltext : string) (cands : list nat)
    (acc : nat * Q * option nat) :
  (∀ p, p ∈ cands → p < length right_text_values) →
  ∃ acc', foldM (score ltext) cands acc = Ok acc'.
Proof.
  revert acc. induction cands as [|c r IH]; intros acc Hb; simpl; [eauto|].
  destruct acc as [[n b] pos]. unfold score_step.
  destruct (index_lt right_text_values c) as (rtext & -> & _);
    [apply Hb; left|]. simpl.
  destruct (Qlt_le_dec _ _); simpl; apply IH; intros p Hp; apply Hb; now right.
Qed.

Lemma list_to_set_empty_nil (l : list string) :
  list_to_set l = (∅ : gset string) → l = [].
Proof.
  destruct l as [|a r]; [reflexivity|]. intros H. exfalso.
  assert (Ha : a ∈ (list_to_set (a :: r) : gset string))
    by (apply elem_of_list_to_set; left).
  rewrite H in Ha. now apply not_elem_of_empty in Ha.
Qed.

(** A text that is a key of the exact index. *)
Lemma match_row_exact (t : string) (p : nat) (ps : list nat) :
  exact_index !! t = Some (p :: ps) →
  decide_row t = Ok {| best_score := 1%Q; best_right_pos := Some p;
                       exact_hit := true; comparisons := 0 |}.
Proof. unfold match_row. now intros ->. Qed.

(** A text without tokens that is no key of the exact index. *)
Lemma match_row_no_tokens (t : string) :
  exact_index !! t = None → PyStr.split t = [] →
  decide_row t = Ok {| best_score := 0%Q; best_right_pos := None;
                       exact_hit := false; comparisons := 0 |}.
Proof.
  unfold match_row. intros -> ->. rewrite list_to_set_nil.
  destruct (decide (∅ = ∅)) as [_|H]; [reflexivity | now contradict H].
Qed.

(** A text that is no key of the exact index. *)
Lemma match_row_miss (t : string) (d : decision) :
  exact_index !! t = None → decide_row t = Ok d →
  exact_hit d = false
  ∧ comparisons d =
      (if decide (PyStr.split t = []) then 0
       else length (set_iter rt (token_candidates token_index t)))
  ∧ ∀ p, best_right_pos d = Some p →
         p ∈ set_iter rt (token_candidates token_index t).
Proof.
  unfold match_row. intros ->.
  destruct (decide (list_to_set (PyStr.split t) = ∅)) as [He|Hne].
  - intros [= <-]. simpl. apply list_to_set_empty_nil in He.
    destruct (decide (PyStr.split t = [])); [|contradiction].
    repeat split. discriminate.
  - rewrite candidate_positions_spec. intros H.
    apply bind_Ok in H as (acc & Hacc & [= <-]). simpl.
    apply score_loop_Ok in Hacc as [Hn Hp]. simpl in Hn, Hp.
    destruct (decide (PyStr.split t = [])) as [E|_].
    + exfalso. apply Hne. now rewrite E.
    + repeat split; [exact Hn|]. intros p Hpos.
      destruct Hp as [Hp|(q & Hq & Hp)]; [congruence|].
      assert (p = q) by congruence. now subst q.
Qed.

Lemma match_row_hit (t : string) (ps : list nat) (d : decision) :
  exact_index !! t = Some ps → decide_row t = Ok d →
  ∃ p, head ps = Some p
       ∧ d = {| best_score := 1%Q; best_right_pos := Some p;
                exact_hit := true; comparisons := 0 |}.
Proof.
  unfold match_row. intros ->. intros H.
  apply bind_Ok in H as (p & Hp & [= <-]). apply index_Ok in Hp.
  exists p. split; [now rewrite head_lookup | reflexivity].
Qed.

Lemma output_row_Ok (i : nat) (d : decision) (row : dict obj) :
  row_of i d = Ok row → row = pure_row i d.
Proof.
  unfold output_row, scored_row. intros H.
  apply bind_Ok in H as (lrec & Hl & H). apply index_Ok in Hl.
  apply bind_Ok in H as (row1 & H1 & [= <-]). do 2 f_equal.
  rewrite Hl. simpl. unfold merged_row.
  destruct (is_matched threshold d); [|now injection H1 as <-].
  destruct (best_right_pos d) as [p|]; simpl; [|now injection H1 as <-].
  apply bind_Ok in H1 as (rrec & Hr & [= <-]). apply index_Ok in Hr.
  now rewrite Hr.
Qed.

Lemma output_row_matched (i : nat) (d : decision) (row : dict obj) :
  row_of i d = Ok row → is_matched threshold d = true →
  ∃ p, best_right_pos d = Some p ∧ p < length right_output_records.
Proof.
  unfold output_row. intros H Hm. rewrite Hm in H.
  apply bind_Ok in H as (lrec & _ & H). apply bind_Ok in H as (row1 & H1 & _).
  unfold is_matched in Hm. apply andb_true_iff in Hm as [Hm _].
  apply bool_decide_eq_true in Hm as [p Hp]. rewrite Hp in H1.
  apply bind_Ok in H1 as (rrec & Hr & _). apply index_Ok in Hr.
  exists p. split; [exact Hp | now apply lookup_lt_Some in Hr].
Qed.

Lemma similarity_step_Ok (st st' : loop_state) (i : nat) (t : string) :
  step st (i, t) = Ok st' →
  ∃ d, decided t d
    ∧ st_best_scores st' = (st_best_scores st ++ [best_score d])%list
    ∧ st_best_positions st' = (st_best_positions st ++ [best_right_pos d])%list
    ∧ st_exact_match_count st' =
        st_exact_match_count st + (if exact_hit d then 1 else 0)
    ∧ st_candidate_comparisons st' = st_candidate_comparisons st + comparisons d
    ∧ st_calls st' =
        (st_calls st ++ ticks progress_callback progress_update_every
                          total_rows i 1)%list
    ∧ st_rows st' = (st_rows st ++ map (λ id, pure_row id.1 id.2)
                                     (filter kept [(i, d)]))%list.
Proof.
  unfold similarity_step. intros H.
  apply bind_Ok in H as (d & Hd & H). exists d.
  apply bind_Ok in H as (rows & Hrows & H).
  apply bind_Ok in H as (calls & Hcalls & [= <-]). simpl.
  apply progress_tick_Ok in Hcalls.
  assert (Hin : is_matched threshold d = true →
                ∃ p, best_right_pos d = Some p
                     ∧ p < length right_output_records).
  { intros Hm. rewrite Hm in Hrows. simpl in Hrows.
    apply bind_Ok in Hrows as (row & Hrow & _).
    exact (output_row_matched _ _ _ Hrow Hm). }
  repeat split; try reflexivity; [exact Hd | exact Hin | exact Hcalls |].
  rewrite filter_cons, filter_nil. simpl.
  destruct (is_matched threshold d || include_unmatched) eqn:E.
  - apply bind_Ok in Hrows as (row & Hrow & [= <-]).
    apply output_row_Ok in Hrow as ->.
    destruct (decide (true = true)); [reflexivity | contradiction].
  - injection Hrows as <-.
    destruct (decide (false = true)); [discriminate | now rewrite app_nil_r].
Qed.

(** The state after the first [k] rows, from the decisions taken. *)
Lemma similarity_loop_inv (left_text_values : list string) (st0 : loop_state)
    (k : nat) (st : loop_state) :
  k ≤ length left_text_values →
  loop (take k (enumerate left_text_values)) st0 = Ok st →
  ∃ ds, Forall2 decided (take k left_text_values) ds
    ∧ st_best_scores st = (st_best_scores st0 ++ map best_score ds)%list
    ∧ st_best_positions st =
        (st_best_positions st0 ++ map best_right_pos ds)%list
    ∧ st_exact_match_count st =
        st_exact_match_count st0
        + length (filter (λ d, exact_hit d = true) ds)
    ∧ st_candidate_comparisons st =
        st_candidate_comparisons st0 + sum_list (map comparisons ds)
    ∧ st_calls st =
        (st_calls st0 ++ ticks progress_callback progress_update_every
                           total_rows 0 k)%list
    ∧ st_rows st = (st_rows st0 ++ map (λ id, pure_row id.1 id.2)
                                     (filter kept (enumerate ds)))%list.
Proof.
  unfold similarity_loop. revert st. induction k as [|k IH]; intros st Hk.
  - simpl. intros [= <-]. exists []. unfold ticks. simpl.
    rewrite !app_nil_r. repeat split; try constructor; try lia.
    destruct progress_callback; now rewrite ?app_nil_r.
  - destruct (lookup_lt_is_Some_2 left_text_values k) as [t Ht]; [lia|].
    rewrite (take_S_r _ _ _ (enumerate_lookup _ _ _ Ht)), foldM_snoc.
    intros H. apply bind_Ok in H as (st1 & H1 & H2).
    destruct (IH st1) as (ds & HF & Hs & Hp & He & Hc & Hcalls & Hrows);
      [lia | exact H1 |].
    apply similarity_step_Ok in H2
      as (d & Hd & Hs' & Hp' & He' & Hc' & Hcalls' & Hrows').
    assert (Hlen : length ds = k).
    { apply Forall2_length in HF. rewrite length_take_le in HF by lia. lia. }
    exists (ds ++ [d])%list. rewrite (take_S_r _ _ _ Ht).
    split; [apply Forall2_app; [exact HF | constructor; [exact Hd | constructor]]|].
    rewrite Hs', Hp', He', Hc', Hcalls', Hrows', Hs, Hp, He, Hc, Hcalls, Hrows.
    rewrite enumerate_snoc, Hlen, !filter_app, !map_app, length_app,
      sum_list_with_app, ticks_S, !app_assoc.
    repeat split; try reflexivity.
    + rewrite filter_cons, filter_nil. destruct (exact_hit d); simpl.
      * destruct (decide (true = true)); [simpl; lia | contradiction].
      * destruct (decide (false = true)); [discriminate | simpl; lia].
    + simpl. lia.
Qed.

End SimilarityFacts.

(** ** Runs of the engine *)

Section Runs.
Variable rt : Runtime.
Variables left_df right_df : DataFrame.
Variables left_output_cols right_output_cols : list string.
Variables left_match_cols right_match_cols : list string.
Variable threshold : Q.
Variables include_unmatched prefer_rapidfuzz progress_callback : bool.
Variable progress_update_every : option Z.

Local Abbreviation run :=
  (run_matching rt left_df right_df left_output_cols right_output_cols
     left_match_cols right_match_cols threshold include_unmatched
     prefer_rapidfuzz progress_callback progress_update_every).
Local Abbreviation enabled := (truthy left_match_cols && truthy right_match_cols).
Local Abbreviation every :=
  (resolve_update_every progress_update_every (df_len left_df)).

Lemma length_combine_columns (df : DataFrame) (cols : list string)
    (texts : list string) :
  combine_columns df cols = Ok (Series texts) → length texts = df_len df.
Proof.
  unfold combine_columns. destruct cols as [|c r].
  - intros [= <-]. apply length_replicate.
  - intros H. apply bind_Ok in H as (sel & _ & H).
    destruct (decide (df_len df = 0)); [discriminate|]. injection H as <-.
    now rewrite length_map, length_seq.
Qed.

Lemma tolist_Ok (c : combined) (texts : list string) :
  tolist c = Ok texts → c = Series texts.
Proof. destruct c; [now intros [= ->]|discriminate]. Qed.

Lemma run_similarity_enabled (res : MatchResult) (calls : list (nat * nat)) :
  run = Ok (res, calls) → similarity_enabled res = enabled.
Proof.
  unfold run_matching. intros H.
  apply bind_Ok in H as (lt & _ & H). apply bind_Ok in H as (rtx & _ & H).
  apply bind_Ok in H as (lsel & _ & H). apply bind_Ok in H as (rsel & _ & H).
  destruct enabled; simpl in H.
  - apply bind_Ok in H as (ltv & _ & H). apply bind_Ok in H as (rtv & _ & H).
    apply bind_Ok in H as (st & _ & [= <- <-]). reflexivity.
  - apply bind_Ok in H as (st & _ & [= <- <-]). reflexivity.
Qed.

(** What a run without similarity returns. *)
Lemma run_disabled (res : MatchResult) (calls : list (nat * nat)) :
  enabled = false → run = Ok (res, calls) →
  ∃ lsel rsel,
    df_select left_df left_output_cols = Ok lsel
    ∧ df_select right_df right_output_cols = Ok rsel
    ∧ result_df res =
        map (positional_row lsel rsel (df_len right_df) right_output_cols)
          (filter (λ i, i < df_len right_df ∨ include_unmatched = true)
             (seq 0 (df_len left_df)))
    ∧ calls = (initial_calls progress_callback (df_len left_df)
               ++ ticks progress_callback every (df_len left_df)
                    0 (df_len left_df))%list
    ∧ best_scores res = [] ∧ best_positions res = []
    ∧ left_text res = replicate (df_len left_df) ""
    ∧ right_text res = replicate (df_len right_df) ""
    ∧ similarity_enabled res = false ∧ similarity_engine res = "disabled"
    ∧ exact_match_count res = 0 ∧ candidate_comparisons res = 0
    ∧ left_match_columns_used res = [] ∧ right_match_columns_used res = [].
Proof.
  unfold run_matching. intros ->. simpl. intros H.
  apply bind_Ok in H as (lsel & Hl & H). apply bind_Ok in H as (rsel & Hr & H).
  apply bind_Ok in H as (st & Hst & [= <- <-]). simpl.
  exists lsel, rsel. rewrite length_to_records in Hst.
  apply positional_loop_Ok in Hst as [Hrows Hcalls]. simpl in Hrows, Hcalls.
  rewrite length_to_records in Hrows.
  repeat split; try assumption; try reflexivity.
  rewrite Hrows. apply map_ext_in. intros i Hi.
  apply list_elem_of_In, list_elem_of_filter in Hi as [_ Hi].
  apply elem_of_seq in Hi. unfold positional_row.
  rewrite to_records_lookup by lia. simpl.
  destruct (decide (i < df_len right_df)) as [Hlt|Hge].
  - now rewrite to_records_lookup.
  - rewrite (proj2 (lookup_ge_None _ _)); [reflexivity|].
    rewrite length_to_records. lia.
Qed.

(** What a run with similarity returns. *)
Lemma run_enabled (res : MatchResult) (calls : list (nat * nat)) :
  enabled = true → run = Ok (res, calls) →
  ∃ lsel rsel st,
    combine_columns left_df left_match_cols = Ok (Series (left_text res))
    ∧ combine_columns right_df right_match_cols = Ok (Series (right_text res))
    ∧ df_select left_df left_output_cols = Ok lsel
    ∧ df_select right_df right_output_cols = Ok rsel
    ∧ similarity_prefix rt (left_text res) (right_text res)
        (to_records (df_len left_df) lsel) (to_records (df_len right_df) rsel)
        right_output_cols threshold include_unmatched prefer_rapidfuzz
        progress_callback progress_update_every (df_len left_df) = Ok st
    ∧ result_df res = st_rows st
    ∧ best_scores res = st_best_scores st
    ∧ best_positions res = st_best_positions st
    ∧ exact_match_count res = st_exact_match_count st
    ∧ candidate_comparisons res = st_candidate_comparisons st
    ∧ calls = st_calls st.
Proof.
  unfold run_matching. intros ->. simpl. intros H.
  apply bind_Ok in H as (ltx & Hlt & H). apply bind_Ok in H as (rtx & Hrt & H).
  apply bind_Ok in H as (lsel & Hl & H). apply bind_Ok in H as (rsel & Hr & H).
  apply bind_Ok in H as (ltv & Hltv & H). apply bind_Ok in H as (rtv & Hrtv & H).
  apply tolist_Ok in Hltv, Hrtv. subst ltx rtx.
  apply bind_Ok in H as (st & Hst & [= <- <-]). simpl.
  rewrite (length_combine_columns _ _ _ Hlt) in Hst.
  exists lsel, rsel, st. repeat split; assumption || reflexivity.
Qed.

End Runs.

(** ** Bounds of the positions the loop handles *)

Section SimilarityBounds.
Variable rt : Runtime.
Hypothesis Hiter : set_iter_ok rt.
Variable right_text_values : list string.
Variable use_rapidfuzz : bool.
Variables left_output_records right_output_records : list (dict scalar).
Variable right_output_cols : list string.
Variable threshold : Q.
Variables include_unmatched progress_callback : bool.
Variable progress_update_every : Z.
Variable total_rows : nat.
Hypothesis Hright : length right_output_records = length right_text_values.

Local Abbreviation decide_row :=
  (match_row rt (build_token_index right_text_values)
     (build_exact_index right_text_values) right_text_values use_rapidfuzz).
Local Abbreviation loop :=
  (similarity_loop rt (build_token_index right_text_values)
     (build_exact_index right_text_values) right_text_values use_rapidfuzz
     left_output_records right_output_records right_output_cols threshold
     include_unmatched progress_callback progress_update_every total_rows).

Lemma set_iter_elem (s : gset nat) (p : nat) : p ∈ set_iter rt s ↔ p ∈ s.
Proof using Hiter. now rewrite (Hiter s), elem_of_elements. Qed.

Lemma set_iter_length (s : gset nat) : length (set_iter rt s) = size s.
Proof using Hiter. now rewrite (Hiter s). Qed.

Lemma exact_index_head (t : string) (ps : list nat) :
  build_exact_index right_text_values !! t = Some ps →
  ∃ p, head ps = Some p ∧ right_text_values !! p = Some t
       ∧ ∀ j, j < p → right_text_values !! j ≠ Some t.
Proof.
  rewrite exact_index_lookup. destruct (decide (t = "")); [discriminate|].
  destruct (positions_of t right_text_values) as [|p r] eqn:E; [discriminate|].
  intros [= <-]. exists p. split; [reflexivity|].
  apply positions_of_head. now rewrite E.
Qed.

Lemma match_row_bound (t : string) (d : decision) (p : nat) :
  decide_row t = Ok d → best_right_pos d = Some p →
  p < length right_text_values.
Proof using Hiter.
  intros Hd Hp.
  destruct (build_exact_index right_text_values !! t) as [ps|] eqn:E.
  - destruct (match_row_hit _ _ _ _ _ _ _ _ E Hd) as (q & Hq & ->).
    injection Hp as ->.
    destruct (exact_index_head _ _ E) as (q & Hq' & Hlook & _).
    assert (q = p) by congruence. subst q. now apply lookup_lt_Some in Hlook.
  - destruct (match_row_miss _ _ _ _ _ _ _ E Hd) as (_ & _ & Hin).
    apply Hin, set_iter_elem in Hp. now apply token_candidates_bound in Hp.
Qed.

Lemma match_row_total (t : string) : ∃ d, decide_row t = Ok d.
Proof using Hiter.
  destruct (build_exact_index right_text_values !! t) as [ps|] eqn:E.
  - destruct (exact_index_head _ _ E) as (p & Hp & _).
    destruct ps as [|q r]; [discriminate|]. eexists.
    eapply match_row_exact. exact E.
  - unfold match_row. rewrite E.
    destruct (decide (list_to_set (PyStr.split t) = ∅)); [eauto|].
    destruct (score_loop_total rt right_text_values use_rapidfuzz t
                (set_iter rt (candidate_positions
                                (build_token_index right_text_values)
                                (list_to_set (PyStr.split t))))
                (0, 0%Q, None)) as [acc Hacc].
    + intros p Hp. apply set_iter_elem in Hp.
      rewrite candidate_positions_spec in Hp.
      now apply token_candidates_bound in Hp.
    + rewrite Hacc. simpl. eauto.
Qed.

Lemma output_row_total (i : nat) (d : decision) :
  i < length left_output_records →
  (∀ p, best_right_pos d = Some p → p < length right_output_records) →
  ∃ row, output_row rt left_output_records right_output_records
           right_output_cols threshold i d = Ok row.
Proof.
  intros Hi Hp. unfold output_row.
  destruct (index_lt left_output_records i Hi) as (lrec & -> & _). simpl.
  destruct (is_matched threshold d); [|simpl; eauto].
  destruct (best_right_pos d) as [p|]; [|simpl; eauto].
  destruct (index_lt right_output_records p) as (rrec & -> & _);
    [now apply Hp|]. simpl. eauto.
Qed.

(** Every index of the loop is inside its list: a run of the loop
    ends with a state, or with the division by zero of a tick. *)
Lemma similarity_loop_total (left_text_values : list string)
    (st0 : loop_state) (k : nat) :
  length left_output_records = length left_text_values →
  k ≤ length left_text_values →
  (∃ st, loop (take k (enumerate left_text_values)) st0 = Ok st)
  ∨ loop (take k (enumerate left_text_values)) st0 = Raise ZeroDivisionError.
Proof using Hiter Hright.
  intros Hleft. unfold similarity_loop. induction k as [|k IH]; intros Hk.
  - left. simpl. eauto.
  - destruct (lookup_lt_is_Some_2 left_text_values k) as [t Ht]; [lia|].
    rewrite (take_S_r _ _ _ (enumerate_lookup _ _ _ Ht)), foldM_snoc.
    destruct IH as [[st1 ->]| ->]; [lia | | now right]. simpl.
    unfold similarity_step. destruct (match_row_total t) as [d Hd].
    rewrite Hd. simpl.
    destruct (output_row_total k d) as [row Hrow]; [lia | |].
    { intros p Hp. rewrite Hright. exact (match_row_bound _ _ _ Hd Hp). }
    destruct (progress_tick_total progress_callback progress_update_every
                total_rows k (st_calls st1)) as [[c Hc]|[Hc _]].
    + left. destruct (is_matched threshold d || include_unmatched);
        [rewrite Hrow|]; simpl; rewrite Hc; simpl; eauto.
    + right. destruct (is_matched threshold d || include_unmatched);
        [rewrite Hrow|]; simpl; rewrite Hc; reflexivity.
Qed.

End SimilarityBounds.

(** ** Prefixes of a run *)

Section Prefixes.

Lemma foldM_take_Ok {A B : Type} (f : A → B → result A) (l : list B)
    (a b : A) (k : nat) :
  foldM f l a = Ok b → ∃ c, foldM f (take k l) a = Ok c.
Proof.
  rewrite <- (take_drop k l) at 1. rewrite foldM_app. intros H.
  apply bind_Ok in H as (c & Hc & _). eauto.
Qed.

Variable rt : Runtime.
Variables left_text_values right_text_values : list string.
Variables left_output_records right_output_records : list (dict scalar).
Variable right_output_cols : list string.
Variable threshold : Q.
Variables include_unmatched prefer_rapidfuzz progress_callback : bool.
Variable progress_update_every : option Z.

Local Abbreviation prefix :=
  (similarity_prefix rt left_text_values right_text_values
     left_output_records right_output_records right_output_cols threshold
     include_unmatched prefer_rapidfuzz progress_callback
     progress_update_every).
Local Abbreviation decide_row :=
  (match_row rt (build_token_index right_text_values)
     (build_exact_index right_text_values) right_text_values
     (prefer_rapidfuzz && rapidfuzz_available rt)).

(** Row [i] of a run that ended: the states before and after it. *)
Lemma similarity_prefix_row (st_end : loop_state) (i : nat) (t : string) :
  prefix (length left_text_values) = Ok st_end →
  left_text_values !! i = Some t →
  ∃ st st' d,
    prefix i = Ok st ∧ prefix (S i) = Ok st' ∧ decide_row t = Ok d
    ∧ st_exact_match_count st' =
        st_exact_match_count st + (if exact_hit d then 1 else 0)
    ∧ st_candidate_comparisons st' = st_candidate_comparisons st + comparisons d.
Proof.
  unfold similarity_prefix, similarity_loop. intros Hend Ht.
  rewrite take_ge in Hend by (rewrite length_enumerate; lia).
  destruct (foldM_take_Ok _ _ _ _ (S i) Hend) as [st' Hst'].
  pose proof Hst' as Hstep.
  rewrite (take_S_r _ _ _ (enumerate_lookup _ _ _ Ht)), foldM_snoc in Hstep.
  apply bind_Ok in Hstep as (st & Hst & Hstep).
  apply similarity_step_Ok in Hstep as (d & [Hd _] & _ & _ & He & Hc & _).
  exists st, st', d. repeat split; assumption.
Qed.

(** A run that ended, from what was decided for its rows. *)
Lemma similarity_prefix_end (st : loop_state) :
  prefix (length left_text_values) = Ok st →
  ∃ ds,
    Forall2 (λ t d, decide_row t = Ok d
                    ∧ (is_matched threshold d = true →
                       ∃ p, best_right_pos d = Some p
                            ∧ p < length right_output_records))
      left_text_values ds
    ∧ st_best_scores st = map best_score ds
    ∧ st_best_positions st = map best_right_pos ds
    ∧ st_exact_match_count st = length (filter (λ d, exact_hit d = true) ds)
    ∧ st_candidate_comparisons st = sum_list (map comparisons ds)
    ∧ st_calls st =
        (initial_calls progress_callback (length left_text_values)
         ++ ticks progress_callback
              (resolve_update_every progress_update_every
                 (length left_text_values))
              (length left_text_values) 0 (length left_text_values))%list
    ∧ st_rows st =
        map (λ id, scored_row rt left_output_records right_output_records
                     right_output_cols threshold id.1 id.2)
          (filter (λ id : nat * decision,
                     is_matched threshold id.2 || include_unmatched = true)
             (enumerate ds)).
Proof.
  unfold similarity_prefix. intros H.
  apply similarity_loop_inv in H as (ds & HF & H); [|lia].
  rewrite take_ge in HF by lia. exists ds. split; [exact HF|]. exact H.
Qed.

End Prefixes.

(** ** Runs without similarity *)

Lemma disabled_selection (left_match_cols right_match_cols : list string) :
  left_match_cols = [] ∨ right_match_cols = [] →
  truthy left_match_cols && truthy right_match_cols = false.
Proof. intros [-> | ->]; [reflexivity | apply andb_false_r]. Qed.

Lemma fixed_fields_not_prefixed (c : string) :
  "Similarity_Score" ≠ "Left_" +:+ c ∧ "Similarity_Score" ≠ "Right_" +:+ c
  ∧ "Match_Status" ≠ "Left_" +:+ c ∧ "Match_Status" ≠ "Right_" +:+ c.
Proof. simpl. repeat split; discriminate. Qed.

(** C10: when either selection of match columns is empty, the result
    of a run has empty [best_scores] and [best_positions], both counters
    at zero, the engine named "disabled" and no match column used. *)
Theorem disabled_result_fields (rt : Runtime) (left_df right_df : DataFrame)
    (left_output_cols right_output_cols left_match_cols right_match_cols : list string)
    (threshold : Q) (include_unmatched prefer_rapidfuzz progress_callback : bool)
    (progress_update_every : option Z)
    (res : MatchResult) (calls : list (nat * nat)) :
  left_match_cols = [] ∨ right_match_cols = [] →
  run_matching rt left_df right_df left_output_cols right_output_cols
    left_match_cols right_match_cols threshold include_unmatched
    prefer_rapidfuzz progress_callback progress_update_every = Ok (res, calls) →
  best_scores res = [] ∧ best_positions res = []
  ∧ exact_match_count res = 0 ∧ candidate_comparisons res = 0
  ∧ similarity_engine res = "disabled" ∧ similarity_enabled res = false
  ∧ left_match_columns_used res = [] ∧ right_match_columns_used res = [].
Proof.
  intros Hsel Hrun. apply disabled_selection in Hsel.
  destruct (run_disabled _ _ _ _ _ _ _ _ _ _ _ _ _ _ Hsel Hrun)
    as (lsel & rsel & _ & _ & _ & _ & Hs & Hp & _ & _ & Hen & Heng & He & Hc
        & Hl & Hr).
  repeat split; assumption.
Qed.

(** C5: when either selection of match columns is empty, the run is the
    positional merge.  The rows come from the left positions, in order,
    that have a right row at the same position or are kept by
    [include_unmatched]; the row of position [i] holds each left output
    column under [Left_], each right output column under [Right_] (the
    value of the right row [i], or a missing value when there is no such
    row), and neither [Similarity_Score] nor [Match_Status]; and the run
    is the same for every threshold and every preference of engine. *)
Theorem positional_merge (rt : Runtime) (left_df right_df : DataFrame)
    (left_output_cols right_output_cols left_match_cols right_match_cols : list string)
    (threshold : Q) (include_unmatched prefer_rapidfuzz progress_callback : bool)
    (progress_update_every : option Z)
    (res : MatchResult) (calls : list (nat * nat)) :
  left_match_cols = [] ∨ right_match_cols = [] →
  run_matching rt left_df right_df left_output_cols right_output_cols
    left_match_cols right_match_cols threshold include_unmatched
    prefer_rapidfuzz progress_callback progress_update_every = Ok (res, calls) →
  (∃ row : nat → dict obj,
     result_df res =
       map row (filter (λ i, i < df_len right_df ∨ include_unmatched = true)
                  (seq 0 (df_len left_df)))
     ∧ ∀ i,
         (∀ c, c ∈ left_output_cols →
               ∃ f, df_column left_df c = Ok f
                    ∧ dict_get ("Left_" +:+ c) (row i) = Some (Cell (f i)))
         ∧ (∀ c, c ∈ right_output_cols →
                 ∃ f, df_column right_df c = Ok f
                      ∧ dict_get ("Right_" +:+ c) (row i) =
                          Some (Cell (if decide (i < df_len right_df)
                                      then f i else NA)))
         ∧ dict_get "Similarity_Score" (row i) = None
         ∧ dict_get "Match_Status" (row i) = None)
  ∧ ∀ (threshold' : Q) (prefer_rapidfuzz' : bool),
      run_matching rt left_df right_df left_output_cols right_output_cols
        left_match_cols right_match_cols threshold' include_unmatched
        prefer_rapidfuzz' progress_callback progress_update_every
      = Ok (res, calls).
Proof.
  intros Hsel Hrun. apply disabled_selection in Hsel. split.
  - destruct (run_disabled _ _ _ _ _ _ _ _ _ _ _ _ _ _ Hsel Hrun)
      as (lsel & rsel & Hl & Hr & Hrows & _).
    exists (positional_row lsel rsel (df_len right_df) right_output_cols).
    split; [exact Hrows|]. intros i. unfold positional_row. repeat split.
    + intros c Hc. destruct (selected_column _ _ _ Hl c Hc) as (f & Hf & _).
      exists f. split; [exact Hf|].
      exact (merged_row_left _ _ _ _ Hl _ _ _ _ Hc Hf).
    + intros c Hc. destruct (selected_column _ _ _ Hr c Hc) as (f & Hf & _).
      exists f. split; [exact Hf|].
      destruct (decide (i < df_len right_df)).
      * exact (merged_row_right _ _ _ Hr _ _ _ _ Hc Hf).
      * now apply merged_row_right_missing.
    + apply merged_row_other; intros c; apply fixed_fields_not_prefixed.
    + apply merged_row_other; intros c; apply fixed_fields_not_prefixed.
  - intros threshold' prefer'. rewrite <- Hrun. unfold run_matching.
    rewrite Hsel. reflexivity.
Qed.

(** ** Runs with similarity *)

(** A run with similarity, from what was decided for its rows. *)
Lemma run_decisions (rt : Runtime) (left_df right_df : DataFrame)
    (left_output_cols right_output_cols left_match_cols right_match_cols : list string)
    (threshold : Q) (include_unmatched prefer_rapidfuzz progress_callback : bool)
    (progress_update_every : option Z)
    (res : MatchResult) (calls : list (nat * nat)) :
  truthy left_match_cols && truthy right_match_cols = true →
  run_matching rt left_df right_df left_output_cols right_output_cols
    left_match_cols right_match_cols threshold include_unmatched
    prefer_rapidfuzz progress_callback progress_update_every = Ok (res, calls) →
  ∃ lsel rsel ds,
    df_select left_df left_output_cols = Ok lsel
    ∧ df_select right_df right_output_cols = Ok rsel
    ∧ length (left_text res) = df_len left_df
    ∧ length (right_text res) = df_len right_df
    ∧ Forall2
        (λ t d,
           match_row rt (build_token_index (right_text res))
             (build_exact_index (right_text res)) (right_text res)
             (prefer_rapidfuzz && rapidfuzz_available rt) t = Ok d
           ∧ (is_matched threshold d = true →
              ∃ p, best_right_pos d = Some p ∧ p < df_len right_df))
        (left_text res) ds
    ∧ best_scores res = map best_score ds
    ∧ best_positions res = map best_right_pos ds
    ∧ exact_match_count res = length (filter (λ d, exact_hit d = true) ds)
    ∧ candidate_comparisons res = sum_list (map comparisons ds)
    ∧ calls =
        (initial_calls progress_callback (df_len left_df)
         ++ ticks progress_callback
              (resolve_update_every progress_update_every (df_len left_df))
              (df_len left_df) 0 (df_len left_df))%list
    ∧ result_df res =
        map (λ id, scored_row rt (to_records (df_len left_df) lsel)
                     (to_records (df_len right_df) rsel)
                     right_output_cols threshold id.1 id.2)
          (filter (λ id : nat * decision,
                     is_matched threshold id.2 || include_unmatched = true)
             (enumerate ds)).
Proof.
  intros Hen Hrun.
  destruct (run_enabled _ _ _ _ _ _ _ _ _ _ _ _ _ _ Hen Hrun)
    as (lsel & rsel & st & Hlt & Hrt & Hl & Hr & Hst & Hrows & Hs & Hp & He
        & Hc & Hcalls).
  pose proof (length_combine_columns _ _ _ Hlt) as Hllen.
  pose proof (length_combine_columns _ _ _ Hrt) as Hrlen.
  rewrite <- Hllen in Hst. apply similarity_prefix_end in Hst
    as (ds & HF & Hs' & Hp' & He' & Hc' & Hcalls' & Hrows').
  rewrite length_to_records in HF. rewrite Hllen in Hcalls', Hrows'.
  exists lsel, rsel, ds. repeat split; try assumption; congruence.
Qed.

(** The calls of a whole run, with or without similarity. *)
Lemma run_calls (rt : Runtime) (left_df right_df : DataFrame)
    (left_output_cols right_output_cols left_match_cols right_match_cols : list string)
    (threshold : Q) (include_unmatched prefer_rapidfuzz progress_callback : bool)
    (progress_update_every : option Z)
    (res : MatchResult) (calls : list (nat * nat)) :
  run_matching rt left_df right_df left_output_cols right_output_cols
    left_match_cols right_match_cols threshold include_unmatched
    prefer_rapidfuzz progress_callback progress_update_every = Ok (res, calls) →
  calls =
    (initial_calls progress_callback (df_len left_df)
     ++ ticks progress_callback
          (resolve_update_every progress_update_every (df_len left_df))
          (df_len left_df) 0 (df_len left_df))%list.
Proof.
  intros Hrun.
  destruct (truthy left_match_cols && truthy right_match_cols) eqn:Hen.
  - destruct (run_decisions _ _ _ _ _ _ _ _ _ _ _ _ _ _ Hen Hrun)
      as (lsel & rsel & ds & _ & _ & _ & _ & _ & _ & _ & _ & _ & Hcalls & _).
    exact Hcalls.
  - destruct (run_disabled _ _ _ _ _ _ _ _ _ _ _ _ _ _ Hen Hrun)
      as (lsel & rsel & _ & _ & _ & Hcalls & _).
    exact Hcalls.
Qed.

Lemma ticks_last (progress_update_every : Z) (n : nat) :
  0 < n → last (ticks true progress_update_every n 0 n) = Some (n, n).
Proof.
  intros Hn. destruct n as [|n]; [lia|]. rewrite ticks_S, ticks_one. simpl.
  rewrite (bool_decide_eq_true_2 (S n = S n)) by reflexivity.
  rewrite orb_true_r. apply last_snoc.
Qed.

(** C7: with a progress callback and the default interval, the calls
    of a run begin with [(0, total)], end with [(total, total)], and
    hold [(d, total)] for every count [d] of processed rows that is a
    multiple of [max(total // 200, 1)]; in full, they are the first call
    followed by the calls for the counts from 1 to [total] that are such
    a multiple or the total.  [total] is the number of left rows. *)
Theorem progress_reporting (rt : Runtime) (left_df right_df : DataFrame)
    (left_output_cols right_output_cols left_match_cols right_match_cols : list string)
    (threshold : Q) (include_unmatched prefer_rapidfuzz : bool)
    (res : MatchResult) (calls : list (nat * nat)) :
  run_matching rt left_df right_df left_output_cols right_output_cols
    left_match_cols right_match_cols threshold include_unmatched
    prefer_rapidfuzz true None = Ok (res, calls) →
  let total := df_len left_df in
  let interval := Z.max (Z.of_nat total / 200) 1 in
  head calls = Some (0, total)
  ∧ last calls = Some (total, total)
  ∧ (∀ d, 1 ≤ d ≤ total → Z.modulo (Z.of_nat d) interval = 0%Z →
          (d, total) ∈ calls)
  ∧ calls =
      (0, total)
      :: map (λ d, (d, total))
           (filter (λ d, Z.modulo (Z.of_nat d) interval = 0%Z ∨ d = total)
              (seq 1 total)).
Proof.
  intros Hrun total interval. apply run_calls in Hrun.
  unfold initial_calls, resolve_update_every, default_update_every in Hrun.
  fold total in Hrun. fold interval in Hrun. subst calls. repeat split.
  - destruct (decide (total = 0)) as [E|E].
    + rewrite E. reflexivity.
    + rewrite last_app, ticks_last by lia. reflexivity.
  - intros d Hd Hmod. right. unfold ticks.
    apply list_elem_of_fmap. exists d. split; [reflexivity|].
    apply list_elem_of_filter. split; [now left|]. apply elem_of_seq. lia.
Qed.

(** What was decided for one left row of a run with similarity. *)
Lemma run_row (rt : Runtime) (left_df right_df : DataFrame)
    (left_output_cols right_output_cols left_match_cols right_match_cols : list string)
    (threshold : Q) (include_unmatched prefer_rapidfuzz progress_callback : bool)
    (progress_update_every : option Z)
    (res : MatchResult) (calls : list (nat * nat)) (i : nat) (t : string) :
  similarity_enabled res = true →
  run_matching rt left_df right_df left_output_cols right_output_cols
    left_match_cols right_match_cols threshold include_unmatched
    prefer_rapidfuzz progress_callback progress_update_every = Ok (res, calls) →
  left_text res !! i = Some t →
  ∃ d, match_row rt (build_token_index (right_text res))
         (build_exact_index (right_text res)) (right_text res)
         (prefer_rapidfuzz && rapidfuzz_available rt) t = Ok d
       ∧ best_scores res !! i = Some (best_score d)
       ∧ best_positions res !! i = Some (best_right_pos d).
Proof.
  intros Hen Hrun Ht. rewrite (run_similarity_enabled _ _ _ _ _ _ _ _ _ _ _ _ _ _ Hrun) in Hen.
  destruct (run_decisions _ _ _ _ _ _ _ _ _ _ _ _ _ _ Hen Hrun)
    as (lsel & rsel & ds & _ & _ & _ & _ & HF & Hs & Hp & _).
  destruct (Forall2_lookup_l _ _ _ _ _ HF Ht) as (d & Hd & Hrow & _).
  exists d. rewrite Hs, Hp, !list_lookup_fmap, Hd. repeat split. exact Hrow.
Qed.

(** C3: in a run with similarity, a left row whose normalized text is
    empty gets the score 0.0 and no position, whatever the right
    dataset holds. *)
Theorem empty_left_text_no_match (rt : Runtime) (left_df right_df : DataFrame)
    (left_output_cols right_output_cols left_match_cols right_match_cols : list string)
    (threshold : Q) (include_unmatched prefer_rapidfuzz progress_callback : bool)
    (progress_update_every : option Z)
    (res : MatchResult) (calls : list (nat * nat)) (i : nat) :
  similarity_enabled res = true →
  run_matching rt left_df right_df left_output_cols right_output_cols
    left_match_cols right_match_cols threshold include_unmatched
    prefer_rapidfuzz progress_callback progress_update_every = Ok (res, calls) →
  left_text res !! i = Some "" →
  best_scores res !! i = Some 0%Q ∧ best_positions res !! i = Some None.
Proof.
  intros Hen Hrun Ht.
  destruct (run_row _ _ _ _ _ _ _ _ _ _ _ _ _ _ _ _ Hen Hrun Ht)
    as (d & Hd & Hs & Hp).
  rewrite match_row_no_tokens in Hd.
  - injection Hd as <-. split; assumption.
  - rewrite exact_index_lookup. reflexivity.
  - reflexivity.
Qed.

(** C1, amended: in a run with similarity, a left row whose normalized
    text is not empty and equals the text of some right row gets the
    score 1.0, the first right position that holds this text as its
    best position, and the status Matched for every threshold up to
    1.0; handling the row adds one to the exact-match counter and
    nothing to the counter of candidate comparisons. *)
Theorem exact_match_fast_path (rt : Runtime) (left_df right_df : DataFrame)
    (left_output_cols right_output_cols left_match_cols right_match_cols : list string)
    (threshold : Q) (include_unmatched prefer_rapidfuzz progress_callback : bool)
    (progress_update_every : option Z)
    (res : MatchResult) (calls : list (nat * nat)) (i : nat) (t : string) :
  similarity_enabled res = true →
  run_matching rt left_df right_df left_output_cols right_output_cols
    left_match_cols right_match_cols threshold include_unmatched
    prefer_rapidfuzz progress_callback progress_update_every = Ok (res, calls) →
  left_text res !! i = Some t →
  t ∈ right_text res →
  t ≠ "" →
  (threshold <= 1)%Q →
  ∃ p st st',
    right_text res !! p = Some t
    ∧ (∀ j, j < p → right_text res !! j ≠ Some t)
    ∧ best_scores res !! i = Some 1%Q
    ∧ best_positions res !! i = Some (Some p)
    ∧ row_matched res threshold i = true
    ∧ matching_prefix rt left_df right_df left_output_cols right_output_cols
        left_match_cols right_match_cols threshold include_unmatched
        prefer_rapidfuzz progress_callback progress_update_every i = Ok st
    ∧ matching_prefix rt left_df right_df left_output_cols right_output_cols
        left_match_cols right_match_cols threshold include_unmatched
        prefer_rapidfuzz progress_callback progress_update_every (S i) = Ok st'
    ∧ st_exact_match_count st' = S (st_exact_match_count st)
    ∧ st_candidate_comparisons st' = st_candidate_comparisons st.
Proof.
  intros Hen Hrun Ht Hin Hne Hth.
  destruct (run_row _ _ _ _ _ _ _ _ _ _ _ _ _ _ _ _ Hen Hrun Ht)
    as (d & Hd & Hs & Hp).
  rewrite (run_similarity_enabled _ _ _ _ _ _ _ _ _ _ _ _ _ _ Hrun) in Hen.
  destruct (run_enabled _ _ _ _ _ _ _ _ _ _ _ _ _ _ Hen Hrun)
    as (lsel & rsel & st_end & Hlt & Hrt & Hl & Hr & Hst & _).
  assert (Hkey : build_exact_index (right_text res) !! t
                 = Some (positions_of t (right_text res))).
  { rewrite exact_index_lookup. destruct (decide (t = "")); [contradiction|].
    pose proof (positions_of_nonempty _ _ Hin).
    destruct (positions_of t (right_text res)); [contradiction | reflexivity]. }
  destruct (match_row_hit _ _ _ _ _ _ _ _ Hkey Hd) as (p & Hhead & ->).
  apply positions_of_head in Hhead as [Hlook Hmin].
  assert (Hend : similarity_prefix rt (left_text res) (right_text res)
                   (to_records (df_len left_df) lsel)
                   (to_records (df_len right_df) rsel) right_output_cols
                   threshold include_unmatched prefer_rapidfuzz
                   progress_callback progress_update_every
                   (length (left_text res)) = Ok st_end)
    by (rewrite (length_combine_columns _ _ _ Hlt); exact Hst).
  destruct (similarity_prefix_row _ _ _ _ _ _ _ _ _ _ _ _ i t Hend Ht)
    as (st & st' & d' & Hpre & Hpost & Hd' & He & Hc).
  assert (d' = {| best_score := 1%Q; best_right_pos := Some p;
                  exact_hit := true; comparisons := 0 |}) by congruence.
  subst d'. simpl in *. exists p, st, st'.
  unfold matching_prefix, row_matched. rewrite Hlt, Hrt, Hl, Hr, Hs, Hp. simpl.
  repeat split; try assumption; try lia.
  now apply Qle_bool_iff.
Qed.

(** The comparisons of the rows of a run, summed. *)
Lemma comparisons_sum (rt : Runtime) (token_index : gmap string (gset nat))
    (exact_index : gmap string (list nat)) (right_text_values : list string)
    (use_rapidfuzz : bool) (R : string → decision → Prop)
    (texts : list string) (ds : list decision) :
  set_iter_ok rt →
  (∀ t d, R t d → match_row rt token_index exact_index right_text_values
                    use_rapidfuzz t = Ok d) →
  Forall2 R texts ds →
  sum_list (map comparisons ds) =
  sum_list (map (λ t, size (token_candidates token_index t))
              (filter (λ t, exact_index !! t = None) texts)).
Proof.
  intros Hiter HR HF. induction HF as [|t d texts ds Hd HF IH]; [reflexivity|].
  apply HR in Hd. rewrite filter_cons. simpl. rewrite IH.
  destruct (exact_index !! t) as [ps|] eqn:E.
  - destruct (match_row_hit _ _ _ _ _ _ _ _ E Hd) as (p & _ & ->).
    destruct (decide (Some ps = None)); [discriminate | reflexivity].
  - destruct (match_row_miss _ _ _ _ _ _ _ E Hd) as (_ & Hc & _).
    destruct (decide (None = None)); [|contradiction]. simpl. rewrite Hc.
    destruct (decide (PyStr.split t = [])) as [Hs|Hs].
    + now rewrite (token_candidates_no_tokens _ _ Hs), size_empty.
    + now rewrite (set_iter_length _ Hiter).
Qed.

(** C4: after a run with similarity, the counter of candidate
    comparisons is the sum, over the left rows whose text is no key of
    the exact index, of the size of the row's candidate set (the union,
    over the tokens of the row, of the posting sets of the token
    index). *)
Theorem candidate_comparisons_sum (rt : Runtime) (left_df right_df : DataFrame)
    (left_output_cols right_output_cols left_match_cols right_match_cols : list string)
    (threshold : Q) (include_unmatched prefer_rapidfuzz progress_callback : bool)
    (progress_update_every : option Z)
    (res : MatchResult) (calls : list (nat * nat)) :
  set_iter_ok rt →
  similarity_enabled res = true →
  run_matching rt left_df right_df left_output_cols right_output_cols
    left_match_cols right_match_cols threshold include_unmatched
    prefer_rapidfuzz progress_callback progress_update_every = Ok (res, calls) →
  candidate_comparisons res =
  sum_list
    (map (λ t, size (token_candidates (build_token_index (right_text res)) t))
       (filter (λ t, build_exact_index (right_text res) !! t = None)
          (left_text res))).
Proof.
  intros Hiter Hen Hrun.
  rewrite (run_similarity_enabled _ _ _ _ _ _ _ _ _ _ _ _ _ _ Hrun) in Hen.
  destruct (run_decisions _ _ _ _ _ _ _ _ _ _ _ _ _ _ Hen Hrun)
    as (lsel & rsel & ds & _ & _ & _ & _ & HF & _ & _ & _ & Hc & _).
  rewrite Hc. eapply comparisons_sum; [exact Hiter | | exact HF].
  intros t d [Hd _]. exact Hd.
Qed.

(** ** No index out of range *)

Lemma df_select_raise (df : DataFrame) (cols : list string) (e : exn) :
  df_select df cols = Raise e → e ≠ IndexError.
Proof.
  unfold df_select. induction cols as [|c r IH]; simpl; [discriminate|].
  unfold df_column. destruct (df_columns df !! c); simpl.
  - destruct (mapM_result _ r) as [bs|e']; simpl; [discriminate|].
    intros [= <-]. now apply IH.
  - intros [= <-]. discriminate.
Qed.

Lemma combine_columns_raise (df : DataFrame) (cols : list string) (e : exn) :
  combine_columns df cols = Raise e → e ≠ IndexError.
Proof.
  unfold combine_columns. destruct cols as [|c r]; [discriminate|].
  destruct (df_select df (c :: r)) as [sel|e'] eqn:E; simpl.
  - destruct (decide (df_len df = 0)); discriminate.
  - intros [= <-]. exact (df_select_raise _ _ _ E).
Qed.

(** C9: every position in [best_positions] is an index of the right
    dataset, and no lookup of the engine leaves its list: a run never
    raises [IndexError]. *)
Theorem best_positions_in_bounds (rt : Runtime) (left_df right_df : DataFrame)
    (left_output_cols right_output_cols left_match_cols right_match_cols : list string)
    (threshold : Q) (include_unmatched prefer_rapidfuzz progress_callback : bool)
    (progress_update_every : option Z) :
  set_iter_ok rt →
  run_matching rt left_df right_df left_output_cols right_output_cols
    left_match_cols right_match_cols threshold include_unmatched
    prefer_rapidfuzz progress_callback progress_update_every ≠ Raise IndexError
  ∧ ∀ res calls i p,
      run_matching rt left_df right_df left_output_cols right_output_cols
        left_match_cols right_match_cols threshold include_unmatched
        prefer_rapidfuzz progress_callback progress_update_every
      = Ok (res, calls) →
      best_positions res !! i = Some (Some p) →
      p < df_len right_df ∧ p < length (right_text res).
Proof.
  intros Hiter. split.
  - unfold run_matching.
    destruct (combine_columns left_df _) as [ltx|e] eqn:Hlt; simpl;
      [|intros [= ->]; now apply combine_columns_raise in Hlt].
    destruct (combine_columns right_df _) as [rtx|e] eqn:Hrt; simpl;
      [|intros [= ->]; now apply combine_columns_raise in Hrt].
    destruct (df_select left_df _) as [lsel|e] eqn:Hl; simpl;
      [|intros [= ->]; now apply df_select_raise in Hl].
    destruct (df_select right_df _) as [rsel|e] eqn:Hr; simpl;
      [|intros [= ->]; now apply df_select_raise in Hr].
    destruct (truthy left_match_cols && truthy right_match_cols) eqn:Hen; simpl.
    + destruct ltx as [ltx|]; simpl; [|discriminate].
      destruct rtx as [rtx|]; simpl; [|discriminate].
      unfold similarity_prefix.
      destruct (similarity_loop_total rt Hiter rtx
                  (prefer_rapidfuzz && rapidfuzz_available rt)
                  (to_records (df_len left_df) lsel)
                  (to_records (df_len right_df) rsel)
                  right_output_cols threshold include_unmatched
                  progress_callback
                  (resolve_update_every progress_update_every (length ltx))
                  (length ltx)
                  ltac:(rewrite length_to_records;
                        now rewrite (length_combine_columns _ _ _ Hrt))
                  ltx
                  {| st_rows := []; st_best_scores := [];
                     st_best_positions := []; st_exact_match_count := 0;
                     st_candidate_comparisons := 0;
                     st_calls := initial_calls progress_callback (length ltx) |}
                  (length ltx)) as [[st Hst]|Hst]; try lia.
      * rewrite length_to_records.
        now rewrite (length_combine_columns _ _ _ Hlt).
      * rewrite Hst. discriminate.
      * rewrite Hst. discriminate.
    + destruct (positional_loop_total
                  (to_records (df_len left_df) lsel)
                  (to_records (df_len right_df) rsel) right_output_cols
                  include_unmatched progress_callback
                  (resolve_update_every progress_update_every
                     (length (to_records (df_len left_df) lsel)))
                  (length (to_records (df_len left_df) lsel))
                  (length (to_records (df_len left_df) lsel))
                  ([], initial_calls progress_callback
                         (length (to_records (df_len left_df) lsel))))
        as [[st Hst]|Hst]; try lia.
      * unfold positional_loop in Hst |- *. rewrite Hst. discriminate.
      * unfold positional_loop in Hst |- *. rewrite Hst. discriminate.
  - intros res calls i p Hrun Hp.
    destruct (truthy left_match_cols && truthy right_match_cols) eqn:Hen.
    + destruct (run_decisions _ _ _ _ _ _ _ _ _ _ _ _ _ _ Hen Hrun)
        as (lsel & rsel & ds & _ & _ & _ & Hrlen & HF & _ & Hpos & _).
      rewrite Hpos, list_lookup_fmap in Hp.
      destruct (ds !! i) as [d|] eqn:Hd; [|discriminate].
      injection Hp as Hp.
      destruct (Forall2_lookup_r _ _ _ _ _ HF Hd) as (t & _ & Hrow & _).
      pose proof (match_row_bound rt Hiter _ _ _ _ _ Hrow Hp) as Hb.
      split; [now rewrite <- Hrlen | exact Hb].
    + destruct (run_disabled _ _ _ _ _ _ _ _ _ _ _ _ _ _ Hen Hrun)
        as (lsel & rsel & _ & _ & _ & _ & _ & Hpos & _).
      rewrite Hpos in Hp. discriminate.
Qed.

(** ** The rows of a run with similarity *)

Lemma map_filter_enumerate {A B : Type} (l : list A)
    (P : nat * A → Prop) `{∀ x, Decision (P x)}
    (Q : nat → Prop) `{∀ i, Decision (Q i)}
    (g : nat * A → B) (g' : nat → B) :
  (∀ i a, l !! i = Some a → (P (i, a) ↔ Q i) ∧ g (i, a) = g' i) →
  map g (filter P (enumerate l)) = map g' (filter Q (seq 0 (length l))).
Proof.
  induction l as [|a l IH] using rev_ind; intros Hl; [reflexivity|].
  rewrite enumerate_snoc, length_app. simpl. rewrite Nat.add_1_r, seq_S.
  rewrite !filter_app, !map_app. f_equal.
  - apply IH. intros i b Hb. apply Hl. rewrite lookup_app_l; [exact Hb|].
    now apply lookup_lt_Some in Hb.
  - destruct (Hl (length l) a) as [HPQ Hg];
      [now rewrite list_lookup_middle|].
    rewrite !filter_cons, !filter_nil. simpl.
    destruct (decide (P (length l, a))), (decide (Q (length l)));
      simpl; try tauto. now rewrite Hg.
Qed.

Lemma row_matched_decision (res : MatchResult) (threshold : Q) (i : nat)
    (d : decision) :
  best_scores res !! i = Some (best_score d) →
  best_positions res !! i = Some (best_right_pos d) →
  row_matched res threshold i = is_matched threshold d.
Proof.
  unfold row_matched, is_matched. intros -> ->.
  destruct (best_right_pos d) as [p|]; reflexivity.
Qed.

(** C6: in a run with similarity, the rows come from the left
    positions, in order, that are Matched (a best position exists and
    its score reaches the threshold) or are kept by [include_unmatched];
    the row of a position holds each left output column under [Left_],
    each right output column under [Right_] (the value of the best right
    row when Matched, a missing value otherwise), the rounded score
    under [Similarity_Score] and "Matched" or "No match" under
    [Match_Status]; so there are at most as many rows as left rows. *)
Theorem similarity_rows (rt : Runtime) (left_df right_df : DataFrame)
    (left_output_cols right_output_cols left_match_cols right_match_cols : list string)
    (threshold : Q) (include_unmatched prefer_rapidfuzz progress_callback : bool)
    (progress_update_every : option Z)
    (res : MatchResult) (calls : list (nat * nat)) :
  similarity_enabled res = true →
  run_matching rt left_df right_df left_output_cols right_output_cols
    left_match_cols right_match_cols threshold include_unmatched
    prefer_rapidfuzz progress_callback progress_update_every = Ok (res, calls) →
  (∃ row : nat → dict obj,
     result_df res =
       map row
         (filter (λ i, row_matched res threshold i || include_unmatched = true)
            (seq 0 (df_len left_df)))
     ∧ ∀ i, i < df_len left_df →
         (∀ c, c ∈ left_output_cols →
               ∃ f, df_column left_df c = Ok f
                    ∧ dict_get ("Left_" +:+ c) (row i) = Some (Cell (f i)))
         ∧ (∀ c, c ∈ right_output_cols →
                 ∃ f, df_column right_df c = Ok f
                      ∧ dict_get ("Right_" +:+ c) (row i) =
                          Some (Cell
                                  (if row_matched res threshold i
                                   then match best_positions res !! i with
                                        | Some (Some p) => f p
                                        | _ => NA
                                        end
                                   else NA)))
         ∧ (∃ s, best_scores res !! i = Some s
                 ∧ dict_get "Similarity_Score" (row i)
                   = Some (Float (round rt s 4)))
         ∧ dict_get "Match_Status" (row i) =
             Some (Text (if row_matched res threshold i
                         then "Matched" else "No match")))
  ∧ length (result_df res) ≤ df_len left_df.
Proof.
  intros Hen Hrun.
  rewrite (run_similarity_enabled _ _ _ _ _ _ _ _ _ _ _ _ _ _ Hrun) in Hen.
  destruct (run_decisions _ _ _ _ _ _ _ _ _ _ _ _ _ _ Hen Hrun)
    as (lsel & rsel & ds & Hl & Hr & Hllen & Hrlen & HF & Hs & Hp & _ & _ & _
        & Hrows).
  assert (Hlen : length ds = df_len left_df)
    by (apply Forall2_length in HF; lia).
  set (d0 := {| best_score := 0%Q; best_right_pos := None;
                exact_hit := false; comparisons := 0 |}).
  set (row := λ i, scored_row rt (to_records (df_len left_df) lsel)
                     (to_records (df_len right_df) rsel) right_output_cols
                     threshold i (default d0 (ds !! i))).
  assert (Hm : ∀ i d, ds !! i = Some d →
                      row_matched res threshold i = is_matched threshold d).
  { intros i d Hd. apply row_matched_decision;
      rewrite ?Hs, ?Hp, list_lookup_fmap, Hd; reflexivity. }
  assert (Heq : result_df res =
                map row (filter (λ i, row_matched res threshold i
                                      || include_unmatched = true)
                           (seq 0 (df_len left_df)))).
  { rewrite Hrows.
    rewrite (map_filter_enumerate ds _
               (λ i, row_matched res threshold i || include_unmatched = true)
               _ row).
    - now rewrite Hlen.
    - intros i d Hd. unfold row. rewrite Hd, (Hm i d Hd). simpl.
      split; reflexivity. }
  split.
  - exists row. split; [exact Heq|]. intros i Hi.
    destruct (lookup_lt_is_Some_2 ds i) as [d Hd]; [lia|].
    destruct (Forall2_lookup_r _ _ _ _ _ HF Hd) as (t & _ & _ & Hin).
    unfold row, scored_row. rewrite Hd, (Hm i d Hd). simpl.
    rewrite to_records_lookup by exact Hi. simpl. repeat split.
    + intros c Hc. destruct (selected_column _ _ _ Hl c Hc) as (f & Hf & _).
      exists f. split; [exact Hf|].
      rewrite !dict_get_set_ne by (simpl; discriminate).
      exact (merged_row_left _ _ _ _ Hl _ _ _ _ Hc Hf).
    + intros c Hc. destruct (selected_column _ _ _ Hr c Hc) as (f & Hf & _).
      exists f. split; [exact Hf|].
      rewrite !dict_get_set_ne by (simpl; discriminate).
      destruct (is_matched threshold d) eqn:E.
      * destruct (Hin eq_refl) as (p & Hpos & Hlt).
        rewrite Hp, list_lookup_fmap, Hd, Hpos.
        replace (best_right_pos <$> Some d) with (Some (Some p))
          by (simpl; now rewrite Hpos).
        change (Some p ≫= λ q, to_records (df_len right_df) rsel !! q)
          with (to_records (df_len right_df) rsel !! p).
        rewrite to_records_lookup by exact Hlt.
        exact (merged_row_right _ _ _ Hr _ _ _ _ Hc Hf).
      * now apply merged_row_right_missing.
    + exists (best_score d). split.
      * now rewrite Hs, list_lookup_fmap, Hd.
      * rewrite dict_get_set_ne by discriminate. apply dict_get_set_eq.
    + apply dict_get_set_eq.
  - rewrite Heq, length_map.
    etransitivity; [apply length_filter|]. now rewrite length_seq.
Qed.

(** ** The contents of the exact index *)

(** C2, amended: the exact index built over the right texts maps each
    text that is not empty and occurs among them to the ascending list
    of the positions that hold it, and has no other key: the rows with
    an empty text are skipped, the empty string is no key, and a left
    row with an empty text takes no exact match (score 0.0, no
    position). *)
Theorem exact_index_contents (rt : Runtime)
    (token_index : gmap string (gset nat)) (use_rapidfuzz : bool)
    (right_text_values : list string) :
  (∀ t ps, build_exact_index right_text_values !! t = Some ps ↔
           t ≠ "" ∧ t ∈ right_text_values
           ∧ ps = positions_of t right_text_values)
  ∧ (∀ t p, p ∈ positions_of t right_text_values ↔
            right_text_values !! p = Some t)
  ∧ build_exact_index right_text_values !! "" = None
  ∧ match_row rt token_index (build_exact_index right_text_values)
      right_text_values use_rapidfuzz ""
    = Ok {| best_score := 0%Q; best_right_pos := None;
            exact_hit := false; comparisons := 0 |}.
Proof.
  assert (Hempty : build_exact_index right_text_values !! "" = None)
    by (rewrite exact_index_lookup; reflexivity).
  repeat split.
  - rewrite exact_index_lookup in H.
    destruct (decide (t = "")); [discriminate | assumption].
  - rewrite exact_index_lookup in H.
    destruct (decide (t = "")); [discriminate|].
    destruct (positions_of t right_text_values) as [|p r] eqn:E; [discriminate|].
    assert (Hp : p ∈ positions_of t right_text_values) by (rewrite E; left).
    apply positions_of_elem in Hp. apply list_elem_of_lookup. eauto.
  - rewrite exact_index_lookup in H.
    destruct (decide (t = "")); [discriminate|].
    destruct (positions_of t right_text_values); congruence.
  - intros (Hne & Hin & ->). rewrite exact_index_lookup.
    destruct (decide (t = "")); [contradiction|].
    pose proof (positions_of_nonempty _ _ Hin).
    destruct (positions_of t right_text_values); [contradiction | reflexivity].
  - apply positions_of_elem.
  - apply positions_of_elem.
  - exact Hempty.
  - now apply match_row_no_tokens.
Qed.

(** ** The properties on the sample runs *)

(** The left row 0 of the sample has the text "abc" of the right row 0. *)
Lemma exact_match_fast_path_witness :
  sample_similarity_run = Ok (sample_similarity_result, sample_calls)
  ∧ ∃ p st st',
      right_text sample_similarity_result !! p = Some "abc"
      ∧ (∀ j, j < p → right_text sample_similarity_result !! j ≠ Some "abc")
      ∧ best_scores sample_similarity_result !! 0 = Some 1%Q
      ∧ best_positions sample_similarity_result !! 0 = Some (Some p)
      ∧ row_matched sample_similarity_result (1 # 2)%Q 0 = true
      ∧ matching_prefix sample_runtime sample_left sample_right ["id"] ["city"]
          ["name"] ["name"] (1 # 2)%Q true true true None 0 = Ok st
      ∧ matching_prefix sample_runtime sample_left sample_right ["id"] ["city"]
          ["name"] ["name"] (1 # 2)%Q true true true None 1 = Ok st'
      ∧ st_exact_match_count st' = S (st_exact_match_count st)
      ∧ st_candidate_comparisons st' = st_candidate_comparisons st.
Proof.
  split; [vm_compute; reflexivity|].
  apply (exact_match_fast_path sample_runtime sample_left sample_right
           ["id"] ["city"] ["name"] ["name"] (1 # 2)%Q true true true None
           sample_similarity_result sample_calls 0 "abc").
  - reflexivity.
  - vm_compute. reflexivity.
  - reflexivity.
  - left.
  - discriminate.
  - unfold Qle. simpl. lia.
Defined.

(** The left row 1 of the sample has the empty text of the right row 1,
    and is given the score 0.0 and no position: no exact match. *)
Lemma exact_match_empty_text_counterexample :
  sample_similarity_run = Ok (sample_similarity_result, sample_calls)
  ∧ similarity_enabled sample_similarity_result = true
  ∧ left_text sample_similarity_result !! 1 = Some ""
  ∧ right_text sample_similarity_result !! 1 = Some ""
  ∧ best_scores sample_similarity_result !! 1 = Some 0%Q
  ∧ best_scores sample_similarity_result !! 1 ≠ Some 1%Q
  ∧ best_positions sample_similarity_result !! 1 = Some None
  ∧ row_matched sample_similarity_result (1 # 2)%Q 1 = false
  ∧ exact_match_count sample_similarity_result = 1.
Proof.
  split; [vm_compute; reflexivity|]. repeat split. discriminate.
Qed.

(** Over the right texts "abc" and the empty text, the empty string is
    no key of the exact index although position 1 holds it, and a left
    row with the empty text is given the score 0.0 and no position. *)
Lemma exact_index_empty_text_counterexample :
  positions_of "" ["abc"; ""] = [1]
  ∧ build_exact_index ["abc"; ""] !! "" = None
  ∧ build_exact_index ["abc"; ""] !! "" ≠ Some [1]
  ∧ match_row sample_runtime (build_token_index ["abc"; ""])
      (build_exact_index ["abc"; ""]) ["abc"; ""] false ""
    = Ok {| best_score := 0%Q; best_right_pos := None;
            exact_hit := false; comparisons := 0 |}.
Proof.
  repeat split; try (vm_compute; reflexivity). vm_compute. discriminate.
Qed.

Lemma empty_left_text_no_match_witness :
  left_text sample_similarity_result !! 1 = Some ""
  ∧ best_scores sample_similarity_result !! 1 = Some 0%Q
  ∧ best_positions sample_similarity_result !! 1 = Some None.
Proof.
  split; [reflexivity|].
  apply (empty_left_text_no_match sample_runtime sample_left sample_right
           ["id"] ["city"] ["name"] ["name"] (1 # 2)%Q true true true None
           sample_similarity_result sample_calls 1).
  - reflexivity.
  - vm_compute. reflexivity.
  - reflexivity.
Defined.

Lemma candidate_comparisons_sum_witness :
  set_iter_ok sample_runtime
  ∧ candidate_comparisons sample_similarity_result =
    sum_list
      (map (λ t, size (token_candidates
                         (build_token_index (right_text sample_similarity_result)) t))
         (filter (λ t, build_exact_index (right_text sample_similarity_result) !! t
                       = None)
            (left_text sample_similarity_result))).
Proof.
  split; [intros s; reflexivity|].
  apply (candidate_comparisons_sum sample_runtime sample_left sample_right
           ["id"] ["city"] ["name"] ["name"] (1 # 2)%Q true true true None
           sample_similarity_result sample_calls).
  - intros s. reflexivity.
  - reflexivity.
  - vm_compute. reflexivity.
Defined.

Lemma positional_merge_witness :
  sample_positional_run = Ok (sample_positional_result, sample_calls)
  ∧ ∀ (threshold' : Q) (prefer_rapidfuzz' : bool),
      run_matching sample_runtime sample_left sample_right ["id"] ["city"]
        [] ["name"] threshold' true prefer_rapidfuzz' true None
      = Ok (sample_positional_result, sample_calls).
Proof.
  split; [vm_compute; reflexivity|].
  apply (positional_merge sample_runtime sample_left sample_right
           ["id"] ["city"] [] ["name"] (1 # 2)%Q true true true None
           sample_positional_result sample_calls).
  - left. reflexivity.
  - vm_compute. reflexivity.
Defined.

Lemma similarity_rows_witness :
  similarity_enabled sample_similarity_result = true
  ∧ length (result_df sample_similarity_result) ≤ df_len sample_left.
Proof.
  split; [reflexivity|].
  apply (similarity_rows sample_runtime sample_left sample_right
           ["id"] ["city"] ["name"] ["name"] (1 # 2)%Q true true true None
           sample_similarity_result sample_calls).
  - reflexivity.
  - vm_compute. reflexivity.
Defined.

Lemma progress_reporting_witness :
  head sample_calls = Some (0, 3) ∧ last sample_calls = Some (3, 3)
  ∧ (2, 3) ∈ sample_calls.
Proof.
  pose proof (progress_reporting sample_runtime sample_left sample_right
                ["id"] ["city"] ["name"] ["name"] (1 # 2)%Q true true
                sample_similarity_result sample_calls) as H.
  cbv zeta in H. destruct H as (Hhead & Hlast & Hmul & _).
  - vm_compute. reflexivity.
  - split; [exact Hhead|]. split; [exact Hlast|]. apply Hmul.
    + simpl. lia.
    + reflexivity.
Defined.

Lemma best_positions_in_bounds_witness :
  set_iter_ok sample_runtime
  ∧ best_positions sample_similarity_result !! 2 = Some (Some 0)
  ∧ 0 < df_len sample_right
  ∧ 0 < length (right_text sample_similarity_result).
Proof.
  split; [intros s; reflexivity|]. split; [reflexivity|].
  apply (proj2 (best_positions_in_bounds sample_runtime sample_left sample_right
                  ["id"] ["city"] ["name"] ["name"] (1 # 2)%Q true true true None
                  ltac:(intros s; reflexivity))
           sample_similarity_result sample_calls 2 0).
  - vm_compute. reflexivity.
  - reflexivity.
Defined.

Lemma disabled_result_fields_witness :
  best_scores sample_positional_result = []
  ∧ best_positions sample_positional_result = []
  ∧ exact_match_count sample_positional_result = 0
  ∧ candidate_comparisons sample_positional_result = 0
  ∧ similarity_engine sample_positional_result = "disabled"
  ∧ similarity_enabled sample_positional_result = false
  ∧ left_match_columns_used sample_positional_result = []
  ∧ right_match_columns_used sample_positional_result = [].
Proof.
  apply (disabled_result_fields sample_runtime sample_left sample_right
           ["id"] ["city"] [] ["name"] (1 # 2)%Q true true true None
           sample_positional_result sample_calls).
  - left. reflexivity.
  - vm_compute. reflexivity.
Defined.


(** * Further properties of the engine *)

(** ** The shape of a normalized text *)

Lemma sub_spaces_true_clean (s : list ascii) :
  starts_clean (PyStr.sub_spaces true s).
Proof.
  induction s as [|c r IH]; simpl; [exact I|].
  destruct (PyStr.is_space c) eqn:E; [exact IH | exact E].
Qed.

Lemma sub_spaces_only_space (b : bool) (s : list ascii) (c : ascii) :
  c ∈ PyStr.sub_spaces b s → PyStr.is_space c = true → c = " "%char.
Proof.
  revert b. induction s as [|d r IH]; intros b; simpl.
  - intros H. now apply elem_of_nil in H.
  - destruct (PyStr.is_space d) eqn:E.
    + destruct b; [apply IH|]. intros H Hc.
      apply elem_of_cons in H as [->|H]; [reflexivity | exact (IH _ H Hc)].
    + intros H Hc. apply elem_of_cons in H as [->|H]; [congruence|].
      exact (IH _ H Hc).
Qed.

Lemma sub_spaces_no_adjacent (b : bool) (s : list ascii) (i : nat) (c d : ascii) :
  PyStr.sub_spaces b s !! i = Some c → PyStr.sub_spaces b s !! S i = Some d →
  PyStr.is_space c = true → PyStr.is_space d = false.
Proof.
  revert b i. induction s as [|e r IH]; intros b i; simpl; [discriminate|].
  destruct (PyStr.is_space e) eqn:E.
  - destruct b; [apply IH|]. destruct i as [|i]; simpl.
    + intros _ Hd _. pose proof (sub_spaces_true_clean r) as Hcl.
      destruct (PyStr.sub_spaces true r) as [|x y]; [discriminate|].
      simpl in Hd, Hcl. congruence.
    + apply IH.
  - destruct i as [|i]; simpl.
    + intros [= <-] _ Hc. congruence.
    + apply IH.
Qed.

Lemma starts_clean_head (s : list ascii) (c : ascii) :
  starts_clean s → head s = Some c → PyStr.is_space c = false.
Proof. destruct s as [|d r]; simpl; [discriminate|]. intros H [= <-]. exact H. Qed.

Lemma ends_clean_last (s : list ascii) (c : ascii) :
  ends_clean s → last s = Some c → PyStr.is_space c = false.
Proof.
  unfold ends_clean. destruct s as [|d r _] using rev_ind; [discriminate|].
  rewrite rev_app_distr, last_snoc. simpl. intros H [= <-]. exact H.
Qed.

(** X1: the text [normalize_text] returns neither begins nor ends with
    whitespace, is left alone by [str.lower], holds no whitespace but
    the space, and no space right after a space. *)
Theorem normalize_text_normal_form (x : scalar) :
  (∀ c, head (list_ascii_of_string (normalize_text x)) = Some c →
        PyStr.is_space c = false)
  ∧ (∀ c, last (list_ascii_of_string (normalize_text x)) = Some c →
          PyStr.is_space c = false)
  ∧ PyStr.lower (list_ascii_of_string (normalize_text x))
    = list_ascii_of_string (normalize_text x)
  ∧ (∀ c, c ∈ list_ascii_of_string (normalize_text x) →
          PyStr.is_space c = true → c = " "%char)
  ∧ (∀ i c d,
       list_ascii_of_string (normalize_text x) !! i = Some c →
       list_ascii_of_string (normalize_text x) !! S i = Some d →
       PyStr.is_space c = true → PyStr.is_space d = false).
Proof.
  destruct x as [|s]; simpl.
  - repeat split; try discriminate. intros c H. now apply elem_of_nil in H.
  - rewrite list_ascii_of_string_of_list_ascii.
    set (t := PyStr.strip (list_ascii_of_string s)). repeat split.
    + intros c. apply starts_clean_head.
      apply sub_spaces_starts_clean, lower_starts_clean, strip_starts_clean.
    + intros c. apply ends_clean_last.
      apply sub_spaces_ends_clean, lower_ends_clean, strip_ends_clean.
    + apply lower_sub_spaces.
    + apply sub_spaces_only_space.
    + apply sub_spaces_no_adjacent.
Qed.

(** ** Combining columns *)

Lemma df_select_missing (df : DataFrame) (cols : list string) (e : exn) :
  df_select df cols = Raise e →
  ∃ c, e = KeyError c ∧ c ∈ cols ∧ df_columns df !! c = None.
Proof.
  unfold df_select. induction cols as [|c r IH]; simpl; [discriminate|].
  unfold df_column. destruct (df_columns df !! c) eqn:E; simpl.
  - destruct (mapM_result _ r) as [bs|e']; simpl; [discriminate|].
    intros [= <-]. destruct (IH eq_refl) as (c' & -> & Hin & Hnone).
    exists c'. repeat split; [now right | exact Hnone].
  - intros [= <-]. exists c. repeat split; [left | exact E].
Qed.

Lemma df_select_present (df : DataFrame) (cols : list string)
    (sel : list (string * (nat → scalar))) :
  df_select df cols = Ok sel →
  ∀ c, c ∈ cols → is_Some (df_columns df !! c).
Proof.
  intros Hsel c Hc. destruct (selected_column _ _ _ Hsel c Hc) as (f & Hf & _).
  unfold df_column in Hf. destruct (df_columns df !! c); [eauto|].
  discriminate.
Qed.

Lemma df_select_total (df : DataFrame) (cols : list string) :
  (∀ c, c ∈ cols → is_Some (df_columns df !! c)) →
  ∃ sel, df_select df cols = Ok sel.
Proof.
  intros Hall. destruct (df_select df cols) as [sel|e] eqn:E; [eauto|].
  apply df_select_missing in E as (c & _ & Hin & Hnone).
  destruct (Hall c Hin) as [f Hf]. congruence.
Qed.

Lemma normalized_fixed (s : string) :
  normalize_text (Val (normalize_text (Val s))) = normalize_text (Val s).
Proof.
  unfold normalize_text. rewrite list_ascii_of_string_of_list_ascii.
  f_equal. apply normal_form_fixed.
Qed.

Lemma df_select_columns (df : DataFrame) (cols : list string)
    (sel : list (string * (nat → scalar))) :
  df_select df cols = Ok sel →
  Forall2 (λ c f, df_column df c = Ok f) cols (map snd sel).
Proof.
  unfold df_select. revert sel. induction cols as [|c r IH]; intros sel; simpl.
  - intros [= <-]. constructor.
  - intros H. apply bind_Ok in H as (cf & Hcf & H).
    apply bind_Ok in Hcf as (f & Hf & [= <-]).
    apply bind_Ok in H as (bs & Hbs & [= <-]). simpl.
    constructor; [exact Hf | now apply IH].
Qed.

(** X2: what [combine_columns] hands back.  A series, when every
    selected column is a column of the frame and the selection is empty
    or the frame has a row: one text per row, the normalized join with
    spaces of the cells of the row in the selected columns (a missing
    cell counts as the empty text), which normalization leaves alone; for
    an empty selection every text is empty.  A frame, which has no
    texts, exactly when the selection is not empty, its columns are
    columns of the frame and the frame has no row.  It raises nothing
    but [KeyError], for a selected column that the frame lacks. *)
Theorem combine_columns_outcome (df : DataFrame) (selected_cols : list string) :
  (∀ texts, combine_columns df selected_cols = Ok (Series texts) →
     length texts = df_len df
     ∧ (∀ t, t ∈ texts → normalize_text (Val t) = t)
     ∧ (∀ c, c ∈ selected_cols → is_Some (df_columns df !! c))
     ∧ (selected_cols = [] ∨ 0 < df_len df)
     ∧ ∃ fs, Forall2 (λ c f, df_column df c = Ok f) selected_cols fs
             ∧ ∀ i, i < df_len df →
                    texts !! i
                    = Some (normalize_text
                              (Val (PyStr.join " "
                                      (map (λ f, fillna_str (f i)) fs)))))
  ∧ (combine_columns df selected_cols = Ok EmptyFrame ↔
     selected_cols ≠ [] ∧ df_len df = 0
     ∧ ∀ c, c ∈ selected_cols → is_Some (df_columns df !! c))
  ∧ (∀ e, combine_columns df selected_cols = Raise e →
       ∃ c, e = KeyError c ∧ c ∈ selected_cols
            ∧ df_columns df !! c = None)
  ∧ ((∀ c, c ∈ selected_cols → is_Some (df_columns df !! c)) →
     selected_cols = [] ∨ 0 < df_len df →
     ∃ texts, combine_columns df selected_cols = Ok (Series texts))
  ∧ (selected_cols = [] →
     combine_columns df selected_cols = Ok (Series (replicate (df_len df) ""))).
Proof.
  split; [|split; [|split; [|split]]].
  - intros texts H. split; [now apply length_combine_columns in H|].
    revert H. unfold combine_columns. destruct selected_cols as [|c r].
    + intros [= <-]. split; [|split; [|split]].
      * intros t Ht. apply elem_of_replicate in Ht as [-> _]. reflexivity.
      * intros c Hc. now apply elem_of_nil in Hc.
      * now left.
      * exists []. split; [constructor|]. intros i Hi.
        now rewrite lookup_replicate_2.
    + intros H. apply bind_Ok in H as (sel & Hsel & H).
      destruct (decide (df_len df = 0)) as [|Hrows]; [discriminate|].
      injection H as <-. split; [|split; [|split]].
      * intros t Ht. apply list_elem_of_fmap in Ht as (i & -> & _).
        apply normalized_fixed.
      * exact (df_select_present _ _ _ Hsel).
      * right. lia.
      * exists (map snd sel). split; [now apply df_select_columns|].
        intros i Hi. rewrite list_lookup_fmap, (lookup_seq_lt 0 _ i Hi). simpl.
        now rewrite map_map.
  - unfold combine_columns. destruct selected_cols as [|c r].
    + split; [discriminate|]. now intros [H _].
    + destruct (df_select df (c :: r)) as [sel|e] eqn:E; simpl.
      * destruct (decide (df_len df = 0)) as [Hz|Hrows].
        -- split; [|reflexivity]. intros _. split; [discriminate|].
           split; [exact Hz|]. exact (df_select_present _ _ _ E).
        -- split; [discriminate|]. now intros (_ & Hz & _).
      * split; [discriminate|]. intros (_ & _ & Hall).
        destruct (df_select_total _ _ Hall) as [sel Hsel]. congruence.
  - intros e. unfold combine_columns.
    destruct selected_cols as [|c r]; [discriminate|].
    destruct (df_select df (c :: r)) as [sel|e'] eqn:E; simpl.
    + destruct (decide (df_len df = 0)); discriminate.
    + intros [= <-]. exact (df_select_missing _ _ _ E).
  - intros Hall Hrows. unfold combine_columns.
    destruct selected_cols as [|c r]; [eauto|].
    destruct (df_select_total _ _ Hall) as [sel ->]. simpl.
    destruct Hrows as [Hnil|Hrows]; [discriminate Hnil|].
    destruct (decide (df_len df = 0)); [lia|]. eauto.
  - intros ->. reflexivity.
Qed.

(** ** The keys and the posting sets of the token index *)

Lemma add_tokens_is_Some (pos : nat) (tokens : list string)
    (ti : gmap string (gset nat)) (tok : string) :
  is_Some
    (fold_left
       (λ (ti : gmap string (gset nat)) (token : string),
          <[token := default ∅ (ti !! token) ∪ {[pos]}]> ti)
       tokens ti !! tok)
  ↔ is_Some (ti !! tok) ∨ tok ∈ tokens.
Proof.
  revert ti. induction tokens as [|a r IH]; intros ti; simpl.
  - split; [now left|]. intros [H|H]; [exact H | now apply elem_of_nil in H].
  - rewrite IH. destruct (decide (a = tok)) as [->|Hne].
    + rewrite lookup_insert_eq. split; [intros _; right; left | eauto].
    + rewrite lookup_insert_ne by exact Hne. split.
      * intros [H|H]; [now left | right; now right].
      * intros [H|H]; [now left|].
        apply elem_of_cons in H as [->|H]; [contradiction | now right].
Qed.

Lemma token_index_is_Some (l : list string) (tok : string) :
  is_Some (build_token_index l !! tok) ↔ ∃ text, text ∈ l ∧ tok ∈ PyStr.split text.
Proof.
  induction l as [|x l IH] using rev_ind.
  - unfold build_token_index. simpl. rewrite lookup_empty. split.
    + intros [s Hs]. discriminate.
    + intros (text & H & _). now apply elem_of_nil in H.
  - rewrite build_token_index_snoc, add_tokens_is_Some, IH. split.
    + intros [(text & Hin & Ht)|Ht].
      * exists text. split; [apply elem_of_app; now left | exact Ht].
      * exists x. split; [apply elem_of_app; right; left | exact Ht].
    + intros (text & Hin & Ht). apply elem_of_app in Hin as [Hin|Hin].
      * left. eauto.
      * apply list_elem_of_singleton in Hin as ->. now right.
Qed.

(** X3: a token is a key of the token index exactly when it is a token
    of some text, its posting set is then not empty, and a position is
    in the posting set of a token exactly when the text at that position
    has the token. *)
Theorem token_index_postings (text_values : list string) (token : string) :
  (is_Some (build_token_index text_values !! token) ↔
   ∃ text, text ∈ text_values ∧ token ∈ PyStr.split text)
  ∧ (∀ s, build_token_index text_values !! token = Some s →
          s ≠ ∅
          ∧ ∀ p, p ∈ s ↔
                 ∃ text, text_values !! p = Some text
                         ∧ token ∈ PyStr.split text).
Proof.
  split; [apply token_index_is_Some|]. intros s Hs.
  assert (Hel : ∀ p, p ∈ s ↔ ∃ text, text_values !! p = Some text
                                      ∧ token ∈ PyStr.split text).
  { intros p. rewrite <- token_index_elem, Hs. reflexivity. }
  split; [|exact Hel].
  destruct (proj1 (token_index_is_Some text_values token)) as (text & Hin & Ht);
    [rewrite Hs; eauto|].
  apply list_elem_of_lookup in Hin as [p Hp].
  intros ->. apply (not_elem_of_empty (C := gset nat) p), Hel. eauto.
Qed.

(** ** The best candidate *)

Section ScoreLoop.
Variable rt : Runtime.
Variable right_text_values : list string.
Variable use_rapidfuzz : bool.
Variable ltext : string.

Local Abbreviation ratio :=
  (λ rtext, _similarity_ratio rt ltext rtext use_rapidfuzz).

(** The loop over the candidates keeps the greatest score met so far,
    with the first position that reached it. *)
Lemma score_loop_best (cands : list nat) (acc acc' : nat * Q * option nat) :
  foldM (score_step rt right_text_values use_rapidfuzz ltext) cands acc = Ok acc' →
  (acc.1.2 <= acc'.1.2)%Q
  ∧ (∀ q, q ∈ cands →
          ∃ rq, right_text_values !! q = Some rq ∧ (ratio rq <= acc'.1.2)%Q)
  ∧ ((acc'.2 = acc.2 ∧ acc'.1.2 = acc.1.2)
     ∨ ∃ l1 p l2 rp,
         cands = (l1 ++ p :: l2)%list ∧ acc'.2 = Some p
         ∧ right_text_values !! p = Some rp ∧ acc'.1.2 = ratio rp
         ∧ (acc.1.2 < acc'.1.2)%Q
         ∧ ∀ q, q ∈ l1 →
                ∃ rq, right_text_values !! q = Some rq
                      ∧ (ratio rq < acc'.1.2)%Q).
Proof.
  revert acc. induction cands as [|c r IH]; intros [[n b] pos]; simpl.
  - intros [= <-]. simpl. split; [apply Qle_refl|]. split; [|now left].
    intros q Hq. now apply elem_of_nil in Hq.
  - intros H. apply bind_Ok in H as (acc1 & H1 & H2).
    apply bind_Ok in H1 as (rc & Hrc & H1). apply index_Ok in Hrc.
    destruct (IH _ H2) as (Hle & Hall & Hbest). clear IH H2.
    destruct (Qlt_le_dec b (ratio rc)) as [Hlt|Hge];
      injection H1 as <-; simpl in *.
    + split; [apply Qlt_le_weak; eapply Qlt_le_trans; eassumption|].
      split.
      * intros q Hq. apply elem_of_cons in Hq as [->|Hq]; [eauto | auto].
      * right. destruct Hbest as [[Hp Hb]|(l1 & p & l2 & rp & -> & Hp & Hrp & Hb
                                          & Hlt' & Hl1)].
        -- exists [], c, r, rc. rewrite Hb. repeat split; try assumption.
           intros q Hq. now apply elem_of_nil in Hq.
        -- exists (c :: l1), p, l2, rp. repeat split; try assumption.
           ++ eapply Qlt_trans; eassumption.
           ++ intros q Hq. apply elem_of_cons in Hq as [->|Hq]; [eauto | auto].
    + split; [exact Hle|]. split.
      * intros q Hq. apply elem_of_cons in Hq as [->|Hq]; [|auto].
        exists rc. split; [exact Hrc|]. eapply Qle_trans; eassumption.
      * destruct Hbest as [[Hp Hb]|(l1 & p & l2 & rp & -> & Hp & Hrp & Hb
                                    & Hlt' & Hl1)]; [now left|].
        right. exists (c :: l1), p, l2, rp. repeat split; try assumption.
        intros q Hq. apply elem_of_cons in Hq as [->|Hq]; [|auto].
        exists rc. split; [exact Hrc|]. eapply Qle_lt_trans; eassumption.
Qed.

End ScoreLoop.

Lemma exact_index_None (l : list string) (t : string) :
  build_exact_index l !! t = None ↔ t = "" ∨ t ∉ l.
Proof.
  rewrite exact_index_lookup. destruct (decide (t = "")) as [->|Hne].
  - split; [now left | reflexivity].
  - split.
    + destruct (positions_of t l) as [|p r] eqn:E; [|discriminate].
      intros _. right. intros Hin. now apply positions_of_nonempty in Hin.
    + intros [->|Hnin]; [contradiction|].
      destruct (positions_of t l) as [|p r] eqn:E; [reflexivity|].
      exfalso. apply Hnin. assert (Hp : p ∈ positions_of t l) by (rewrite E; left).
      apply positions_of_elem in Hp. apply list_elem_of_lookup. eauto.
Qed.

Lemma token_candidates_elem (l : list string) (t : string) (q : nat) :
  q ∈ token_candidates (build_token_index l) t ↔
  ∃ rq tok, l !! q = Some rq ∧ tok ∈ PyStr.split t ∧ tok ∈ PyStr.split rq.
Proof.
  rewrite <- candidate_positions_spec, candidate_positions_elem. split.
  - intros (tok & Ht & Hq). apply elem_of_list_to_set in Ht.
    apply token_index_elem in Hq as (rq & Hrq & Htok). eauto.
  - intros (rq & tok & Hrq & Ht & Htok). exists tok. split.
    + now apply elem_of_list_to_set.
    + apply token_index_elem. eauto.
Qed.

(** What the loop body decides for a text that is no key of the exact
    index. *)
Lemma match_row_miss_best (rt : Runtime) (token_index : gmap string (gset nat))
    (exact_index : gmap string (list nat)) (right_text_values : list string)
    (use_rapidfuzz : bool) (t : string) (d : decision) :
  exact_index !! t = None →
  match_row rt token_index exact_index right_text_values use_rapidfuzz t = Ok d →
  (best_right_pos d = None → best_score d = 0%Q)
  ∧ (PyStr.split t ≠ [] →
     ∀ q, q ∈ set_iter rt (token_candidates token_index t) →
          ∃ rq, right_text_values !! q = Some rq
                ∧ (_similarity_ratio rt t rq use_rapidfuzz <= best_score d)%Q)
  ∧ ∀ p, best_right_pos d = Some p →
         (0 < best_score d)%Q
         ∧ ∃ l1 l2 rp,
             set_iter rt (token_candidates token_index t) = (l1 ++ p :: l2)%list
             ∧ right_text_values !! p = Some rp
             ∧ best_score d = _similarity_ratio rt t rp use_rapidfuzz
             ∧ ∀ q, q ∈ l1 →
                    ∃ rq, right_text_values !! q = Some rq
                          ∧ (_similarity_ratio rt t rq use_rapidfuzz
                             < best_score d)%Q.
Proof.
  unfold match_row. intros ->.
  destruct (decide (list_to_set (PyStr.split t) = ∅)) as [He|Hne].
  - intros [= <-]. simpl. apply list_to_set_empty_nil in He.
    repeat split; try discriminate. intros Hs. contradiction.
  - rewrite candidate_positions_spec. intros H.
    apply bind_Ok in H as (acc & Hacc & [= <-]). simpl.
    apply score_loop_best in Hacc as (_ & Hall & Hbest). simpl in Hall, Hbest.
    split; [|split].
    + intros Hnone.
      destruct Hbest as [[_ Hb]|(l1 & p & l2 & rp & _ & Hp & _)];
        [exact Hb | congruence].
    + intros _. exact Hall.
    + intros p Hp.
      destruct Hbest as [[Hp' _]|(l1 & p' & l2 & rp & Hl & Hp' & Hrp & Hb
                                  & Hlt & Hl1)]; [congruence|].
      assert (p' = p) by congruence. subst p'. split; [exact Hlt|].
      exists l1, l2, rp. repeat split; assumption.
Qed.

Lemma match_row_sign (rt : Runtime) (token_index : gmap string (gset nat))
    (exact_index : gmap string (list nat)) (right_text_values : list string)
    (use_rapidfuzz : bool) (t : string) (d : decision) :
  match_row rt token_index exact_index right_text_values use_rapidfuzz t = Ok d →
  (best_right_pos d = None → best_score d = 0%Q)
  ∧ (is_Some (best_right_pos d) → (0 < best_score d)%Q).
Proof.
  intros Hd. destruct (exact_index !! t) as [ps|] eqn:E.
  - destruct (match_row_hit _ _ _ _ _ _ _ _ E Hd) as (p & _ & ->). simpl.
    split; [discriminate | reflexivity].
  - destruct (match_row_miss_best _ _ _ _ _ _ _ E Hd) as (Hnone & _ & Hsome).
    split; [exact Hnone|]. intros [p Hp]. now apply Hsome in Hp.
Qed.

(** The decision behind the entries of a row in the two lists. *)
Lemma run_decision_at (rt : Runtime) (left_df right_df : DataFrame)
    (left_output_cols right_output_cols left_match_cols right_match_cols : list string)
    (threshold : Q) (include_unmatched prefer_rapidfuzz progress_callback : bool)
    (progress_update_every : option Z)
    (res : MatchResult) (calls : list (nat * nat)) (i : nat) (s : Q)
    (pos : option nat) :
  run_matching rt left_df right_df left_output_cols right_output_cols
    left_match_cols right_match_cols threshold include_unmatched
    prefer_rapidfuzz progress_callback progress_update_every = Ok (res, calls) →
  best_scores res !! i = Some s →
  best_positions res !! i = Some pos →
  ∃ t d, left_text res !! i = Some t
         ∧ match_row rt (build_token_index (right_text res))
             (build_exact_index (right_text res)) (right_text res)
             (prefer_rapidfuzz && rapidfuzz_available rt) t = Ok d
         ∧ best_score d = s ∧ best_right_pos d = pos.
Proof.
  intros Hrun Hs Hp.
  destruct (truthy left_match_cols && truthy right_match_cols) eqn:Hen.
  - destruct (run_decisions _ _ _ _ _ _ _ _ _ _ _ _ _ _ Hen Hrun)
      as (lsel & rsel & ds & _ & _ & _ & _ & HF & Hscores & Hpos & _).
    rewrite Hscores, list_lookup_fmap in Hs.
    rewrite Hpos, list_lookup_fmap in Hp.
    destruct (ds !! i) as [d|] eqn:Hd; [|discriminate].
    injection Hs as Hs. injection Hp as Hp.
    destruct (Forall2_lookup_r _ _ _ _ _ HF Hd) as (t & Ht & Hrow & _).
    exists t, d. repeat split; assumption.
  - destruct (run_disabled _ _ _ _ _ _ _ _ _ _ _ _ _ _ Hen Hrun)
      as (lsel & rsel & _ & _ & _ & _ & Hscores & _).
    rewrite Hscores in Hs. discriminate.
Qed.

(** X4: in the lists a run returns, a row without a position has the
    score 0.0 and a row with a position has a score above 0.0. *)
Theorem score_zero_iff_no_position (rt : Runtime) (left_df right_df : DataFrame)
    (left_output_cols right_output_cols left_match_cols right_match_cols : list string)
    (threshold : Q) (include_unmatched prefer_rapidfuzz progress_callback : bool)
    (progress_update_every : option Z)
    (res : MatchResult) (calls : list (nat * nat)) (i : nat) (s : Q)
    (pos : option nat) :
  run_matching rt left_df right_df left_output_cols right_output_cols
    left_match_cols right_match_cols threshold include_unmatched
    prefer_rapidfuzz progress_callback progress_update_every = Ok (res, calls) →
  best_scores res !! i = Some s →
  best_positions res !! i = Some pos →
  (pos = None → s = 0%Q) ∧ (is_Some pos → (0 < s)%Q) ∧ (0 <= s)%Q.
Proof.
  intros Hrun Hs Hp.
  destruct (run_decision_at _ _ _ _ _ _ _ _ _ _ _ _ _ _ _ _ _ Hrun Hs Hp)
    as (t & d & _ & Hd & <- & <-).
  destruct (match_row_sign _ _ _ _ _ _ _ Hd) as [Hnone Hsome].
  split; [exact Hnone|]. split; [exact Hsome|].
  destruct (best_right_pos d) as [p|].
  - apply Qlt_le_weak, Hsome. eauto.
  - rewrite Hnone by reflexivity. apply Qle_refl.
Qed.

(** X5: for a left row whose text is empty or is the text of no right
    row, the candidates are the right positions whose text shares a
    token with the text of the row; no candidate scores above the score
    recorded for the row; without a recorded position the score is 0.0;
    and a recorded position is a candidate, its ratio is the recorded
    score, and every candidate iterated before it has a smaller
    ratio. *)
Theorem fuzzy_best_candidate (rt : Runtime) (left_df right_df : DataFrame)
    (left_output_cols right_output_cols left_match_cols right_match_cols : list string)
    (threshold : Q) (include_unmatched prefer_rapidfuzz progress_callback : bool)
    (progress_update_every : option Z)
    (res : MatchResult) (calls : list (nat * nat)) (i : nat) (t : string)
    (s : Q) (pos : option nat) :
  set_iter_ok rt →
  run_matching rt left_df right_df left_output_cols right_output_cols
    left_match_cols right_match_cols threshold include_unmatched
    prefer_rapidfuzz progress_callback progress_update_every = Ok (res, calls) →
  left_text res !! i = Some t →
  t = "" ∨ t ∉ right_text res →
  best_scores res !! i = Some s →
  best_positions res !! i = Some pos →
  (∀ q, q ∈ token_candidates (build_token_index (right_text res)) t ↔
        ∃ rq tok, right_text res !! q = Some rq
                  ∧ tok ∈ PyStr.split t ∧ tok ∈ PyStr.split rq)
  ∧ (∀ q, q ∈ token_candidates (build_token_index (right_text res)) t →
          ∃ rq, right_text res !! q = Some rq
                ∧ (_similarity_ratio rt t rq
                     (prefer_rapidfuzz && rapidfuzz_available rt) <= s)%Q)
  ∧ (pos = None → s = 0%Q)
  ∧ ∀ p, pos = Some p →
         p ∈ token_candidates (build_token_index (right_text res)) t
         ∧ (0 < s)%Q
         ∧ ∃ l1 l2 rp,
             set_iter rt (token_candidates (build_token_index (right_text res)) t)
             = (l1 ++ p :: l2)%list
             ∧ right_text res !! p = Some rp
             ∧ s = _similarity_ratio rt t rp
                     (prefer_rapidfuzz && rapidfuzz_available rt)
             ∧ ∀ q, q ∈ l1 →
                    ∃ rq, right_text res !! q = Some rq
                          ∧ (_similarity_ratio rt t rq
                               (prefer_rapidfuzz && rapidfuzz_available rt)
                             < s)%Q.
Proof.
  intros Hiter Hrun Ht Hmiss Hs Hp.
  destruct (run_decision_at _ _ _ _ _ _ _ _ _ _ _ _ _ _ _ _ _ Hrun Hs Hp)
    as (t' & d & Ht' & Hd & <- & <-).
  assert (t' = t) by congruence. subst t'.
  apply exact_index_None in Hmiss.
  destruct (match_row_miss_best _ _ _ _ _ _ _ Hmiss Hd) as (Hnone & Hall & Hsome).
  split; [intros q; apply token_candidates_elem|].
  split; [|split; [exact Hnone|]].
  - intros q Hq. apply Hall; [|now apply set_iter_elem].
    apply token_candidates_elem in Hq as (rq & tok & _ & Htok & _).
    intros E. rewrite E in Htok. now apply elem_of_nil in Htok.
  - intros p Hpos. destruct (Hsome p Hpos) as (Hlt & l1 & l2 & rp & Hl & Hrest).
    split; [|split; [exact Hlt | eauto]].
    apply (set_iter_elem rt Hiter). rewrite Hl. apply elem_of_app. right. left.
Qed.

(** ** The lists and counters of a run *)

Lemma exact_index_is_Some (l : list string) (t : string) :
  is_Some (build_exact_index l !! t) ↔ t ≠ "" ∧ t ∈ l.
Proof.
  rewrite <- not_eq_None_Some, exact_index_None. split.
  - intros H. split; [tauto|]. destruct (decide (t ∈ l)); tauto.
  - tauto.
Qed.

Lemma exact_hits_count (rt : Runtime) (token_index : gmap string (gset nat))
    (exact_index : gmap string (list nat)) (right_text_values : list string)
    (use_rapidfuzz : bool) (R : string → decision → Prop)
    (texts : list string) (ds : list decision) :
  (∀ t d, R t d → match_row rt token_index exact_index right_text_values
                    use_rapidfuzz t = Ok d) →
  Forall2 R texts ds →
  length (filter (λ d, exact_hit d = true) ds) =
  length (filter (λ t, is_Some (exact_index !! t)) texts).
Proof.
  intros HR HF. induction HF as [|t d texts ds Hd HF IH]; [reflexivity|].
  apply HR in Hd. rewrite !filter_cons.
  destruct (exact_index !! t) as [ps|] eqn:E.
  - destruct (match_row_hit _ _ _ _ _ _ _ _ E Hd) as (p & _ & ->). simpl.
    destruct (decide (true = true)); [|contradiction].
    destruct (decide (is_Some (Some ps))) as [_|Hn]; [simpl; now rewrite IH|].
    exfalso. apply Hn. eauto.
  - destruct (match_row_miss _ _ _ _ _ _ _ E Hd) as (Hhit & _). rewrite Hhit.
    destruct (decide (false = true)); [discriminate|].
    destruct (decide (is_Some None)) as [[x Hx]|_]; [discriminate | exact IH].
Qed.

(** X6: after a run with similarity, the exact-match counter is the
    number of left rows whose text is not empty and is the text of some
    right row. *)
Theorem exact_match_count_value (rt : Runtime) (left_df right_df : DataFrame)
    (left_output_cols right_output_cols left_match_cols right_match_cols : list string)
    (threshold : Q) (include_unmatched prefer_rapidfuzz progress_callback : bool)
    (progress_update_every : option Z)
    (res : MatchResult) (calls : list (nat * nat)) :
  similarity_enabled res = true →
  run_matching rt left_df right_df left_output_cols right_output_cols
    left_match_cols right_match_cols threshold include_unmatched
    prefer_rapidfuzz progress_callback progress_update_every = Ok (res, calls) →
  exact_match_count res =
  length (filter (λ t, t ≠ "" ∧ t ∈ right_text res) (left_text res)).
Proof.
  intros Hen Hrun.
  rewrite (run_similarity_enabled _ _ _ _ _ _ _ _ _ _ _ _ _ _ Hrun) in Hen.
  destruct (run_decisions _ _ _ _ _ _ _ _ _ _ _ _ _ _ Hen Hrun)
    as (lsel & rsel & ds & _ & _ & _ & _ & HF & _ & _ & He & _).
  rewrite He.
  rewrite (exact_hits_count _ _ _ _ _ _ _ _ (λ t d (H : _ ∧ _), proj1 H) HF).
  f_equal. apply filter_ext_in. intros t _. apply exact_index_is_Some.
Qed.

(** X7: after a run with similarity, [best_scores] and [best_positions]
    have one entry per left row, and [left_text] and [right_text] one
    text per row of their frame. *)
Theorem result_lengths (rt : Runtime) (left_df right_df : DataFrame)
    (left_output_cols right_output_cols left_match_cols right_match_cols : list string)
    (threshold : Q) (include_unmatched prefer_rapidfuzz progress_callback : bool)
    (progress_update_every : option Z)
    (res : MatchResult) (calls : list (nat * nat)) :
  similarity_enabled res = true →
  run_matching rt left_df right_df left_output_cols right_output_cols
    left_match_cols right_match_cols threshold include_unmatched
    prefer_rapidfuzz progress_callback progress_update_every = Ok (res, calls) →
  length (best_scores res) = df_len left_df
  ∧ length (best_positions res) = df_len left_df
  ∧ length (left_text res) = df_len left_df
  ∧ length (right_text res) = df_len right_df.
Proof.
  intros Hen Hrun.
  rewrite (run_similarity_enabled _ _ _ _ _ _ _ _ _ _ _ _ _ _ Hrun) in Hen.
  destruct (run_decisions _ _ _ _ _ _ _ _ _ _ _ _ _ _ Hen Hrun)
    as (lsel & rsel & ds & _ & _ & Hl & Hr & HF & Hs & Hp & _).
  apply Forall2_length in HF. rewrite Hs, Hp, !length_map.
  repeat split; lia.
Qed.

(** X8: when the ratio of the engine in use never exceeds 1.0, every
    score a run records lies between 0.0 and 1.0. *)
Theorem scores_in_unit_interval (rt : Runtime) (left_df right_df : DataFrame)
    (left_output_cols right_output_cols left_match_cols right_match_cols : list string)
    (threshold : Q) (include_unmatched prefer_rapidfuzz progress_callback : bool)
    (progress_update_every : option Z)
    (res : MatchResult) (calls : list (nat * nat)) (i : nat) (s : Q) :
  (∀ a b, (_similarity_ratio rt a b (prefer_rapidfuzz && rapidfuzz_available rt)
           <= 1)%Q) →
  run_matching rt left_df right_df left_output_cols right_output_cols
    left_match_cols right_match_cols threshold include_unmatched
    prefer_rapidfuzz progress_callback progress_update_every = Ok (res, calls) →
  best_scores res !! i = Some s →
  (0 <= s)%Q ∧ (s <= 1)%Q.
Proof.
  intros Hratio Hrun Hs.
  destruct (truthy left_match_cols && truthy right_match_cols) eqn:Hen.
  - destruct (run_decisions _ _ _ _ _ _ _ _ _ _ _ _ _ _ Hen Hrun)
      as (lsel & rsel & ds & _ & _ & _ & _ & HF & Hscores & _).
    rewrite Hscores, list_lookup_fmap in Hs.
    destruct (ds !! i) as [d|] eqn:Hd; [|discriminate]. injection Hs as <-.
    destruct (Forall2_lookup_r _ _ _ _ _ HF Hd) as (t & _ & Hrow & _).
    destruct (match_row_sign _ _ _ _ _ _ _ Hrow) as [Hnone Hsome].
    destruct (build_exact_index (right_text res) !! t) as [ps|] eqn:E.
    + destruct (match_row_hit _ _ _ _ _ _ _ _ E Hrow) as (p & _ & ->). simpl.
      split; [discriminate | apply Qle_refl].
    + destruct (match_row_miss_best _ _ _ _ _ _ _ E Hrow) as (_ & _ & Hbest).
      destruct (best_right_pos d) as [p|].
      * destruct (Hbest p eq_refl) as (Hlt & l1 & l2 & rp & _ & _ & Heq & _).
        split; [now apply Qlt_le_weak|]. rewrite Heq. apply Hratio.
      * rewrite Hnone by reflexivity. split; discriminate.
  - destruct (run_disabled _ _ _ _ _ _ _ _ _ _ _ _ _ _ Hen Hrun)
      as (lsel & rsel & _ & _ & _ & _ & Hscores & _).
    rewrite Hscores in Hs. discriminate.
Qed.

Lemma match_row_functional (rt : Runtime) (token_index : gmap string (gset nat))
    (exact_index : gmap string (list nat)) (right_text_values : list string)
    (use_rapidfuzz : bool) (texts : list string) (ds ds' : list decision)
    (R R' : string → decision → Prop) :
  (∀ t d, R t d → match_row rt token_index exact_index right_text_values
                    use_rapidfuzz t = Ok d) →
  (∀ t d, R' t d → match_row rt token_index exact_index right_text_values
                     use_rapidfuzz t = Ok d) →
  Forall2 R texts ds → Forall2 R' texts ds' → ds = ds'.
Proof.
  intros HR HR' HF HF'.
  eapply Forall2_unique.
  - exact (Forall2_impl _ _ _ _ HF HR).
  - exact (Forall2_impl _ _ _ _ HF' HR').
  - intros t d d' H H'. congruence.
Qed.

(** X9: the scores, the positions, the two counters, the texts and the
    name of the engine do not depend on the threshold, on
    [include_unmatched], on the output columns or on the progress
    arguments: two runs that differ only in these agree on them. *)
Theorem decisions_independent_of_output_settings (rt : Runtime)
    (left_df right_df : DataFrame)
    (left_output_cols right_output_cols left_output_cols' right_output_cols'
       left_match_cols right_match_cols : list string)
    (threshold threshold' : Q)
    (include_unmatched include_unmatched' prefer_rapidfuzz
       progress_callback progress_callback' : bool)
    (progress_update_every progress_update_every' : option Z)
    (res res' : MatchResult) (calls calls' : list (nat * nat)) :
  run_matching rt left_df right_df left_output_cols right_output_cols
    left_match_cols right_match_cols threshold include_unmatched
    prefer_rapidfuzz progress_callback progress_update_every = Ok (res, calls) →
  run_matching rt left_df right_df left_output_cols' right_output_cols'
    left_match_cols right_match_cols threshold' include_unmatched'
    prefer_rapidfuzz progress_callback' progress_update_every'
  = Ok (res', calls') →
  best_scores res = best_scores res'
  ∧ best_positions res = best_positions res'
  ∧ exact_match_count res = exact_match_count res'
  ∧ candidate_comparisons res = candidate_comparisons res'
  ∧ left_text res = left_text res'
  ∧ right_text res = right_text res'
  ∧ similarity_engine res = similarity_engine res'.
Proof.
  intros Hrun Hrun'.
  destruct (truthy left_match_cols && truthy right_match_cols) eqn:Hen.
  - destruct (run_enabled _ _ _ _ _ _ _ _ _ _ _ _ _ _ Hen Hrun)
      as (? & ? & ? & Hlt & Hrt & _).
    destruct (run_enabled _ _ _ _ _ _ _ _ _ _ _ _ _ _ Hen Hrun')
      as (? & ? & ? & Hlt' & Hrt' & _).
    assert (Hl : left_text res = left_text res') by congruence.
    assert (Hr : right_text res = right_text res') by congruence.
    destruct (run_decisions _ _ _ _ _ _ _ _ _ _ _ _ _ _ Hen Hrun)
      as (? & ? & ds & _ & _ & _ & _ & HF & Hs & Hp & He & Hc & _).
    destruct (run_decisions _ _ _ _ _ _ _ _ _ _ _ _ _ _ Hen Hrun')
      as (? & ? & ds' & _ & _ & _ & _ & HF' & Hs' & Hp' & He' & Hc' & _).
    rewrite <- Hl, <- Hr in HF'.
    assert (ds = ds').
    { eapply match_row_functional; [| |exact HF|exact HF'];
        intros t d [H _]; exact H. }
    subst ds'. rewrite Hs, Hs', Hp, Hp', He, He', Hc, Hc'.
    repeat split; try assumption.
    revert Hrun Hrun'. unfold run_matching. rewrite Hen. simpl.
    intros Hrun Hrun'.
    do 6 (apply bind_Ok in Hrun as (? & _ & Hrun)).
    apply bind_Ok in Hrun as (? & _ & [= <- _]).
    do 6 (apply bind_Ok in Hrun' as (? & _ & Hrun')).
    apply bind_Ok in Hrun' as (? & _ & [= <- _]). reflexivity.
  - destruct (run_disabled _ _ _ _ _ _ _ _ _ _ _ _ _ _ Hen Hrun)
      as (? & ? & _ & _ & _ & _ & Hs & Hp & Hl & Hr & _ & Hg & He & Hc & _).
    destruct (run_disabled _ _ _ _ _ _ _ _ _ _ _ _ _ _ Hen Hrun')
      as (? & ? & _ & _ & _ & _ & Hs' & Hp' & Hl' & Hr' & _ & Hg' & He' & Hc' & _).
    repeat split; congruence.
Qed.

(** ** The number of output rows *)

Lemma filter_all {A : Type} (P : A → Prop) `{∀ x, Decision (P x)} (l : list A) :
  (∀ x, x ∈ l → P x) → filter P l = l.
Proof.
  induction l as [|a r IH]; intros Hall; [reflexivity|].
  rewrite filter_cons. destruct (decide (P a)) as [_|Hn].
  - f_equal. apply IH. intros x Hx. apply Hall. now right.
  - exfalso. apply Hn, Hall. left.
Qed.

Lemma length_filter_lt_seq (m n : nat) :
  length (filter (λ i, i < m) (seq 0 n)) = Nat.min n m.
Proof.
  induction n as [|n IH]; [reflexivity|].
  rewrite seq_S, filter_app, length_app, IH, filter_cons, filter_nil.
  change (0 + n) with n. destruct (decide (n < m)); cbn [length]; lia.
Qed.

(** X10: with [include_unmatched] a run returns one output row per left
    row; without it, a run with similarity returns one row per Matched
    left row, and a run without similarity one row per position that
    both frames have. *)
Theorem output_row_count (rt : Runtime) (left_df right_df : DataFrame)
    (left_output_cols right_output_cols left_match_cols right_match_cols : list string)
    (threshold : Q) (include_unmatched prefer_rapidfuzz progress_callback : bool)
    (progress_update_every : option Z)
    (res : MatchResult) (calls : list (nat * nat)) :
  run_matching rt left_df right_df left_output_cols right_output_cols
    left_match_cols right_match_cols threshold include_unmatched
    prefer_rapidfuzz progress_callback progress_update_every = Ok (res, calls) →
  length (result_df res) =
  if include_unmatched then df_len left_df
  else if similarity_enabled res
       then length (filter (λ i, row_matched res threshold i = true)
                      (seq 0 (df_len left_df)))
       else Nat.min (df_len left_df) (df_len right_df).
Proof.
  intros Hrun.
  rewrite (run_similarity_enabled _ _ _ _ _ _ _ _ _ _ _ _ _ _ Hrun).
  destruct (truthy left_match_cols && truthy right_match_cols) eqn:Hen.
  - destruct (run_decisions _ _ _ _ _ _ _ _ _ _ _ _ _ _ Hen Hrun)
      as (lsel & rsel & ds & _ & _ & Hllen & _ & HF & Hs & Hp & _ & _ & _ & Hrows).
    assert (Hlen : length ds = df_len left_df)
      by (apply Forall2_length in HF; lia).
    rewrite Hrows, length_map, <- (length_map fst).
    rewrite (map_filter_enumerate ds _
               (λ i, row_matched res threshold i || include_unmatched = true)
               fst id).
    + rewrite length_map, Hlen. destruct include_unmatched.
      * rewrite filter_all, length_seq; [reflexivity|].
        intros i _. apply orb_true_r.
      * f_equal. apply filter_ext_in. intros i _. now rewrite orb_false_r.
    + intros i d Hd. simpl.
      rewrite (row_matched_decision res threshold i d);
        rewrite ?Hs, ?Hp, ?list_lookup_fmap, ?Hd; split; reflexivity.
  - destruct (run_disabled _ _ _ _ _ _ _ _ _ _ _ _ _ _ Hen Hrun)
      as (lsel & rsel & _ & _ & Hrows & _).
    rewrite Hrows, length_map. destruct include_unmatched.
    + rewrite filter_all, length_seq; [reflexivity|]. intros i _. now right.
    + rewrite <- length_filter_lt_seq. f_equal. apply filter_ext_in.
      intros i _. split; [intros [H|H]; [exact H | discriminate] | now left].
Qed.

(** ** The calls to the callback, for every interval *)

Lemma filter_seq_sorted (P : nat → Prop) `{∀ x, Decision (P x)} (a n : nat) :
  StronglySorted lt (filter P (seq a n)).
Proof.
  revert a. induction n as [|n IH]; intros a; simpl; [constructor|].
  rewrite filter_cons. destruct (decide (P a)); [|apply IH].
  constructor; [apply IH|]. apply Forall_forall. intros x Hx.
  apply list_elem_of_filter in Hx as [_ Hx]. apply elem_of_seq in Hx. lia.
Qed.

(** X11: without a callback a run makes no call.  With one, whatever
    the interval, the calls are [(0, total)] followed by [(d, total)]
    for the counts [d] from 1 to [total], in increasing order, that are
    a multiple of the interval or the total itself. *)
Theorem progress_calls (rt : Runtime) (left_df right_df : DataFrame)
    (left_output_cols right_output_cols left_match_cols right_match_cols : list string)
    (threshold : Q) (include_unmatched prefer_rapidfuzz progress_callback : bool)
    (progress_update_every : option Z)
    (res : MatchResult) (calls : list (nat * nat)) :
  run_matching rt left_df right_df left_output_cols right_output_cols
    left_match_cols right_match_cols threshold include_unmatched
    prefer_rapidfuzz progress_callback progress_update_every = Ok (res, calls) →
  (progress_callback = false → calls = [])
  ∧ (progress_callback = true →
     ∃ counts,
       calls = (0, df_len left_df) :: map (λ d, (d, df_len left_df)) counts
       ∧ StronglySorted lt counts
       ∧ ∀ d, d ∈ counts ↔
              1 ≤ d ≤ df_len left_df
              ∧ (Z.modulo (Z.of_nat d)
                   (match progress_update_every with
                    | Some n => n
                    | None => Z.max (Z.of_nat (df_len left_df) / 200) 1
                    end) = 0%Z
                 ∨ d = df_len left_df)).
Proof.
  intros Hrun. apply run_calls in Hrun. subst calls.
  unfold initial_calls, ticks, resolve_update_every, default_update_every.
  split; intros ->; [reflexivity|].
  eexists. split; [reflexivity|]. split; [apply filter_seq_sorted|].
  intros d. rewrite list_elem_of_filter, elem_of_seq. split.
  - intros [Hd Hr]. split; [lia | exact Hd].
  - intros [Hr Hd]. split; [exact Hd | lia].
Qed.

(** ** Without rapidfuzz *)

(** X12: when rapidfuzz is not installed, [prefer_rapidfuzz] changes
    nothing: the two runs are the same, and a run with similarity names
    difflib as its engine. *)
Theorem prefer_rapidfuzz_inert_without_rapidfuzz (rt : Runtime)
    (left_df right_df : DataFrame)
    (left_output_cols right_output_cols left_match_cols right_match_cols : list string)
    (threshold : Q) (include_unmatched progress_callback : bool)
    (progress_update_every : option Z) :
  rapidfuzz_available rt = false →
  run_matching rt left_df right_df left_output_cols right_output_cols
    left_match_cols right_match_cols threshold include_unmatched
    true progress_callback progress_update_every
  = run_matching rt left_df right_df left_output_cols right_output_cols
      left_match_cols right_match_cols threshold include_unmatched
      false progress_callback progress_update_every
  ∧ ∀ prefer_rapidfuzz res calls,
      run_matching rt left_df right_df left_output_cols right_output_cols
        left_match_cols right_match_cols threshold include_unmatched
        prefer_rapidfuzz progress_callback progress_update_every
      = Ok (res, calls) →
      similarity_enabled res = true → similarity_engine res = "difflib".
Proof.
  intros Havail. split.
  - unfold run_matching, similarity_prefix. rewrite Havail. reflexivity.
  - intros prefer res calls Hrun Hen.
    rewrite (run_similarity_enabled _ _ _ _ _ _ _ _ _ _ _ _ _ _ Hrun) in Hen.
    revert Hrun. unfold run_matching. rewrite Hen, Havail, andb_false_r. simpl.
    intros Hrun.
    do 6 (apply bind_Ok in Hrun as (? & _ & Hrun)).
    apply bind_Ok in Hrun as (? & _ & [= <- _]). reflexivity.
Qed.

(** ** How a run ends *)

Lemma bind_Ok_l {A B : Type} (a : A) (f : A → result B) : Ok a ≫= f = f a.
Proof. reflexivity. Qed.

Section LoopOutcomes.
Variable rt : Runtime.
Hypothesis Hiter : set_iter_ok rt.
Variable right_text_values : list string.
Variable use_rapidfuzz : bool.
Variables left_output_records right_output_records : list (dict scalar).
Variable right_output_cols : list string.
Variable threshold : Q.
Variables include_unmatched progress_callback : bool.
Variable progress_update_every : Z.
Variable total_rows : nat.
Hypothesis Hright : length right_output_records = length right_text_values.

Local Abbreviation sloop :=
  (similarity_loop rt (build_token_index right_text_values)
     (build_exact_index right_text_values) right_text_values use_rapidfuzz
     left_output_records right_output_records right_output_cols threshold
     include_unmatched progress_callback progress_update_every total_rows).
Local Abbreviation ploop :=
  (positional_loop left_output_records right_output_records right_output_cols
     include_unmatched progress_callback progress_update_every total_rows).

Lemma progress_tick_zero (left_pos : nat) (calls : list (nat * nat)) :
  progress_callback = true → progress_update_every = 0%Z →
  progress_tick progress_callback progress_update_every total_rows left_pos calls
  = Raise ZeroDivisionError.
Proof using Type. intros -> ->. reflexivity. Qed.

Lemma progress_tick_nonzero (left_pos : nat) (calls : list (nat * nat)) :
  ¬ (progress_callback = true ∧ progress_update_every = 0%Z) →
  ∃ calls', progress_tick progress_callback progress_update_every
              total_rows left_pos calls = Ok calls'.
Proof using Type.
  intros Hn.
  destruct (progress_tick_total progress_callback progress_update_every
              total_rows left_pos calls) as [H|(_ & H1 & H2)]; [exact H|].
  exfalso. apply Hn. now split.
Qed.

(** One turn of the loop with similarity ends as its tick does. *)
Lemma similarity_step_tick (st : loop_state) (i : nat) (t : string) :
  i < length left_output_records →
  ∃ rows scores positions exact comparisons,
    similarity_step rt (build_token_index right_text_values)
      (build_exact_index right_text_values) right_text_values use_rapidfuzz
      left_output_records right_output_records right_output_cols threshold
      include_unmatched progress_callback progress_update_every total_rows
      st (i, t)
    = calls ← progress_tick progress_callback progress_update_every
                total_rows i (st_calls st);
      Ok {| st_rows := rows; st_best_scores := scores;
            st_best_positions := positions; st_exact_match_count := exact;
            st_candidate_comparisons := comparisons; st_calls := calls |}.
Proof using Hiter Hright.
  intros Hi. unfold similarity_step.
  destruct (match_row_total rt Hiter right_text_values use_rapidfuzz t) as [d Hd].
  rewrite Hd. simpl.
  destruct (output_row_total rt left_output_records right_output_records
              right_output_cols threshold i d Hi) as [row Hrow].
  { intros p Hp. rewrite Hright.
    exact (match_row_bound rt Hiter _ _ _ _ _ Hd Hp). }
  destruct (is_matched threshold d || include_unmatched);
    [rewrite Hrow|]; simpl; do 5 eexists; reflexivity.
Qed.

Lemma similarity_loop_outcome (left_text_values : list string)
    (st0 : loop_state) (k : nat) :
  length left_output_records = length left_text_values →
  k ≤ length left_text_values →
  if bool_decide (progress_callback = true ∧ progress_update_every = 0%Z ∧ 0 < k)
  then sloop (take k (enumerate left_text_values)) st0 = Raise ZeroDivisionError
  else ∃ st, sloop (take k (enumerate left_text_values)) st0 = Ok st.
Proof using Hiter Hright.
  intros Hleft. unfold similarity_loop. induction k as [|k IH]; intros Hk.
  - rewrite bool_decide_eq_false_2 by lia. simpl. eauto.
  - destruct (lookup_lt_is_Some_2 left_text_values k) as [t Ht]; [lia|].
    rewrite (take_S_r _ _ _ (enumerate_lookup _ _ _ Ht)), foldM_snoc.
    specialize (IH ltac:(lia)).
    destruct (decide (progress_callback = true ∧ progress_update_every = 0%Z))
      as [[Hcb Hz]|Hn].
    + rewrite bool_decide_eq_true_2 by (repeat split; [assumption.. | lia]).
      destruct (decide (0 < k)) as [Hpos|Hzero].
      * rewrite bool_decide_eq_true_2 in IH by tauto. now rewrite IH.
      * rewrite bool_decide_eq_false_2 in IH by tauto.
        destruct IH as [st1 ->]. rewrite bind_Ok_l.
        destruct (similarity_step_tick st1 k t ltac:(lia))
          as (? & ? & ? & ? & ? & ->).
        now rewrite progress_tick_zero.
    + rewrite bool_decide_eq_false_2 by tauto.
      rewrite bool_decide_eq_false_2 in IH by tauto.
      destruct IH as [st1 ->]. rewrite bind_Ok_l.
      destruct (similarity_step_tick st1 k t ltac:(lia))
        as (? & ? & ? & ? & ? & ->).
      destruct (progress_tick_nonzero k (st_calls st1) Hn) as [calls ->].
      simpl. eauto.
Qed.

Lemma positional_step_tick (st : list (dict obj) * list (nat * nat)) (i : nat) :
  i < length left_output_records →
  ∃ rows,
    positional_step left_output_records right_output_records right_output_cols
      include_unmatched progress_callback progress_update_every total_rows st i
    = calls ← progress_tick progress_callback progress_update_every
                total_rows i st.2;
      Ok (rows, calls).
Proof using Type.
  clear Hiter Hright.
  intros Hi. unfold positional_step.
  destruct (index_lt left_output_records i Hi) as (lrec & -> & _). simpl.
  destruct (decide (i < length right_output_records)) as [Hlt|Hge].
  - rewrite (bool_decide_eq_true_2 _ Hlt). simpl.
    destruct (index_lt right_output_records i Hlt) as (rrec & -> & _). simpl.
    eexists. reflexivity.
  - rewrite (bool_decide_eq_false_2 _ Hge). simpl. eexists. reflexivity.
Qed.

Lemma positional_loop_outcome (st0 : list (dict obj) * list (nat * nat)) (k : nat) :
  k ≤ length left_output_records →
  if bool_decide (progress_callback = true ∧ progress_update_every = 0%Z ∧ 0 < k)
  then ploop (seq 0 k) st0 = Raise ZeroDivisionError
  else ∃ st, ploop (seq 0 k) st0 = Ok st.
Proof using Type.
  clear Hiter Hright.
  unfold positional_loop. induction k as [|k IH]; intros Hk.
  - rewrite bool_decide_eq_false_2 by lia. simpl. eauto.
  - rewrite seq_S, foldM_snoc. simpl. specialize (IH ltac:(lia)).
    destruct (decide (progress_callback = true ∧ progress_update_every = 0%Z))
      as [[Hcb Hz]|Hn].
    + rewrite bool_decide_eq_true_2 by (repeat split; [assumption.. | lia]).
      destruct (decide (0 < k)) as [Hpos|Hzero].
      * rewrite bool_decide_eq_true_2 in IH by tauto. now rewrite IH.
      * rewrite bool_decide_eq_false_2 in IH by tauto.
        destruct IH as [st1 ->]. rewrite bind_Ok_l.
        destruct (positional_step_tick st1 k ltac:(lia)) as (? & ->).
        now rewrite progress_tick_zero.
    + rewrite bool_decide_eq_false_2 by tauto.
      rewrite bool_decide_eq_false_2 in IH by tauto.
      destruct IH as [st1 ->]. rewrite bind_Ok_l.
      destruct (positional_step_tick st1 k ltac:(lia)) as (? & ->).
      destruct (progress_tick_nonzero k st1.2 Hn) as [calls ->].
      simpl. eauto.
Qed.

End LoopOutcomes.

Lemma combine_columns_present (df : DataFrame) (cols : list string)
    (texts : combined) :
  combine_columns df cols = Ok texts →
  ∀ c, c ∈ cols → is_Some (df_columns df !! c).
Proof.
  unfold combine_columns. destruct cols as [|c r].
  - intros _ c Hc. now apply elem_of_nil in Hc.
  - intros H. apply bind_Ok in H as (sel & Hsel & _).
    exact (df_select_present _ _ _ Hsel).
Qed.

Lemma combine_columns_missing (df : DataFrame) (cols : list string) (e : exn) :
  combine_columns df cols = Raise e →
  ∃ c, e = KeyError c ∧ c ∈ cols ∧ df_columns df !! c = None.
Proof.
  unfold combine_columns. destruct cols as [|c r]; [discriminate|].
  destruct (df_select df (c :: r)) as [sel|e'] eqn:E; simpl.
  - destruct (decide (df_len df = 0)); discriminate.
  - intros [= <-]. exact (df_select_missing _ _ _ E).
Qed.

Lemma combine_columns_series (df : DataFrame) (cols : list string)
    (texts : list string) :
  combine_columns df cols = Ok (Series texts) → cols = [] ∨ 0 < df_len df.
Proof.
  unfold combine_columns. destruct cols as [|c r]; [now left|].
  intros H. apply bind_Ok in H as (sel & _ & H).
  destruct (decide (df_len df = 0)); [discriminate|]. right. lia.
Qed.

Lemma combine_columns_frame (df : DataFrame) (cols : list string) :
  combine_columns df cols = Ok EmptyFrame → cols ≠ [] ∧ df_len df = 0.
Proof.
  unfold combine_columns. destruct cols as [|c r]; [discriminate|].
  intros H. apply bind_Ok in H as (sel & _ & H).
  destruct (decide (df_len df = 0)); [|discriminate]. now split.
Qed.

(** Once the texts and the records are there, a run ends as its loop
    does. *)
Lemma run_matching_loops (rt : Runtime) (left_df right_df : DataFrame)
    (left_output_cols right_output_cols left_match_cols right_match_cols : list string)
    (threshold : Q) (include_unmatched prefer_rapidfuzz progress_callback : bool)
    (progress_update_every : option Z)
    (ltx rtx : list string) (lsel rsel : list (string * (nat → scalar))) :
  combine_columns left_df
    (if truthy left_match_cols && truthy right_match_cols
     then left_match_cols else []) = Ok (Series ltx) →
  combine_columns right_df
    (if truthy left_match_cols && truthy right_match_cols
     then right_match_cols else []) = Ok (Series rtx) →
  df_select left_df left_output_cols = Ok lsel →
  df_select right_df right_output_cols = Ok rsel →
  (truthy left_match_cols && truthy right_match_cols = true →
   (∀ st, similarity_prefix rt ltx rtx (to_records (df_len left_df) lsel)
            (to_records (df_len right_df) rsel) right_output_cols threshold
            include_unmatched prefer_rapidfuzz progress_callback
            progress_update_every (length ltx) = Ok st →
          ∃ res,
            run_matching rt left_df right_df left_output_cols right_output_cols
              left_match_cols right_match_cols threshold include_unmatched
              prefer_rapidfuzz progress_callback progress_update_every
            = Ok (res, st_calls st))
   ∧ ∀ e, similarity_prefix rt ltx rtx (to_records (df_len left_df) lsel)
            (to_records (df_len right_df) rsel) right_output_cols threshold
            include_unmatched prefer_rapidfuzz progress_callback
            progress_update_every (length ltx) = Raise e →
          run_matching rt left_df right_df left_output_cols right_output_cols
            left_match_cols right_match_cols threshold include_unmatched
            prefer_rapidfuzz progress_callback progress_update_every
          = Raise e)
  ∧ (truthy left_match_cols && truthy right_match_cols = false →
     (∀ st, positional_loop (to_records (df_len left_df) lsel)
              (to_records (df_len right_df) rsel) right_output_cols
              include_unmatched progress_callback
              (resolve_update_every progress_update_every (df_len left_df))
              (df_len left_df) (seq 0 (df_len left_df))
              ([], initial_calls progress_callback (df_len left_df)) = Ok st →
            ∃ res,
              run_matching rt left_df right_df left_output_cols right_output_cols
                left_match_cols right_match_cols threshold include_unmatched
                prefer_rapidfuzz progress_callback progress_update_every
              = Ok (res, st.2))
     ∧ ∀ e, positional_loop (to_records (df_len left_df) lsel)
              (to_records (df_len right_df) rsel) right_output_cols
              include_unmatched progress_callback
              (resolve_update_every progress_update_every (df_len left_df))
              (df_len left_df) (seq 0 (df_len left_df))
              ([], initial_calls progress_callback (df_len left_df)) = Raise e →
            run_matching rt left_df right_df left_output_cols right_output_cols
              left_match_cols right_match_cols threshold include_unmatched
              prefer_rapidfuzz progress_callback progress_update_every
            = Raise e).
Proof.
  intros Hlt Hrt Hl Hr. unfold run_matching.
  rewrite Hlt, Hrt, Hl, Hr, !bind_Ok_l, length_to_records.
  split; intros ->; simpl; split.
  - intros st ->. simpl. eauto.
  - intros e ->. reflexivity.
  - intros st ->. simpl. eauto.
  - intros e ->. reflexivity.
Qed.

(** A run whose similarity meets a frame without rows. *)
Lemma run_matching_no_rows (rt : Runtime) (left_df right_df : DataFrame)
    (left_output_cols right_output_cols left_match_cols right_match_cols : list string)
    (threshold : Q) (include_unmatched prefer_rapidfuzz progress_callback : bool)
    (progress_update_every : option Z)
    (ltx rtx : combined) (lsel rsel : list (string * (nat → scalar))) :
  truthy left_match_cols && truthy right_match_cols = true →
  combine_columns left_df left_match_cols = Ok ltx →
  combine_columns right_df right_match_cols = Ok rtx →
  df_select left_df left_output_cols = Ok lsel →
  df_select right_df right_output_cols = Ok rsel →
  ltx = EmptyFrame ∨ rtx = EmptyFrame →
  run_matching rt left_df right_df left_output_cols right_output_cols
    left_match_cols right_match_cols threshold include_unmatched
    prefer_rapidfuzz progress_callback progress_update_every
  = Raise AttributeError.
Proof.
  intros Hen Hlt Hrt Hl Hr Hframe. unfold run_matching.
  rewrite Hen, Hlt, Hrt, Hl, Hr, !bind_Ok_l. simpl.
  destruct ltx as [ltexts|]; [|reflexivity].
  destruct Hframe as [Hf| ->]; [discriminate Hf | reflexivity].
Qed.

(** X13: how a run ends, for output selections that are not empty.  It
    returns a result exactly when every column it uses is a column of
    its frame (the output columns, and the match columns when similarity
    is enabled), similarity does not meet a frame without rows, and no
    tick divides by zero.  It raises [KeyError] only for a used column
    that its frame lacks; [AttributeError] exactly when the columns are
    there, similarity is enabled and the left or the right frame has no
    row; [ZeroDivisionError] exactly when the columns are there,
    similarity meets no frame without rows, a callback is given, the
    interval is zero and there is a left row; and it never raises
    [IndexError]. *)
Theorem run_matching_outcome (rt : Runtime) (left_df right_df : DataFrame)
    (left_output_cols right_output_cols left_match_cols right_match_cols : list string)
    (threshold : Q) (include_unmatched prefer_rapidfuzz progress_callback : bool)
    (progress_update_every : option Z) :
  set_iter_ok rt →
  left_output_cols ≠ [] → right_output_cols ≠ [] →
  let enabled := truthy left_match_cols && truthy right_match_cols in
  let used_left := ((if enabled then left_match_cols else []) ++ left_output_cols)%list in
  let used_right := ((if enabled then right_match_cols else []) ++ right_output_cols)%list in
  let columns_ok :=
    (∀ c, c ∈ used_left → is_Some (df_columns left_df !! c))
    ∧ (∀ c, c ∈ used_right → is_Some (df_columns right_df !! c)) in
  let no_rows :=
    enabled = true ∧ (df_len left_df = 0 ∨ df_len right_df = 0) in
  let zero_interval :=
    progress_callback = true
    ∧ resolve_update_every progress_update_every (df_len left_df) = 0%Z
    ∧ 0 < df_len left_df in
  match run_matching rt left_df right_df left_output_cols right_output_cols
          left_match_cols right_match_cols threshold include_unmatched
          prefer_rapidfuzz progress_callback progress_update_every with
  | Ok _ => columns_ok ∧ ¬ no_rows ∧ ¬ zero_interval
  | Raise (KeyError c) =>
      (c ∈ used_left ∧ df_columns left_df !! c = None)
      ∨ (c ∈ used_right ∧ df_columns right_df !! c = None)
  | Raise AttributeError => columns_ok ∧ no_rows
  | Raise ZeroDivisionError => columns_ok ∧ ¬ no_rows ∧ zero_interval
  | Raise IndexError => False
  end.
Proof.
  intros Hiter _ _ enabled used_left used_right columns_ok no_rows zero_interval.
  destruct (combine_columns left_df (if enabled then left_match_cols else []))
    as [ltx|e] eqn:Hlt.
  2:{ assert (Hrun : run_matching rt left_df right_df left_output_cols
                       right_output_cols left_match_cols right_match_cols
                       threshold include_unmatched prefer_rapidfuzz
                       progress_callback progress_update_every = Raise e).
      { unfold run_matching. fold enabled. now rewrite Hlt. }
      rewrite Hrun. apply combine_columns_missing in Hlt as (c & -> & Hc & Hn).
      left. split; [apply elem_of_app; now left | exact Hn]. }
  destruct (combine_columns right_df (if enabled then right_match_cols else []))
    as [rtx|e] eqn:Hrt.
  2:{ assert (Hrun : run_matching rt left_df right_df left_output_cols
                       right_output_cols left_match_cols right_match_cols
                       threshold include_unmatched prefer_rapidfuzz
                       progress_callback progress_update_every = Raise e).
      { unfold run_matching. fold enabled. now rewrite Hlt, Hrt. }
      rewrite Hrun. apply combine_columns_missing in Hrt as (c & -> & Hc & Hn).
      right. split; [apply elem_of_app; now left | exact Hn]. }
  destruct (df_select left_df left_output_cols) as [lsel|e] eqn:Hl.
  2:{ assert (Hrun : run_matching rt left_df right_df left_output_cols
                       right_output_cols left_match_cols right_match_cols
                       threshold include_unmatched prefer_rapidfuzz
                       progress_callback progress_update_every = Raise e).
      { unfold run_matching. fold enabled. now rewrite Hlt, Hrt, Hl. }
      rewrite Hrun. apply df_select_missing in Hl as (c & -> & Hc & Hn).
      left. split; [apply elem_of_app; now right | exact Hn]. }
  destruct (df_select right_df right_output_cols) as [rsel|e] eqn:Hr.
  2:{ assert (Hrun : run_matching rt left_df right_df left_output_cols
                       right_output_cols left_match_cols right_match_cols
                       threshold include_unmatched prefer_rapidfuzz
                       progress_callback progress_update_every = Raise e).
      { unfold run_matching. fold enabled. now rewrite Hlt, Hrt, Hl, Hr. }
      rewrite Hrun. apply df_select_missing in Hr as (c & -> & Hc & Hn).
      right. split; [apply elem_of_app; now right | exact Hn]. }
  assert (Hcols : columns_ok).
  { split; intros c Hc; apply elem_of_app in Hc as [Hc|Hc].
    - exact (combine_columns_present _ _ _ Hlt c Hc).
    - exact (df_select_present _ _ _ Hl c Hc).
    - exact (combine_columns_present _ _ _ Hrt c Hc).
    - exact (df_select_present _ _ _ Hr c Hc). }
  destruct enabled eqn:Hen.
  - assert (Hlm : left_match_cols ≠ [] ∧ right_match_cols ≠ []).
    { destruct left_match_cols, right_match_cols; try discriminate Hen.
      split; discriminate. }
    destruct Hlm as [Hlm Hrm].
    destruct (decide (ltx = EmptyFrame ∨ rtx = EmptyFrame)) as [Hframe|Hseries].
    { rewrite (run_matching_no_rows rt _ _ _ _ _ _ threshold include_unmatched
                 prefer_rapidfuzz progress_callback progress_update_every
                 _ _ _ _ Hen Hlt Hrt Hl Hr Hframe).
      split; [exact Hcols|]. split; [reflexivity|].
      destruct Hframe as [-> | ->].
      - left. now apply combine_columns_frame in Hlt.
      - right. now apply combine_columns_frame in Hrt. }
    destruct ltx as [ltx|]; [|exfalso; apply Hseries; now left].
    destruct rtx as [rtx|]; [|exfalso; apply Hseries; now right].
    assert (Hrows : ¬ no_rows).
    { intros [_ [Hz|Hz]].
      - destruct (combine_columns_series _ _ _ Hlt); [contradiction | lia].
      - destruct (combine_columns_series _ _ _ Hrt); [contradiction | lia]. }
    pose proof (length_combine_columns _ _ _ Hlt) as Hllen.
    pose proof (length_combine_columns _ _ _ Hrt) as Hrlen.
    assert (Hen' : truthy left_match_cols && truthy right_match_cols = true)
      by exact Hen.
    pose proof (run_matching_loops rt left_df right_df left_output_cols
                  right_output_cols left_match_cols right_match_cols threshold
                  include_unmatched prefer_rapidfuzz progress_callback
                  progress_update_every ltx rtx lsel rsel) as Hloops.
    rewrite Hen' in Hloops. destruct (Hloops Hlt Hrt Hl Hr) as [Hsim _].
    destruct (Hsim eq_refl) as [HOk HRaise]. clear Hsim Hloops.
    pose proof (similarity_loop_outcome rt Hiter rtx
                  (prefer_rapidfuzz && rapidfuzz_available rt)
                  (to_records (df_len left_df) lsel)
                  (to_records (df_len right_df) rsel)
                  right_output_cols threshold include_unmatched
                  progress_callback
                  (resolve_update_every progress_update_every (length ltx))
                  (length ltx)
                  ltac:(rewrite length_to_records; lia)
                  ltx
                  {| st_rows := []; st_best_scores := [];
                     st_best_positions := []; st_exact_match_count := 0;
                     st_candidate_comparisons := 0;
                     st_calls := initial_calls progress_callback (length ltx) |}
                  (length ltx)
                  ltac:(rewrite length_to_records; lia)
                  ltac:(lia)) as Hloop.
    destruct (decide zero_interval) as [Hz|Hz].
    + rewrite bool_decide_eq_true_2 in Hloop by (rewrite Hllen; exact Hz).
      rewrite (HRaise _ Hloop). split; [exact Hcols | split; [exact Hrows | exact Hz]].
    + rewrite bool_decide_eq_false_2 in Hloop by (rewrite Hllen; exact Hz).
      destruct Hloop as [st Hst]. destruct (HOk _ Hst) as [res ->].
      split; [exact Hcols | split; [exact Hrows | exact Hz]].
  - assert (Hrows : ¬ no_rows) by (intros [Hf _]; discriminate Hf).
    destruct ltx as [ltx|];
      [|apply combine_columns_frame in Hlt as [Hne _]; contradiction].
    destruct rtx as [rtx|];
      [|apply combine_columns_frame in Hrt as [Hne _]; contradiction].
    assert (Hen' : truthy left_match_cols && truthy right_match_cols = false)
      by exact Hen.
    pose proof (run_matching_loops rt left_df right_df left_output_cols
                  right_output_cols left_match_cols right_match_cols threshold
                  include_unmatched prefer_rapidfuzz progress_callback
                  progress_update_every ltx rtx lsel rsel) as Hloops.
    rewrite Hen' in Hloops. destruct (Hloops Hlt Hrt Hl Hr) as [_ Hpos].
    destruct (Hpos eq_refl) as [HOk HRaise]. clear Hpos Hloops.
    pose proof (positional_loop_outcome
                  (to_records (df_len left_df) lsel)
                  (to_records (df_len right_df) rsel) right_output_cols
                  include_unmatched progress_callback
                  (resolve_update_every progress_update_every (df_len left_df))
                  (df_len left_df)
                  ([], initial_calls progress_callback (df_len left_df))
                  (df_len left_df)
                  ltac:(rewrite length_to_records; lia)) as Hloop.
    destruct (decide zero_interval) as [Hz|Hz].
    + rewrite bool_decide_eq_true_2 in Hloop by exact Hz.
      rewrite (HRaise _ Hloop). split; [exact Hcols | split; [exact Hrows | exact Hz]].
    + rewrite bool_decide_eq_false_2 in Hloop by exact Hz.
      destruct Hloop as [st Hst]. destruct (HOk _ Hst) as [res ->].
      split; [exact Hcols | split; [exact Hrows | exact Hz]].
Qed.

(** * The result in the page: filter and counts *)

Lemma add_keys_elem (keys acc : list string) (c : string) :
  c ∈ fold_left
        (λ (cols : list string) (key : string),
           if decide (key ∈ cols) then cols else (cols ++ [key])%list)
        keys acc
  ↔ c ∈ acc ∨ c ∈ keys.
Proof.
  revert acc. induction keys as [|k r IH]; intros acc; simpl.
  - split; [now left|]. intros [H|H]; [exact H | now apply elem_of_nil in H].
  - rewrite IH. destruct (decide (k ∈ acc)) as [Hk|Hk].
    + split.
      * intros [H|H]; [now left | right; now right].
      * intros [H|H]; [now left|].
        apply elem_of_cons in H as [->|H]; [now left | now right].
    + rewrite elem_of_app, list_elem_of_singleton. split.
      * intros [[H| ->]|H]; [now left | right; left | right; now right].
      * intros [H|H]; [left; now left|].
        apply elem_of_cons in H as [->|H]; [left; now right | now right].
Qed.

Lemma dict_get_is_Some {V : Type} (d : dict V) (c : string) :
  is_Some (dict_get c d) ↔ c ∈ map fst d.
Proof.
  induction d as [|[k v] r IH]; simpl.
  - split; [intros [x Hx]; discriminate | intros H; now apply elem_of_nil in H].
  - destruct (decide (k = c)) as [->|Hne].
    + split; [intros _; left | eauto].
    + rewrite IH. split; [now right|].
      intros H. apply elem_of_cons in H as [->|H]; [contradiction | exact H].
Qed.

Lemma frame_columns_elem (rows : list (dict obj)) (c : string) :
  c ∈ fr_columns (DataFrame_of_rows rows) ↔
  ∃ row, row ∈ rows ∧ is_Some (dict_get c row).
Proof.
  unfold DataFrame_of_rows. simpl. rewrite add_keys_elem. split.
  - intros [H|H]; [now apply elem_of_nil in H|].
    apply list_elem_of_In, in_concat in H as (keys & Hkeys & Hc).
    apply in_map_iff in Hkeys as (row & <- & Hrow).
    exists row. split; [now apply list_elem_of_In|].
    apply dict_get_is_Some. now apply list_elem_of_In.
  - intros (row & Hrow & Hc). right.
    apply list_elem_of_In, in_concat. exists (map fst row). split.
    + apply in_map. now apply list_elem_of_In.
    + apply list_elem_of_In. now apply dict_get_is_Some.
Qed.

Lemma filter_map_in {A B : Type} (f : A → B)
    (P : B → Prop) `{∀ y, Decision (P y)}
    (Q : A → Prop) `{∀ x, Decision (Q x)} (l : list A) :
  (∀ x, x ∈ l → P (f x) ↔ Q x) → filter P (map f l) = map f (filter Q l).
Proof.
  induction l as [|a r IH]; intros Hl; [reflexivity|]. simpl.
  rewrite !filter_cons.
  assert (Ha : P (f a) ↔ Q a) by (apply Hl; left).
  rewrite IH by (intros x Hx; apply Hl; now right).
  destruct (decide (P (f a))), (decide (Q a)); simpl; tauto.
Qed.

(** The rows of a run with similarity and the status each of them holds. *)
Lemma run_status_rows (rt : Runtime) (left_df right_df : DataFrame)
    (left_output_cols right_output_cols left_match_cols right_match_cols : list string)
    (threshold : Q) (include_unmatched prefer_rapidfuzz progress_callback : bool)
    (progress_update_every : option Z)
    (res : MatchResult) (calls : list (nat * nat)) :
  truthy left_match_cols && truthy right_match_cols = true →
  run_matching rt left_df right_df left_output_cols right_output_cols
    left_match_cols right_match_cols threshold include_unmatched
    prefer_rapidfuzz progress_callback progress_update_every = Ok (res, calls) →
  ∃ row : nat → dict obj,
    result_df res =
      map row
        (filter (λ i, row_matched res threshold i || include_unmatched = true)
           (seq 0 (df_len left_df)))
    ∧ ∀ i, i < df_len left_df →
           dict_get "Match_Status" (row i) =
           Some (Text (if row_matched res threshold i
                       then "Matched" else "No match")).
Proof.
  intros Hen Hrun.
  destruct (run_decisions _ _ _ _ _ _ _ _ _ _ _ _ _ _ Hen Hrun)
    as (lsel & rsel & ds & _ & _ & Hllen & _ & HF & Hs & Hp & _ & _ & _ & Hrows).
  assert (Hlen : length ds = df_len left_df)
    by (apply Forall2_length in HF; lia).
  set (d0 := {| best_score := 0%Q; best_right_pos := None;
                exact_hit := false; comparisons := 0 |}).
  set (row := λ i, scored_row rt (to_records (df_len left_df) lsel)
                     (to_records (df_len right_df) rsel) right_output_cols
                     threshold i (default d0 (ds !! i))).
  assert (Hm : ∀ i d, ds !! i = Some d →
                      row_matched res threshold i = is_matched threshold d).
  { intros i d Hd. apply row_matched_decision;
      rewrite ?Hs, ?Hp, list_lookup_fmap, Hd; reflexivity. }
  exists row. split.
  - rewrite Hrows.
    rewrite (map_filter_enumerate ds _
               (λ i, row_matched res threshold i || include_unmatched = true)
               _ row).
    + now rewrite Hlen.
    + intros i d Hd. unfold row. rewrite Hd, (Hm i d Hd). simpl.
      split; reflexivity.
  - intros i Hi. destruct (lookup_lt_is_Some_2 ds i) as [d Hd]; [lia|].
    unfold row, scored_row. rewrite Hd, (Hm i d Hd). simpl.
    apply dict_get_set_eq.
Qed.

(** The rows the filter keeps, for a run with similarity. *)
Lemma run_filter_rows (rt : Runtime) (left_df right_df : DataFrame)
    (left_output_cols right_output_cols left_match_cols right_match_cols : list string)
    (threshold : Q) (include_unmatched prefer_rapidfuzz progress_callback : bool)
    (progress_update_every : option Z)
    (res : MatchResult) (calls : list (nat * nat)) :
  truthy left_match_cols && truthy right_match_cols = true →
  run_matching rt left_df right_df left_output_cols right_output_cols
    left_match_cols right_match_cols threshold include_unmatched
    prefer_rapidfuzz progress_callback progress_update_every = Ok (res, calls) →
  ∃ row : nat → dict obj,
    result_df res =
      map row
        (filter (λ i, row_matched res threshold i || include_unmatched = true)
           (seq 0 (df_len left_df)))
    ∧ fr_rows (filter_results_by_status (DataFrame_of_rows (result_df res))
                 "Matched only")
      = map row (filter (λ i, row_matched res threshold i = true)
                   (seq 0 (df_len left_df)))
    ∧ fr_rows (filter_results_by_status (DataFrame_of_rows (result_df res))
                 "No match only")
      = map row (filter (λ i, row_matched res threshold i = false
                              ∧ include_unmatched = true)
                   (seq 0 (df_len left_df)))
    ∧ no_match_count (DataFrame_of_rows (result_df res))
      = length (filter (λ i, row_matched res threshold i = false
                             ∧ include_unmatched = true)
                  (seq 0 (df_len left_df))).
Proof.
  intros Hen Hrun.
  destruct (run_status_rows _ _ _ _ _ _ _ _ _ _ _ _ _ _ Hen Hrun)
    as (row & Hrows & Hstatus).
  exists row. split; [exact Hrows|].
  set (kept := λ i, row_matched res threshold i || include_unmatched = true)
    in *.
  assert (Hfilter : ∀ status (Q : nat → Prop) `{∀ i, Decision (Q i)},
            (∀ i, i < df_len left_df → kept i →
                  (status_is status (row i) = true ↔ Q i)) →
            (∀ i, Q i → kept i) →
            filter (λ r, status_is status r = true) (result_df res)
            = map row (filter Q (seq 0 (df_len left_df)))).
  { intros status Q HQdec HQ HQkept. rewrite Hrows.
    rewrite (filter_map_in row _ Q).
    - rewrite list_filter_filter. f_equal. apply filter_ext_in.
      intros i _. split; [tauto | intros Hi; split; [exact Hi | auto]].
    - intros i Hi. apply list_elem_of_filter in Hi as [Hk Hi].
      apply elem_of_seq in Hi. apply HQ; [lia | exact Hk]. }
  assert (Hcol : "Match_Status" ∉ fr_columns (DataFrame_of_rows (result_df res)) →
                 result_df res = []).
  { intros Hn. destruct (result_df res) as [|r rest] eqn:E; [reflexivity|].
    exfalso. apply Hn, frame_columns_elem. exists r. split; [left|].
    assert (Hr : r ∈ map row (filter kept (seq 0 (df_len left_df))))
      by (rewrite <- Hrows; left).
    apply list_elem_of_fmap in Hr as (i & -> & Hi).
    apply list_elem_of_filter in Hi as [_ Hi]. apply elem_of_seq in Hi.
    rewrite Hstatus by lia. eauto. }
  assert (Hmatched :
            filter (λ r, status_is "Matched" r = true) (result_df res)
            = map row (filter (λ i, row_matched res threshold i = true)
                         (seq 0 (df_len left_df)))).
  { apply Hfilter.
    - intros i Hi _. unfold status_is. rewrite (Hstatus i Hi).
      destruct (row_matched res threshold i); simpl; split; auto; discriminate.
    - intros i Hi. unfold kept. now rewrite Hi. }
  assert (Hno :
            filter (λ r, status_is "No match" r = true) (result_df res)
            = map row (filter (λ i, row_matched res threshold i = false
                                    ∧ include_unmatched = true)
                         (seq 0 (df_len left_df)))).
  { apply Hfilter.
    - intros i Hi Hk. unfold status_is. rewrite (Hstatus i Hi).
      unfold kept in Hk.
      destruct (row_matched res threshold i); simpl in *.
      + split; [discriminate | intros [? _]; discriminate].
      + split; [intros _; split; [reflexivity | exact Hk] | reflexivity].
    - intros i [Hi Hinc]. unfold kept. now rewrite Hinc, orb_true_r. }
  unfold filter_results_by_status, no_match_count.
  destruct (decide ("Match_Status" ∈ fr_columns (DataFrame_of_rows (result_df res))))
    as [Hin|Hnin].
  - simpl. rewrite Hmatched, Hno, length_map. repeat split; reflexivity.
  - pose proof (Hcol Hnin) as Hnil. rewrite Hnil in Hmatched, Hno.
    rewrite filter_nil in Hmatched, Hno. simpl. rewrite Hnil.
    split; [exact Hmatched|]. split; [exact Hno|].
    apply (f_equal length) in Hno. now rewrite length_map in Hno.
Qed.

Lemma length_filter_split {A : Type} (K P Q : A → Prop)
    `{∀ x, Decision (K x)} `{∀ x, Decision (P x)} `{∀ x, Decision (Q x)}
    (l : list A) :
  (∀ x, x ∈ l → (K x ↔ P x ∨ Q x) ∧ ¬ (P x ∧ Q x)) →
  length (filter K l) = length (filter P l) + length (filter Q l).
Proof.
  induction l as [|a r IH]; intros Hl; [reflexivity|].
  rewrite !filter_cons. destruct (Hl a) as [HK Hdis]; [left|].
  assert (IH' := IH (λ x Hx, Hl x (list_elem_of_further _ _ _ Hx))).
  destruct (decide (K a)), (decide (P a)), (decide (Q a));
    simpl; rewrite ?IH'; tauto || lia.
Qed.

(** X14: on the frame of a run with similarity, the filter "Matched
    only" keeps the rows of the Matched left rows, "No match only" the
    rows of the other left rows the run kept, both in the order of the
    left rows; the two together have as many rows as the frame; and any
    other mode gives the frame back. *)
Theorem filter_similarity_result (rt : Runtime) (left_df right_df : DataFrame)
    (left_output_cols right_output_cols left_match_cols right_match_cols : list string)
    (threshold : Q) (include_unmatched prefer_rapidfuzz progress_callback : bool)
    (progress_update_every : option Z)
    (res : MatchResult) (calls : list (nat * nat)) :
  similarity_enabled res = true →
  run_matching rt left_df right_df left_output_cols right_output_cols
    left_match_cols right_match_cols threshold include_unmatched
    prefer_rapidfuzz progress_callback progress_update_every = Ok (res, calls) →
  (∃ row : nat → dict obj,
     result_df res =
       map row
         (filter (λ i, row_matched res threshold i || include_unmatched = true)
            (seq 0 (df_len left_df)))
     ∧ fr_rows (filter_results_by_status (DataFrame_of_rows (result_df res))
                  "Matched only")
       = map row (filter (λ i, row_matched res threshold i = true)
                    (seq 0 (df_len left_df)))
     ∧ fr_rows (filter_results_by_status (DataFrame_of_rows (result_df res))
                  "No match only")
       = map row (filter (λ i, row_matched res threshold i = false
                               ∧ include_unmatched = true)
                    (seq 0 (df_len left_df))))
  ∧ length (fr_rows (filter_results_by_status
                       (DataFrame_of_rows (result_df res)) "Matched only"))
    + length (fr_rows (filter_results_by_status
                         (DataFrame_of_rows (result_df res)) "No match only"))
    = length (result_df res)
  ∧ ∀ mode, mode ≠ "Matched only" → mode ≠ "No match only" →
            filter_results_by_status (DataFrame_of_rows (result_df res)) mode
            = DataFrame_of_rows (result_df res).
Proof.
  intros Hen Hrun.
  rewrite (run_similarity_enabled _ _ _ _ _ _ _ _ _ _ _ _ _ _ Hrun) in Hen.
  destruct (run_filter_rows _ _ _ _ _ _ _ _ _ _ _ _ _ _ Hen Hrun)
    as (row & Hrows & Hm & Hn & _).
  split; [exists row; repeat split; assumption|]. split.
  - rewrite Hm, Hn, Hrows, !length_map. symmetry.
    apply length_filter_split. intros i _.
    destruct (row_matched res threshold i), include_unmatched; simpl;
      intuition congruence.
  - intros mode H1 H2. unfold filter_results_by_status.
    destruct (decide (_ ∈ _)); [|reflexivity].
    destruct (decide (mode = "Matched only")); [contradiction|].
    destruct (decide (mode = "No match only")); [contradiction | reflexivity].
Qed.

(** X15: on the frame of a run without similarity the filter changes
    nothing, whatever the mode, and no row counts as "No match". *)
Theorem filter_positional_result (rt : Runtime) (left_df right_df : DataFrame)
    (left_output_cols right_output_cols left_match_cols right_match_cols : list string)
    (threshold : Q) (include_unmatched prefer_rapidfuzz progress_callback : bool)
    (progress_update_every : option Z)
    (res : MatchResult) (calls : list (nat * nat)) :
  similarity_enabled res = false →
  run_matching rt left_df right_df left_output_cols right_output_cols
    left_match_cols right_match_cols threshold include_unmatched
    prefer_rapidfuzz progress_callback progress_update_every = Ok (res, calls) →
  ("Match_Status" ∉ fr_columns (DataFrame_of_rows (result_df res)))
  ∧ no_match_count (DataFrame_of_rows (result_df res)) = 0
  ∧ ∀ mode, filter_results_by_status (DataFrame_of_rows (result_df res)) mode
            = DataFrame_of_rows (result_df res).
Proof.
  intros Hen Hrun.
  rewrite (run_similarity_enabled _ _ _ _ _ _ _ _ _ _ _ _ _ _ Hrun) in Hen.
  destruct (run_disabled _ _ _ _ _ _ _ _ _ _ _ _ _ _ Hen Hrun)
    as (lsel & rsel & _ & _ & Hrows & _).
  assert (Hcol : "Match_Status" ∉ fr_columns (DataFrame_of_rows (result_df res))).
  { intros Hin. apply frame_columns_elem in Hin as (r & Hr & [v Hv]).
    rewrite Hrows in Hr. apply list_elem_of_fmap in Hr as (i & -> & _).
    unfold positional_row in Hv. rewrite merged_row_other in Hv; [discriminate| |];
      intros c; apply fixed_fields_not_prefixed. }
  split; [exact Hcol|]. unfold no_match_count, filter_results_by_status.
  destruct (decide (_ ∈ _)); [contradiction|]. split; reflexivity.
Qed.

(** ** The counts of the summary *)

Lemma matched_count_snoc (scores : list Q) (s threshold : Q) :
  matched_count (scores ++ [s]) threshold =
  matched_count scores threshold + (if Qle_bool threshold s then 1 else 0).
Proof.
  unfold matched_count. rewrite map_app, sum_list_with_app. simpl. lia.
Qed.

Lemma matched_count_index (scores : list Q) (threshold : Q) :
  matched_count scores threshold =
  length (filter (λ i, Qle_bool threshold <$> scores !! i = Some true)
            (seq 0 (length scores))).
Proof.
  induction scores as [|s scores IH] using rev_ind; [reflexivity|].
  rewrite matched_count_snoc, IH, length_app. simpl.
  rewrite Nat.add_1_r, seq_S, filter_app, length_app. f_equal.
  - f_equal. apply filter_ext_in. intros i Hi. apply elem_of_seq in Hi.
    now rewrite lookup_app_l by lia.
  - rewrite filter_cons, filter_nil. change (0 + length scores) with (length scores).
    rewrite (list_lookup_middle scores [] s (length scores) eq_refl). simpl.
    destruct (Qle_bool threshold s);
      [rewrite decide_True by reflexivity | rewrite decide_False by discriminate];
      reflexivity.
Qed.

(** The entries of a row in the two lists, for every left row. *)
Lemma run_entries (rt : Runtime) (left_df right_df : DataFrame)
    (left_output_cols right_output_cols left_match_cols right_match_cols : list string)
    (threshold : Q) (include_unmatched prefer_rapidfuzz progress_callback : bool)
    (progress_update_every : option Z)
    (res : MatchResult) (calls : list (nat * nat)) (i : nat) :
  truthy left_match_cols && truthy right_match_cols = true →
  run_matching rt left_df right_df left_output_cols right_output_cols
    left_match_cols right_match_cols threshold include_unmatched
    prefer_rapidfuzz progress_callback progress_update_every = Ok (res, calls) →
  i < df_len left_df →
  ∃ s pos, best_scores res !! i = Some s ∧ best_positions res !! i = Some pos
           ∧ (pos = None → s = 0%Q) ∧ (is_Some pos → (0 < s)%Q).
Proof.
  intros Hen Hrun Hi.
  destruct (run_decisions _ _ _ _ _ _ _ _ _ _ _ _ _ _ Hen Hrun)
    as (lsel & rsel & ds & _ & _ & Hllen & _ & HF & Hs & Hp & _).
  destruct (lookup_lt_is_Some_2 ds i) as [d Hd];
    [apply Forall2_length in HF; lia|].
  destruct (Forall2_lookup_r _ _ _ _ _ HF Hd) as (t & _ & Hrow & _).
  exists (best_score d), (best_right_pos d).
  rewrite Hs, Hp, !list_lookup_fmap, Hd. repeat split.
  - apply (match_row_sign _ _ _ _ _ _ _ Hrow).
  - apply (match_row_sign _ _ _ _ _ _ _ Hrow).
Qed.

(** X16: for a threshold above 0.0, the count "Matched Left Rows" of
    the summary is the number of Matched left rows, which is the number
    of rows the filter "Matched only" keeps; the count "No-Match Left
    Rows" is the number of the other left rows with [include_unmatched]
    and 0 without it. *)
Theorem summary_counts (rt : Runtime) (left_df right_df : DataFrame)
    (left_output_cols right_output_cols left_match_cols right_match_cols : list string)
    (threshold : Q) (include_unmatched prefer_rapidfuzz progress_callback : bool)
    (progress_update_every : option Z)
    (res : MatchResult) (calls : list (nat * nat)) :
  similarity_enabled res = true →
  run_matching rt left_df right_df left_output_cols right_output_cols
    left_match_cols right_match_cols threshold include_unmatched
    prefer_rapidfuzz progress_callback progress_update_every = Ok (res, calls) →
  (0 < threshold)%Q →
  matched_count (best_scores res) threshold
  = length (filter (λ i, row_matched res threshold i = true)
              (seq 0 (df_len left_df)))
  ∧ matched_count (best_scores res) threshold
    = length (fr_rows (filter_results_by_status
                         (DataFrame_of_rows (result_df res)) "Matched only"))
  ∧ no_match_count (DataFrame_of_rows (result_df res))
    = if include_unmatched
      then df_len left_df - matched_count (best_scores res) threshold
      else 0.
Proof.
  intros Hen Hrun Hth.
  rewrite (run_similarity_enabled _ _ _ _ _ _ _ _ _ _ _ _ _ _ Hrun) in Hen.
  destruct (run_filter_rows _ _ _ _ _ _ _ _ _ _ _ _ _ _ Hen Hrun)
    as (row & _ & Hm & _ & Hno).
  destruct (run_decisions _ _ _ _ _ _ _ _ _ _ _ _ _ _ Hen Hrun)
    as (lsel & rsel & ds & _ & _ & Hllen & _ & HF & Hs & _).
  assert (Hlen : length (best_scores res) = df_len left_df)
    by (rewrite Hs, length_map; apply Forall2_length in HF; lia).
  assert (Hcount : matched_count (best_scores res) threshold
                   = length (filter (λ i, row_matched res threshold i = true)
                               (seq 0 (df_len left_df)))).
  { rewrite matched_count_index, Hlen. f_equal. apply filter_ext_in.
    intros i Hi. apply elem_of_seq in Hi.
    destruct (run_entries _ _ _ _ _ _ _ _ _ _ _ _ _ _ i Hen Hrun)
      as (s & pos & Hsi & Hpi & Hnone & Hsome); [lia|].
    unfold row_matched. rewrite Hsi, Hpi. simpl.
    destruct pos as [p|]; [split; congruence|].
    rewrite Hnone by reflexivity. split; [|discriminate].
    intros [= Hle]. apply Qle_bool_iff in Hle.
    exfalso. exact (Qlt_not_le _ _ Hth Hle). }
  split; [exact Hcount|]. split; [now rewrite Hm, length_map|].
  rewrite Hno, Hcount. destruct include_unmatched.
  - pose proof (length_filter_split (λ _ : nat, True)
                  (λ i, row_matched res threshold i = true)
                  (λ i, row_matched res threshold i = false ∧ true = true)
                  (seq 0 (df_len left_df))) as Hsplit.
    rewrite filter_all, length_seq in Hsplit by (intros; exact I).
    assert (Hsum := Hsplit ltac:(intros i _;
      destruct (row_matched res threshold i); intuition congruence)).
    lia.
  - rewrite (filter_ext_in _ (λ _, False)); [|intros i _; split; [intros [_ [=]] | tauto]].
    clear. induction (seq 0 (df_len left_df)) as [|a r IH]; [reflexivity|].
    rewrite filter_cons. destruct (decide False); [contradiction | exact IH].
Qed.

(** X17: for a threshold of 0.0 or less, the count "Matched Left Rows"
    of the summary is the number of left rows, while the rows that
    are Matched are the rows with a position. *)
Theorem matched_count_at_zero_threshold (rt : Runtime) (left_df right_df : DataFrame)
    (left_output_cols right_output_cols left_match_cols right_match_cols : list string)
    (threshold : Q) (include_unmatched prefer_rapidfuzz progress_callback : bool)
    (progress_update_every : option Z)
    (res : MatchResult) (calls : list (nat * nat)) :
  similarity_enabled res = true →
  run_matching rt left_df right_df left_output_cols right_output_cols
    left_match_cols right_match_cols threshold include_unmatched
    prefer_rapidfuzz progress_callback progress_update_every = Ok (res, calls) →
  (threshold <= 0)%Q →
  matched_count (best_scores res) threshold = df_len left_df
  ∧ ∀ i pos, best_positions res !! i = Some pos →
             row_matched res threshold i = bool_decide (is_Some pos).
Proof.
  intros Hen Hrun Hth.
  rewrite (run_similarity_enabled _ _ _ _ _ _ _ _ _ _ _ _ _ _ Hrun) in Hen.
  destruct (run_decisions _ _ _ _ _ _ _ _ _ _ _ _ _ _ Hen Hrun)
    as (lsel & rsel & ds & _ & _ & Hllen & _ & HF & Hs & Hp & _).
  assert (Hlen : length (best_scores res) = df_len left_df)
    by (rewrite Hs, length_map; apply Forall2_length in HF; lia).
  assert (Hle : ∀ i s, best_scores res !! i = Some s → Qle_bool threshold s = true).
  { intros i s Hsi. apply Qle_bool_iff.
    destruct (run_entries _ _ _ _ _ _ _ _ _ _ _ _ _ _ i Hen Hrun)
      as (s' & pos & Hsi' & _ & Hnone & Hsome);
      [apply lookup_lt_Some in Hsi; lia|].
    assert (s' = s) by congruence. subst s'.
    eapply Qle_trans; [exact Hth|]. destruct pos as [p|].
    - apply Qlt_le_weak, Hsome. eauto.
    - rewrite Hnone by reflexivity. apply Qle_refl. }
  split.
  - rewrite matched_count_index, Hlen, filter_all; [apply length_seq|].
    intros i Hi. apply elem_of_seq in Hi.
    destruct (lookup_lt_is_Some_2 (best_scores res) i) as [s Hsi]; [lia|].
    rewrite Hsi. simpl. now rewrite (Hle i s Hsi).
  - intros i pos Hpi. unfold row_matched. rewrite Hpi.
    destruct pos as [p|]; [|reflexivity].
    destruct (lookup_lt_is_Some_2 (best_scores res) i) as [s Hsi].
    { apply lookup_lt_Some in Hpi. rewrite Hp, length_map in Hpi.
      rewrite Hs, length_map. exact Hpi. }
    rewrite Hsi, (Hle i s Hsi). reflexivity.
Qed.

(** ** The further properties on the sample runs *)

(** Row 2 of the sample has a position and the score 1/2. *)
Lemma score_zero_iff_no_position_witness :
  best_scores sample_similarity_result !! 2 = Some (1 # 2)%Q
  ∧ best_positions sample_similarity_result !! 2 = Some (Some 0)
  ∧ (0 < 1 # 2)%Q.
Proof.
  split; [reflexivity|]. split; [reflexivity|].
  apply (score_zero_iff_no_position sample_runtime sample_left sample_right
           ["id"] ["city"] ["name"] ["name"] (1 # 2)%Q true true true None
           sample_similarity_result sample_calls 2 (1 # 2)%Q (Some 0)).
  - vm_compute. reflexivity.
  - reflexivity.
  - reflexivity.
  - eexists. reflexivity.
Defined.

(** The text "abc x" of the left row 2 is the text of no right row; its
    recorded position 0 is a candidate. *)
Lemma fuzzy_best_candidate_witness :
  set_iter_ok sample_runtime
  ∧ left_text sample_similarity_result !! 2 = Some "abc x"
  ∧ ("abc x" ∉ right_text sample_similarity_result)
  ∧ 0 ∈ token_candidates (build_token_index (right_text sample_similarity_result))
          "abc x"
  ∧ (0 < 1 # 2)%Q.
Proof.
  assert (Hnot : "abc x" ∉ right_text sample_similarity_result).
  { intros H. apply list_elem_of_In in H. simpl in H.
    destruct H as [H|[H|[]]]; discriminate H. }
  split; [intros s; reflexivity|]. split; [reflexivity|].
  split; [exact Hnot|].
  destruct (fuzzy_best_candidate sample_runtime sample_left sample_right
              ["id"] ["city"] ["name"] ["name"] (1 # 2)%Q true true true None
              sample_similarity_result sample_calls 2 "abc x" (1 # 2)%Q (Some 0))
    as (_ & _ & _ & H).
  - intros s. reflexivity.
  - vm_compute. reflexivity.
  - reflexivity.
  - right. exact Hnot.
  - reflexivity.
  - reflexivity.
  - destruct (H 0 eq_refl) as (Hin & Hpos & _). split; [exact Hin|exact Hpos].
Defined.

Lemma exact_match_count_value_witness :
  similarity_enabled sample_similarity_result = true
  ∧ exact_match_count sample_similarity_result =
    length (filter (λ t, t ≠ "" ∧ t ∈ right_text sample_similarity_result)
              (left_text sample_similarity_result)).
Proof.
  split; [reflexivity|].
  apply (exact_match_count_value sample_runtime sample_left sample_right
           ["id"] ["city"] ["name"] ["name"] (1 # 2)%Q true true true None
           sample_similarity_result sample_calls).
  - reflexivity.
  - vm_compute. reflexivity.
Defined.

Lemma result_lengths_witness :
  similarity_enabled sample_similarity_result = true
  ∧ length (best_scores sample_similarity_result) = df_len sample_left
  ∧ length (best_positions sample_similarity_result) = df_len sample_left
  ∧ length (left_text sample_similarity_result) = df_len sample_left
  ∧ length (right_text sample_similarity_result) = df_len sample_right.
Proof.
  split; [reflexivity|].
  apply (result_lengths sample_runtime sample_left sample_right
           ["id"] ["city"] ["name"] ["name"] (1 # 2)%Q true true true None
           sample_similarity_result sample_calls).
  - reflexivity.
  - vm_compute. reflexivity.
Defined.

(** The ratio of the sample runtime is 1 or 1/2. *)
Lemma scores_in_unit_interval_witness :
  best_scores sample_similarity_result !! 2 = Some (1 # 2)%Q
  ∧ (0 <= 1 # 2)%Q ∧ (1 # 2 <= 1)%Q.
Proof.
  split; [reflexivity|].
  apply (scores_in_unit_interval sample_runtime sample_left sample_right
           ["id"] ["city"] ["name"] ["name"] (1 # 2)%Q true true true None
           sample_similarity_result sample_calls 2 (1 # 2)%Q).
  - intros a b. unfold _similarity_ratio. simpl.
    destruct (decide (a = b)); unfold Qle; simpl; lia.
  - vm_compute. reflexivity.
  - reflexivity.
Defined.

(** The sample run against a run with the threshold 0.0, other output
    columns, without unmatched rows and without a callback. *)
Lemma decisions_independent_of_output_settings_witness :
  ∃ res' calls',
    run_matching sample_runtime sample_left sample_right ["name"] ["name"]
      ["name"] ["name"] 0%Q false true false (Some 5%Z) = Ok (res', calls')
    ∧ best_scores sample_similarity_result = best_scores res'
    ∧ best_positions sample_similarity_result = best_positions res'
    ∧ exact_match_count sample_similarity_result = exact_match_count res'
    ∧ candidate_comparisons sample_similarity_result = candidate_comparisons res'
    ∧ left_text sample_similarity_result = left_text res'
    ∧ right_text sample_similarity_result = right_text res'
    ∧ similarity_engine sample_similarity_result = similarity_engine res'.
Proof.
  destruct (run_matching sample_runtime sample_left sample_right ["name"] ["name"]
              ["name"] ["name"] 0%Q false true false (Some 5%Z))
    as [[res' calls']|e] eqn:Hrun; [|vm_compute in Hrun; discriminate Hrun].
  exists res', calls'. split; [reflexivity|].
  apply (decisions_independent_of_output_settings sample_runtime sample_left
           sample_right ["id"] ["city"] ["name"] ["name"] ["name"] ["name"]
           (1 # 2)%Q 0%Q true false true true false None (Some 5%Z)
           sample_similarity_result res' sample_calls calls').
  - vm_compute. reflexivity.
  - exact Hrun.
Defined.

Lemma output_row_count_witness :
  sample_similarity_run = Ok (sample_similarity_result, sample_calls)
  ∧ length (result_df sample_similarity_result) = df_len sample_left.
Proof.
  split; [vm_compute; reflexivity|].
  apply (output_row_count sample_runtime sample_left sample_right
           ["id"] ["city"] ["name"] ["name"] (1 # 2)%Q true true true None
           sample_similarity_result sample_calls).
  vm_compute. reflexivity.
Defined.

Lemma progress_calls_witness :
  sample_similarity_run = Ok (sample_similarity_result, sample_calls)
  ∧ ∃ counts,
      sample_calls = (0, df_len sample_left)
                     :: map (λ d, (d, df_len sample_left)) counts
      ∧ StronglySorted lt counts
      ∧ ∀ d, d ∈ counts ↔
             1 ≤ d ≤ df_len sample_left
             ∧ (Z.modulo (Z.of_nat d)
                  (Z.max (Z.of_nat (df_len sample_left) / 200) 1) = 0%Z
                ∨ d = df_len sample_left).
Proof.
  split; [vm_compute; reflexivity|].
  refine (proj2 (progress_calls sample_runtime sample_left sample_right
                   ["id"] ["city"] ["name"] ["name"] (1 # 2)%Q true true true None
                   sample_similarity_result sample_calls _) eq_refl).
  vm_compute. reflexivity.
Defined.

Lemma prefer_rapidfuzz_inert_without_rapidfuzz_witness :
  rapidfuzz_available sample_runtime = false
  ∧ run_matching sample_runtime sample_left sample_right ["id"] ["city"]
      ["name"] ["name"] (1 # 2)%Q true true true None
    = run_matching sample_runtime sample_left sample_right ["id"] ["city"]
        ["name"] ["name"] (1 # 2)%Q true false true None
  ∧ similarity_engine sample_similarity_result = "difflib".
Proof.
  split; [reflexivity|].
  destruct (prefer_rapidfuzz_inert_without_rapidfuzz sample_runtime sample_left
              sample_right ["id"] ["city"] ["name"] ["name"] (1 # 2)%Q true true
              None eq_refl) as [Hsame Hengine].
  split; [exact Hsame|].
  apply (Hengine true sample_similarity_result sample_calls).
  - vm_compute. reflexivity.
  - reflexivity.
Defined.

(** The sample run returns: its columns are there, its frames have rows
    and its interval is not zero.  Against the right sample without its
    rows the run raises [AttributeError]. *)
Lemma run_matching_outcome_witness :
  set_iter_ok sample_runtime
  ∧ (((∀ c, c ∈ (["name"] ++ ["id"])%list →
            is_Some (df_columns sample_left !! c))
      ∧ (∀ c, c ∈ (["name"] ++ ["city"])%list →
              is_Some (df_columns sample_right !! c)))
     ∧ ¬ (true = true ∧ (df_len sample_left = 0 ∨ df_len sample_right = 0))
     ∧ ¬ (true = true
          ∧ resolve_update_every None (df_len sample_left) = 0%Z
          ∧ 0 < df_len sample_left))
  ∧ run_matching sample_runtime sample_left sample_no_rows ["id"] ["city"]
      ["name"] ["name"] (1 # 2)%Q true true true None
    = Raise AttributeError.
Proof.
  split; [intros s; reflexivity|]. split; [|vm_compute; reflexivity].
  pose proof (run_matching_outcome sample_runtime sample_left sample_right
                ["id"] ["city"] ["name"] ["name"] (1 # 2)%Q true true true None
                ltac:(intros s; reflexivity) ltac:(discriminate)
                ltac:(discriminate)) as H.
  cbv zeta in H.
  assert (Hrun : run_matching sample_runtime sample_left sample_right
                   ["id"] ["city"] ["name"] ["name"] (1 # 2)%Q true true true None
                 = Ok (sample_similarity_result, sample_calls))
    by (vm_compute; reflexivity).
  rewrite Hrun in H. exact H.
Defined.

Lemma filter_similarity_result_witness :
  similarity_enabled sample_similarity_result = true
  ∧ length (fr_rows (filter_results_by_status
                       (DataFrame_of_rows (result_df sample_similarity_result))
                       "Matched only"))
    + length (fr_rows (filter_results_by_status
                         (DataFrame_of_rows (result_df sample_similarity_result))
                         "No match only"))
    = length (result_df sample_similarity_result).
Proof.
  split; [reflexivity|].
  refine (proj1 (proj2 (filter_similarity_result sample_runtime sample_left
                          sample_right ["id"] ["city"] ["name"] ["name"] (1 # 2)%Q
                          true true true None
                          sample_similarity_result sample_calls eq_refl _))).
  vm_compute. reflexivity.
Defined.

Lemma filter_positional_result_witness :
  similarity_enabled sample_positional_result = false
  ∧ no_match_count (DataFrame_of_rows (result_df sample_positional_result)) = 0
  ∧ filter_results_by_status
      (DataFrame_of_rows (result_df sample_positional_result)) "No match only"
    = DataFrame_of_rows (result_df sample_positional_result).
Proof.
  split; [reflexivity|].
  destruct (filter_positional_result sample_runtime sample_left sample_right
              ["id"] ["city"] [] ["name"] (1 # 2)%Q true true true None
              sample_positional_result sample_calls eq_refl)
    as (_ & Hcount & Hfilter).
  - vm_compute. reflexivity.
  - split; [exact Hcount|apply Hfilter].
Defined.

Lemma summary_counts_witness :
  similarity_enabled sample_similarity_result = true
  ∧ (0 < 1 # 2)%Q
  ∧ matched_count (best_scores sample_similarity_result) (1 # 2)%Q
    = length (filter (λ i, row_matched sample_similarity_result (1 # 2)%Q i = true)
                (seq 0 (df_len sample_left)))
  ∧ matched_count (best_scores sample_similarity_result) (1 # 2)%Q
    = length (fr_rows (filter_results_by_status
                         (DataFrame_of_rows (result_df sample_similarity_result))
                         "Matched only"))
  ∧ no_match_count (DataFrame_of_rows (result_df sample_similarity_result))
    = df_len sample_left
      - matched_count (best_scores sample_similarity_result) (1 # 2)%Q.
Proof.
  split; [reflexivity|]. split; [reflexivity|].
  apply (summary_counts sample_runtime sample_left sample_right
           ["id"] ["city"] ["name"] ["name"] (1 # 2)%Q true true true None
           sample_similarity_result sample_calls).
  - reflexivity.
  - vm_compute. reflexivity.
  - reflexivity.
Defined.

(** With the threshold 0.0 the count is 3, the number of left rows,
    while the left row 1 has no position and is not Matched. *)
Lemma matched_count_at_zero_threshold_witness :
  run_matching sample_runtime sample_left sample_right ["id"] ["city"]
    ["name"] ["name"] 0%Q true true true None
  = Ok (sample_similarity_result, sample_calls)
  ∧ matched_count (best_scores sample_similarity_result) 0%Q = df_len sample_left
  ∧ row_matched sample_similarity_result 0%Q 1 = false.
Proof.
  assert (Hrun : run_matching sample_runtime sample_left sample_right ["id"] ["city"]
                   ["name"] ["name"] 0%Q true true true None
                 = Ok (sample_similarity_result, sample_calls))
    by (vm_compute; reflexivity).
  split; [exact Hrun|].
  destruct (matched_count_at_zero_threshold sample_runtime sample_left sample_right
              ["id"] ["city"] ["name"] ["name"] 0%Q true true true None
              sample_similarity_result sample_calls eq_refl Hrun)
    as [Hcount Hrows].
  - unfold Qle. simpl. lia.
  - split; [exact Hcount|]. exact (Hrows 1 None eq_refl).
Defined.

(** * The counts of the page, continued *)

Lemma prefix_append (p k : string) :
  String.prefix p k = true ↔ ∃ c, k = p +:+ c.
Proof.
  revert k. induction p as [|a p IH]; intros k; simpl.
  - destruct k; split; eauto.
  - destruct k as [|b k]; simpl.
    + split; [discriminate|]. intros [c Hc]. discriminate Hc.
    + destruct (ascii_dec a b) as [->|Hne].
      * rewrite IH. split; intros [c Hc]; exists c.
        -- now subst k.
        -- now injection Hc.
      * split; [discriminate|]. intros [c Hc]. injection Hc as Hab _.
        congruence.
Qed.

(** The keys under [Right_] of a merged row are those of the selected
    right columns. *)
Lemma merged_row_right_key (lrec : dict scalar) (rrec : option (dict scalar))
    (roc : list string) (c : string) :
  (∀ r c' v, rrec = Some r → (c', v) ∈ r → c' ∈ roc) →
  is_Some (dict_get ("Right_" +:+ c) (merged_row lrec rrec roc)) → c ∈ roc.
Proof.
  intros Hrec [o Ho]. apply dict_get_elem in Ho. unfold merged_row in Ho.
  assert (Hleft : ¬ ("Right_" +:+ c, o) ∈ set_prefixed "Left_" lrec []).
  { intros H.
    apply (fold_set_elem (λ cv : string * scalar, "Left_" +:+ cv.1)
             (λ cv, Cell cv.2)) in H as [H|(a & _ & Hk & _)].
    - now apply elem_of_nil in H.
    - simpl in Hk. discriminate Hk. }
  destruct rrec as [r|].
  - apply (fold_set_elem (λ cv : string * scalar, "Right_" +:+ cv.1)
             (λ cv, Cell cv.2)) in Ho as [Ho|([c' v] & Ha & Hk & _)];
      [contradiction|].
    simpl in Hk. apply append_inj in Hk. subst c'.
    exact (Hrec r c v eq_refl Ha).
  - apply (fold_set_elem (λ col : string, "Right_" +:+ col) (λ _, Cell NA))
      in Ho as [Ho|(c' & Ha & Hk & _)]; [contradiction|].
    apply append_inj in Hk. now subst c'.
Qed.

Lemma filter_none {A : Type} (P : A → Prop) `{∀ x, Decision (P x)} (l : list A) :
  (∀ x, x ∈ l → ¬ P x) → filter P l = [].
Proof.
  induction l as [|a r IH]; intros Hnone; [reflexivity|].
  rewrite filter_cons. destruct (decide (P a)) as [Ha|_].
  - exfalso. apply (Hnone a); [left | exact Ha].
  - apply IH. intros x Hx. apply Hnone. now right.
Qed.

Lemma filter_seq_min (h : nat → Prop) `{∀ i, Decision (h i)} (l r : nat) :
  filter (λ i, i < r ∧ h i) (seq 0 l) = filter h (seq 0 (Nat.min l r)).
Proof.
  destruct (decide (l ≤ r)) as [Hle|Hgt].
  - rewrite Nat.min_l by exact Hle. apply filter_ext_in. intros i Hi.
    apply elem_of_seq in Hi. split; [tauto|]. intros Hh.
    split; [lia | exact Hh].
  - rewrite Nat.min_r by lia. replace l with (r + (l - r)) by lia.
    rewrite seq_app, filter_app. simpl.
    rewrite (filter_none _ (seq r (l - r)))
      by (intros i Hi; apply elem_of_seq in Hi; lia).
    rewrite app_nil_r. apply filter_ext_in. intros i Hi.
    apply elem_of_seq in Hi. split; [tauto|]. intros Hh.
    split; [lia | exact Hh].
Qed.

Section RightRowsFilled.
Variables (left_df right_df : DataFrame).
Variable right_output_cols : list string.
Variables (lsel rsel : list (string * (nat → scalar))).
Variable include_unmatched : bool.
Hypothesis Hrsel : df_select right_df right_output_cols = Ok rsel.

Local Abbreviation row :=
  (positional_row lsel rsel (df_len right_df) right_output_cols).

Lemma positional_row_right (i : nat) (c : string) (f : nat → scalar) :
  c ∈ right_output_cols → df_column right_df c = Ok f →
  dict_get ("Right_" +:+ c) (row i)
  = Some (Cell (if decide (i < df_len right_df) then f i else NA)).
Proof using Hrsel.
  intros Hc Hf. unfold positional_row.
  destruct (decide (i < df_len right_df)).
  - exact (merged_row_right _ _ _ Hrsel _ _ _ _ Hc Hf).
  - now apply merged_row_right_missing.
Qed.

Lemma positional_row_right_key (i : nat) (c : string) :
  is_Some (dict_get ("Right_" +:+ c) (row i)) → c ∈ right_output_cols.
Proof using Hrsel.
  unfold positional_row. apply merged_row_right_key.
  intros r c' v Hr Hin. destruct (decide (i < df_len right_df)); [|discriminate].
  injection Hr as <-.
  now destruct (record_at_elem _ _ _ Hrsel _ _ _ Hin) as [Hc _].
Qed.

Lemma holds_value_spec (i : nat) :
  holds_value right_df right_output_cols i = true ↔
  ∃ c f s, c ∈ right_output_cols ∧ df_column right_df c = Ok f ∧ f i = Val s.
Proof using Type.
  unfold holds_value. rewrite existsb_exists. split.
  - intros (c & Hc & H). apply list_elem_of_In in Hc.
    destruct (df_column right_df c) as [f|e] eqn:Hcol; [|discriminate].
    destruct (f i) as [|s] eqn:Hf; [discriminate|]. now exists c, f, s.
  - intros (c & f & s & Hc & Hf & Hs). exists c.
    split; [now apply list_elem_of_In|]. now rewrite Hf, Hs.
Qed.

(** A row of the positional merge counts as filled exactly when a right
    row stands at its position and some selected right column holds a
    value there. *)
Lemma positional_row_filled (kept : list nat) (i : nat) :
  i ∈ kept →
  existsb (λ col, notna (frame_field (row i) col))
    (filter (λ col, String.prefix "Right_" col = true)
       (fr_columns (DataFrame_of_rows (map row kept)))) = true
  ↔ i < df_len right_df ∧ holds_value right_df right_output_cols i = true.
Proof using Hrsel.
  intros Hi. rewrite existsb_exists, holds_value_spec. split.
  - intros (k & Hk & Hna). apply list_elem_of_In, list_elem_of_filter in Hk as [Hp _].
    apply prefix_append in Hp as [c ->]. unfold frame_field in Hna.
    destruct (dict_get ("Right_" +:+ c) (row i)) as [o|] eqn:Ho; [|discriminate].
    assert (Hc : c ∈ right_output_cols)
      by (apply (positional_row_right_key i); rewrite Ho; eauto).
    destruct (selected_column _ _ _ Hrsel c Hc) as (f & Hf & _).
    rewrite (positional_row_right i c f Hc Hf) in Ho. injection Ho as <-.
    simpl in Hna. destruct (decide (i < df_len right_df)) as [Hlt|]; [|discriminate].
    split; [exact Hlt|]. destruct (f i) as [|s] eqn:Hs; [discriminate|].
    now exists c, f, s.
  - intros (Hlt & c & f & s & Hc & Hf & Hs). exists ("Right_" +:+ c).
    pose proof (positional_row_right i c f Hc Hf) as Hget.
    rewrite decide_True in Hget by exact Hlt. split.
    + apply list_elem_of_In, list_elem_of_filter. split.
      * apply prefix_append. now exists c.
      * apply frame_columns_elem. exists (row i). split.
        -- apply list_elem_of_fmap. now exists i.
        -- rewrite Hget. eauto.
    + unfold frame_field. rewrite Hget, Hs. reflexivity.
Qed.

Lemma positional_rows_filled :
  right_rows_filled
    (DataFrame_of_rows
       (map row (filter (λ i, i < df_len right_df ∨ include_unmatched = true)
                   (seq 0 (df_len left_df)))))
  = length (filter (λ i, holds_value right_df right_output_cols i = true)
              (seq 0 (Nat.min (df_len left_df) (df_len right_df)))).
Proof using Hrsel.
  unfold right_rows_filled.
  set (kept := filter (λ i, i < df_len right_df ∨ include_unmatched = true)
                 (seq 0 (df_len left_df))).
  change (fr_rows (DataFrame_of_rows (map row kept))) with (map row kept).
  cbv zeta.
  rewrite (filter_map_in row _
             (λ i, i < df_len right_df
                   ∧ holds_value right_df right_output_cols i = true) kept
             (positional_row_filled kept)).
  rewrite length_map. unfold kept. rewrite list_filter_filter.
  rewrite <- filter_seq_min. f_equal. apply filter_ext_in. intros i _. tauto.
Qed.

End RightRowsFilled.

(** X18: for a run without similarity, the count "Right Rows Filled" of
    the page is the number of positions that both frames have at which
    some selected right column holds a value; it is at most the number
    of rows of either frame. *)
Theorem right_rows_filled_positional (rt : Runtime) (left_df right_df : DataFrame)
    (left_output_cols right_output_cols left_match_cols right_match_cols : list string)
    (threshold : Q) (include_unmatched prefer_rapidfuzz progress_callback : bool)
    (progress_update_every : option Z)
    (res : MatchResult) (calls : list (nat * nat)) :
  similarity_enabled res = false →
  run_matching rt left_df right_df left_output_cols right_output_cols
    left_match_cols right_match_cols threshold include_unmatched
    prefer_rapidfuzz progress_callback progress_update_every = Ok (res, calls) →
  right_rows_filled (DataFrame_of_rows (result_df res))
  = length (filter (λ i, holds_value right_df right_output_cols i = true)
              (seq 0 (Nat.min (df_len left_df) (df_len right_df))))
  ∧ right_rows_filled (DataFrame_of_rows (result_df res))
    ≤ Nat.min (df_len left_df) (df_len right_df).
Proof.
  intros Hen Hrun.
  rewrite (run_similarity_enabled _ _ _ _ _ _ _ _ _ _ _ _ _ _ Hrun) in Hen.
  destruct (run_disabled _ _ _ _ _ _ _ _ _ _ _ _ _ _ Hen Hrun)
    as (lsel & rsel & Hl & Hr & Hrows & _).
  rewrite Hrows, (positional_rows_filled left_df right_df _ lsel rsel _ Hr).
  split; [reflexivity|].
  etransitivity; [apply length_filter|]. now rewrite length_seq.
Qed.

Lemma py_min_le_r (a b : Q) : (py_min a b <= b)%Q.
Proof.
  unfold py_min. destruct (Qle_bool a b) eqn:E.
  - now apply Qle_bool_iff.
  - apply Qle_refl.
Qed.

(** X19: in the summary of a run with similarity and a threshold of at
    most 1.0, the counts "Low-Confidence Matches" and "Exact Fast-Path"
    together do not exceed the count "Matched Left Rows", whatever the
    addition of floats gives: a row of the fast path is never of low
    confidence. *)
Theorem low_confidence_bound (rt : Runtime) (left_df right_df : DataFrame)
    (left_output_cols right_output_cols left_match_cols right_match_cols : list string)
    (threshold : Q) (include_unmatched prefer_rapidfuzz progress_callback : bool)
    (progress_update_every : option Z) (float_add : Q → Q → Q)
    (res : MatchResult) (calls : list (nat * nat)) :
  similarity_enabled res = true →
  run_matching rt left_df right_df left_output_cols right_output_cols
    left_match_cols right_match_cols threshold include_unmatched
    prefer_rapidfuzz progress_callback progress_update_every = Ok (res, calls) →
  (threshold <= 1)%Q →
  low_confidence float_add (best_scores res) threshold + exact_match_count res
  ≤ matched_count (best_scores res) threshold.
Proof.
  intros Hen Hrun Hth.
  rewrite (run_similarity_enabled _ _ _ _ _ _ _ _ _ _ _ _ _ _ Hrun) in Hen.
  destruct (run_decisions _ _ _ _ _ _ _ _ _ _ _ _ _ _ Hen Hrun)
    as (lsel & rsel & ds & _ & _ & _ & _ & HF & Hs & _ & He & _).
  rewrite Hs, He. unfold low_confidence, matched_count. clear Hs He Hrun.
  induction HF as [|t d texts ds [Hd _] HF IH]; [reflexivity|].
  rewrite filter_cons. simpl.
  assert (Hone :
    (if Qle_bool threshold (best_score d)
        && negb (Qle_bool (py_min (float_add threshold (1 # 20)%Q) 1%Q)
                   (best_score d))
     then 1 else 0)
    + (if decide (exact_hit d = true) then 1 else 0)
    ≤ (if Qle_bool threshold (best_score d) then 1 else 0)).
  { destruct (build_exact_index (right_text res) !! t) as [ps|] eqn:E.
    - destruct (match_row_hit _ _ _ _ _ _ _ _ E Hd) as (p & _ & ->). simpl.
      rewrite (proj2 (Qle_bool_iff threshold 1) Hth).
      rewrite (proj2 (Qle_bool_iff _ 1) (py_min_le_r _ 1)). reflexivity.
    - destruct (match_row_miss _ _ _ _ _ _ _ E Hd) as (Hhit & _). rewrite Hhit.
      simpl. destruct (Qle_bool threshold (best_score d)); simpl; [|lia].
      destruct (negb _); lia. }
  destruct (decide (exact_hit d = true)); simpl in *; lia.
Qed.

(** * The preset file *)

Lemma omap_as_dict (presets : gmap string (gmap string json)) :
  omap as_dict (JObject <$> presets) = presets.
Proof.
  apply map_eq. intros k. rewrite lookup_omap, lookup_fmap.
  destruct (presets !! k); reflexivity.
Qed.

Lemma io_bind_Returns {A B : Type} (m : io_result A) (f : A → io_result B) (b : B) :
  m ≫= f = Returns b → ∃ a, m = Returns a ∧ f a = Returns b.
Proof. destruct m as [a|e]; [|discriminate]. intros H. now exists a. Qed.

Lemma io_bind_Fails {A B : Type} (m : io_result A) (f : A → io_result B)
    (e : io_exn) :
  m ≫= f = Fails e ↔ m = Fails e ∨ ∃ a, m = Returns a ∧ f a = Fails e.
Proof.
  destruct m as [a|e']; unfold mbind, io_result_bind.
  - split; [intros H; right; now exists a|].
    intros [H|(a' & [= <-] & H)]; [discriminate H | exact H].
  - split; [intros [= ->]; now left|].
    intros [[= ->]|(a & H & _)]; [reflexivity | discriminate H].
Qed.

(** What [load_presets] makes of a text that [json.dumps] wrote. *)
Lemma load_written {lib : JsonLib} (presets : gmap string (gmap string json))
    (text : json_text lib) (r p w : bool) :
  round_trip lib →
  dumps lib (JObject (JObject <$> presets)) = Returns text →
  load_presets {| at_path := Utf8 text; readable := r; parent_ok := p;
                  writable := w |}
  = Returns (if r then presets else ∅).
Proof.
  intros Hrt Hd. unfold load_presets, path_exists, read_text. simpl.
  destruct r; simpl; [|reflexivity].
  now rewrite (Hrt _ _ Hd), omap_as_dict.
Qed.

Lemma save_presets_Returns {lib : JsonLib}
    (presets : gmap string (gmap string json)) (d d' : disk lib) :
  save_presets presets d = Returns d' →
  ∃ text, dumps lib (JObject (JObject <$> presets)) = Returns text
          ∧ d' = {| at_path := Utf8 text; readable := readable d;
                    parent_ok := parent_ok d; writable := writable d |}.
Proof.
  unfold save_presets. destruct (parent_ok d); simpl; [|discriminate].
  intros H. apply io_bind_Returns in H as (text & Hd & H).
  destruct (writable d); [|discriminate]. injection H as <-. now exists text.
Qed.

Lemma save_presets_Fails {lib : JsonLib}
    (presets : gmap string (gmap string json)) (d : disk lib) (e : io_exn) :
  save_presets presets d = Fails e ↔
  (parent_ok d = false ∧ e = OSError)
  ∨ (parent_ok d = true ∧ dumps lib (JObject (JObject <$> presets)) = Fails e)
  ∨ (parent_ok d = true ∧ writable d = false ∧ e = OSError
     ∧ ∃ text, dumps lib (JObject (JObject <$> presets)) = Returns text).
Proof.
  unfold save_presets. destruct (parent_ok d); simpl; [|naive_solver].
  destruct (dumps lib (JObject (JObject <$> presets))) as [text|e'] eqn:Hd;
    simpl; [destruct (writable d)|]; naive_solver.
Qed.

Lemma load_presets_Fails {lib : JsonLib} (d : disk lib) (e : io_exn) :
  load_presets d = Fails e ↔
  (at_path d = NoAccess ∧ e = OSError)
  ∨ (readable d = true ∧ at_path d = NotUtf8 ∧ e = UnicodeDecodeError)
  ∨ (readable d = true
     ∧ ∃ text, at_path d = Utf8 text ∧ loads lib text = Fails e
               ∧ e ≠ OSError ∧ e ≠ JSONDecodeError).
Proof.
  unfold load_presets, path_exists, read_text.
  destruct (at_path d) as [| | |text] eqn:Hp; simpl.
  - naive_solver.
  - naive_solver.
  - destruct (readable d); simpl; naive_solver.
  - destruct (readable d); simpl; [|naive_solver].
    destruct (loads lib text) as [v|e'] eqn:Hv; simpl.
    + split; [destruct v; discriminate|].
      intros [[H _]|[(_ & H & _)|(_ & t & [= <-] & H & _)]];
        [discriminate H | discriminate H | congruence].
    + split.
      * intros H. right. right. split; [reflexivity|]. exists text.
        split; [reflexivity|].
        destruct e'; simpl in H; try discriminate H; injection H as <-;
          (split; [exact Hv|split; discriminate]).
      * intros [[H _]|[(_ & H & _)|(_ & t & [= <-] & H & Ho & Hj)]];
          [discriminate H | discriminate H |].
        rewrite Hv in H. injection H as ->.
        destruct e; try reflexivity; contradiction.
Qed.

Lemma load_presets_lookup {lib : JsonLib} (d : disk lib)
    (old : gmap string (gmap string json)) (name : string)
    (preset : gmap string json) :
  load_presets d = Returns old →
  old !! name = Some preset ↔
  readable d = true
  ∧ ∃ t data, at_path d = Utf8 t ∧ loads lib t = Returns (JObject data)
              ∧ data !! name = Some (JObject preset).
Proof.
  unfold load_presets, path_exists, read_text. intros H. split.
  - destruct (at_path d) as [| | |t]; simpl in H.
    + injection H as <-. now rewrite lookup_empty.
    + discriminate H.
    + destruct (readable d); simpl in H; [discriminate|]. injection H as <-.
      now rewrite lookup_empty.
    + destruct (readable d); simpl in H.
      * destruct (loads lib t) as [v|e] eqn:Hv; simpl in H.
        -- destruct v as [| | | | | |data]; injection H as <-;
             try (now rewrite lookup_empty).
           rewrite lookup_omap. intros Hn. split; [reflexivity|].
           exists t, data. split; [reflexivity|]. split; [exact Hv|].
           destruct (data !! name) as [v|]; [|discriminate].
           destruct v; try discriminate. simpl in Hn. congruence.
        -- destruct e; try discriminate H; injection H as <-;
             now rewrite lookup_empty.
      * injection H as <-. now rewrite lookup_empty.
  - intros (Hr & t & data & Ht & Hv & Hn). rewrite Ht in H. simpl in H.
    rewrite Hr in H. simpl in H. rewrite Hv in H. injection H as <-.
    rewrite lookup_omap, Hn. reflexivity.
Qed.

Lemma upsert_preset_Returns {lib : JsonLib} (name : string)
    (payload : gmap string json) (d d' : disk lib) :
  round_trip lib →
  upsert_preset name payload d = Returns d' →
  ∃ old, load_presets d = Returns old
         ∧ readable d' = readable d
         ∧ load_presets d'
           = Returns (if readable d then <[name := payload]> old else ∅).
Proof.
  intros Hrt H. apply io_bind_Returns in H as (old & Hold & Hs).
  apply save_presets_Returns in Hs as (text & Hd & ->). exists old.
  split; [exact Hold|]. split; [reflexivity|].
  now apply load_written.
Qed.

(** X20: when [save_presets] returns and the file can be read,
    [load_presets] then returns the presets that were saved. *)
Theorem save_then_load {lib : JsonLib} (presets : gmap string (gmap string json))
    (d d' : disk lib) :
  round_trip lib → readable d = true →
  save_presets presets d = Returns d' →
  load_presets d' = Returns presets.
Proof.
  intros Hrt Hr Hs. apply save_presets_Returns in Hs as (text & Hd & ->).
  rewrite (load_written _ _ _ _ _ Hrt Hd), Hr. reflexivity.
Qed.

(** X21: when [upsert_preset] returns and the file can be read, the
    presets loaded afterwards are those loaded before with the named
    preset set to the payload.  Those loaded before are the entries of
    the JSON object in the file whose value is an object: none when
    there is no file or its text is no JSON object, which the new file
    then replaces. *)
Theorem upsert_preset_outcome {lib : JsonLib} (name : string)
    (payload : gmap string json) (d d' : disk lib) :
  round_trip lib → readable d = true →
  upsert_preset name payload d = Returns d' →
  ∃ old,
    load_presets d = Returns old
    ∧ load_presets d' = Returns (<[name := payload]> old)
    ∧ ∀ other preset,
        old !! other = Some preset ↔
        ∃ t data, at_path d = Utf8 t ∧ loads lib t = Returns (JObject data)
                  ∧ data !! other = Some (JObject preset).
Proof.
  intros Hrt Hr H.
  destruct (upsert_preset_Returns _ _ _ _ Hrt H) as (old & Hold & _ & Hnew).
  rewrite Hr in Hnew. exists old. split; [exact Hold|]. split; [exact Hnew|].
  intros other preset. rewrite (load_presets_lookup _ _ _ _ Hold), Hr.
  split; [now intros [_ ?]|now split].
Qed.

(** X22: when [delete_preset] returns and the file can be read, it
    returns whether the name was among the presets loaded; if not, the
    disk is as it was; if so, the presets loaded afterwards are those
    loaded before without the name. *)
Theorem delete_preset_outcome {lib : JsonLib} (name : string)
    (d d' : disk lib) (removed : bool) :
  round_trip lib → readable d = true →
  delete_preset name d = Returns (removed, d') →
  ∃ old,
    load_presets d = Returns old
    ∧ removed = bool_decide (is_Some (old !! name))
    ∧ (removed = false → d' = d)
    ∧ (removed = true → load_presets d' = Returns (delete name old)).
Proof.
  intros Hrt Hr H. apply io_bind_Returns in H as (old & Hold & H).
  exists old. split; [exact Hold|].
  destruct (old !! name) as [preset|] eqn:Hn.
  - apply io_bind_Returns in H as (d1 & Hs & [= <- <-]).
    split; [reflexivity|]. split; [discriminate|]. intros _.
    apply save_presets_Returns in Hs as (text & Hd & ->).
    rewrite (load_written _ _ _ _ _ Hrt Hd), Hr. reflexivity.
  - injection H as <- <-. split.
    + symmetry. apply bool_decide_eq_false_2. now intros [? ?].
    + split; [reflexivity|discriminate].
Qed.

(** X23: when the preset functions raise.  [load_presets] raises
    exactly in three cases: [stat] is refused on the path ([OSError],
    raised by [exists] outside the [try]); the file can be read and its
    bytes are not UTF-8 ([UnicodeDecodeError]); the file can be read and
    [json.loads] raises on its text an exception that is neither
    [OSError] nor [JSONDecodeError] (that exception).  A file that
    cannot be read and a text that is no JSON do not make it raise.
    [save_presets] raises exactly when [mkdir] fails ([OSError]), else
    when [json.dumps] raises (its exception), else when [write_text]
    fails ([OSError]).  [upsert_preset] raises exactly when loading
    raises or saving the updated presets does; [delete_preset] exactly
    when loading raises or the name is among the presets loaded and
    saving the others raises: for a name that is not loaded nothing is
    saved. *)
Theorem presets_failures {lib : JsonLib} (name : string)
    (payload : gmap string json) (d : disk lib) (e : io_exn) :
  (load_presets d = Fails e ↔
   (at_path d = NoAccess ∧ e = OSError)
   ∨ (readable d = true ∧ at_path d = NotUtf8 ∧ e = UnicodeDecodeError)
   ∨ (readable d = true
      ∧ ∃ text, at_path d = Utf8 text ∧ loads lib text = Fails e
                ∧ e ≠ OSError ∧ e ≠ JSONDecodeError))
  ∧ (∀ presets,
       save_presets presets d = Fails e ↔
       (parent_ok d = false ∧ e = OSError)
       ∨ (parent_ok d = true
          ∧ dumps lib (JObject (JObject <$> presets)) = Fails e)
       ∨ (parent_ok d = true ∧ writable d = false ∧ e = OSError
          ∧ ∃ text, dumps lib (JObject (JObject <$> presets)) = Returns text))
  ∧ (upsert_preset name payload d = Fails e ↔
     load_presets d = Fails e
     ∨ ∃ old, load_presets d = Returns old
              ∧ save_presets (<[name := payload]> old) d = Fails e)
  ∧ (delete_preset name d = Fails e ↔
     load_presets d = Fails e
     ∨ ∃ old, load_presets d = Returns old ∧ is_Some (old !! name)
              ∧ save_presets (delete name old) d = Fails e).
Proof.
  split; [apply load_presets_Fails|]. split; [intros presets; apply save_presets_Fails|].
  split.
  - unfold upsert_preset. apply io_bind_Fails.
  - unfold delete_preset. rewrite io_bind_Fails. split.
    + intros [H|(old & Hold & H)]; [now left|]. right. exists old.
      split; [exact Hold|]. destruct (old !! name) as [preset|]; [|discriminate].
      split; [eauto|].
      destruct (save_presets (delete name old) d) as [d1|e1]; [discriminate|].
      simpl in H. congruence.
    + intros [H|(old & Hold & [preset Hn] & H)]; [now left|]. right.
      exists old. split; [exact Hold|]. rewrite Hn, H. reflexivity.
Qed.

(** X24: saving a preset and then deleting it: the deletion returns
    [True], and the presets loaded afterwards are those loaded at the
    start without the name. *)
Theorem upsert_then_delete {lib : JsonLib} (name : string)
    (payload : gmap string json) (d d1 d2 : disk lib) (removed : bool) :
  round_trip lib → readable d = true →
  upsert_preset name payload d = Returns d1 →
  delete_preset name d1 = Returns (removed, d2) →
  removed = true
  ∧ ∃ old, load_presets d = Returns old
           ∧ load_presets d2 = Returns (delete name old).
Proof.
  intros Hrt Hr Hu Hd.
  destruct (upsert_preset_Returns _ _ _ _ Hrt Hu) as (old & Hold & Hr1 & Hnew).
  rewrite Hr in Hnew, Hr1.
  apply io_bind_Returns in Hd as (new & Hnew' & Hd).
  rewrite Hnew in Hnew'. injection Hnew' as <-.
  rewrite lookup_insert_eq in Hd.
  apply io_bind_Returns in Hd as (d3 & Hs & [= <- <-]).
  split; [reflexivity|]. exists old. split; [exact Hold|].
  apply save_presets_Returns in Hs as (text & Hdump & ->).
  rewrite (load_written _ _ _ _ _ Hrt Hdump), Hr1. now rewrite delete_insert_eq.
Qed.

(** ** The properties of the page and of the presets on the samples *)

Lemma right_rows_filled_positional_witness :
  similarity_enabled sample_positional_result = false
  ∧ right_rows_filled (DataFrame_of_rows (result_df sample_positional_result))
    = length (filter (λ i, holds_value sample_right ["city"] i = true)
                (seq 0 (Nat.min (df_len sample_left) (df_len sample_right))))
  ∧ right_rows_filled (DataFrame_of_rows (result_df sample_positional_result))
    ≤ Nat.min (df_len sample_left) (df_len sample_right).
Proof.
  split; [reflexivity|].
  apply (right_rows_filled_positional sample_runtime sample_left sample_right
           ["id"] ["city"] [] ["name"] (1 # 2)%Q true true true None
           sample_positional_result sample_calls).
  - reflexivity.
  - vm_compute. reflexivity.
Defined.

(** On the sample the bound is met: one row of low confidence and one of
    the fast path among two Matched rows. *)
Lemma low_confidence_bound_witness :
  similarity_enabled sample_similarity_result = true
  ∧ (1 # 2 <= 1)%Q
  ∧ low_confidence sample_float_add (best_scores sample_similarity_result)
      (1 # 2)%Q
    + exact_match_count sample_similarity_result
    ≤ matched_count (best_scores sample_similarity_result) (1 # 2)%Q.
Proof.
  split; [reflexivity|]. split; [unfold Qle; simpl; lia|].
  apply (low_confidence_bound sample_runtime sample_left sample_right
           ["id"] ["city"] ["name"] ["name"] (1 # 2)%Q true true true None
           sample_float_add sample_similarity_result sample_calls).
  - reflexivity.
  - vm_compute. reflexivity.
  - unfold Qle. simpl. lia.
Defined.

Lemma save_then_load_witness :
  round_trip sample_lib
  ∧ ∃ d', save_presets {[ "slow" := sample_payload ]} sample_disk = Returns d'
          ∧ load_presets d' = Returns {[ "slow" := sample_payload ]}.
Proof.
  split; [now intros value text [= <-]|].
  eexists. split; [reflexivity|].
  apply (save_then_load {[ "slow" := sample_payload ]} sample_disk).
  - now intros value text [= <-].
  - reflexivity.
  - reflexivity.
Defined.

(** The sample file holds the preset "fast" and an entry that is no
    preset. *)
Lemma upsert_preset_outcome_witness :
  ∃ d', upsert_preset "slow" sample_payload sample_disk = Returns d'
        ∧ load_presets sample_disk = Returns {[ "fast" := sample_payload ]}
        ∧ load_presets d'
          = Returns (<[ "slow" := sample_payload ]> {[ "fast" := sample_payload ]}).
Proof.
  destruct (upsert_preset "slow" sample_payload sample_disk) as [d'|e] eqn:Hu;
    [|vm_compute in Hu; discriminate Hu].
  exists d'. split; [reflexivity|].
  destruct (upsert_preset_outcome "slow" sample_payload sample_disk d')
    as (old & Hold & Hnew & _).
  - now intros value text [= <-].
  - reflexivity.
  - exact Hu.
  - assert (E : old = {[ "fast" := sample_payload ]}).
    { assert (Hl : load_presets sample_disk
                   = Returns {[ "fast" := sample_payload ]})
        by (vm_compute; reflexivity).
      rewrite Hl in Hold. now injection Hold. }
    subst old. split; [vm_compute; reflexivity | exact Hnew].
Defined.

Lemma delete_preset_outcome_witness :
  ∃ d', delete_preset "fast" sample_disk = Returns (true, d')
        ∧ load_presets d' = Returns (delete "fast" {[ "fast" := sample_payload ]}).
Proof.
  destruct (delete_preset "fast" sample_disk) as [[removed d']|e] eqn:Hd;
    [|vm_compute in Hd; discriminate Hd].
  assert (Hr : removed = true) by (vm_compute in Hd; now injection Hd).
  subst removed. exists d'. split; [reflexivity|].
  destruct (delete_preset_outcome "fast" sample_disk d' true)
    as (old & Hold & _ & _ & Hnew).
  - now intros value text [= <-].
  - reflexivity.
  - exact Hd.
  - assert (E : old = {[ "fast" := sample_payload ]}).
    { assert (Hl : load_presets sample_disk
                   = Returns {[ "fast" := sample_payload ]})
        by (vm_compute; reflexivity).
      rewrite Hl in Hold. now injection Hold. }
    subst old. exact (Hnew eq_refl).
Defined.

Lemma upsert_then_delete_witness :
  ∃ d1 d2, upsert_preset "slow" sample_payload sample_disk = Returns d1
           ∧ delete_preset "slow" d1 = Returns (true, d2)
           ∧ ∃ old, load_presets sample_disk = Returns old
                    ∧ load_presets d2 = Returns (delete "slow" old).
Proof.
  destruct (upsert_preset "slow" sample_payload sample_disk) as [d1|e] eqn:Hu;
    [|vm_compute in Hu; discriminate Hu].
  destruct (delete_preset "slow" d1) as [[removed d2]|e] eqn:Hd.
  - destruct (upsert_then_delete "slow" sample_payload sample_disk d1 d2 removed)
      as (Hr & old & Hold & Hnew).
    + now intros value text [= <-].
    + reflexivity.
    + exact Hu.
    + exact Hd.
    + subst removed. exists d1, d2. split; [reflexivity|].
      split; [exact Hd|]. exists old. split; assumption.
  - exfalso. vm_compute in Hu. injection Hu as <-. vm_compute in Hd.
    discriminate Hd.
Defined.
